(** * ofetch: a shallow embedding of the request pipeline

    The development follows the TypeScript sources file by file:
    [utils.ts] (method classification, JSON-serializability test, response
    type detection, option resolution, header merge, hook runner),
    [error.ts] (normalized error construction) and [fetch.ts] (the pipeline
    [$fetchRaw], the retry handler [onError] and [$fetch.create]).

    Conventions of the embedding:
    - JavaScript numbers that the pipeline inspects (status codes, retry
      counts, delays, timeouts) are integers, modelled in [Z];
    - strings are [String.string] (byte strings); [toUpperCase] and
      [toLowerCase] act on the ASCII letters, which is what HTTP method
      tokens and header field names consist of;
    - objects used as dictionaries (header containers, query records) are
      [gmap string _];
    - a key of an option object is absent, present holding [undefined],
      or present holding a value; reading it gives [None] in the first
      two cases, while object spread and the [in] operator tell them
      apart;
    - callbacks stored in options (hooks, [retryDelay] functions,
      [parseResponse]) are references interpreted by the environment, so
      that a context can be handed to them;
    - the asynchronous code is written in a state-and-exception monad over
      a store holding a logical clock, the armed timers, the cancellation
      tokens and an event log. *)

From Stdlib Require Import ZArith Ascii String List Bool Lia.
From stdpp Require Import base option list gmap strings fin_maps.

#[local] Set Warnings "-register-all".

Local Open Scope string_scope.
Local Open Scope Z_scope.

(** ** Strings *)

Module Str.

Definition is_lower (c : ascii) : bool :=
  let n := nat_of_ascii c in (Nat.leb 97 n && Nat.leb n 122)%bool.

Definition is_upper (c : ascii) : bool :=
  let n := nat_of_ascii c in (Nat.leb 65 n && Nat.leb n 90)%bool.

Definition upper_char (c : ascii) : ascii :=
  if is_lower c then ascii_of_nat (nat_of_ascii c - 32) else c.

Definition lower_char (c : ascii) : ascii :=
  if is_upper c then ascii_of_nat (nat_of_ascii c + 32) else c.

Fixpoint map (f : ascii -> ascii) (s : string) : string :=
  match s with
  | EmptyString => EmptyString
  | String c r => String (f c) (map f r)
  end.

(** [String.prototype.toUpperCase] / [toLowerCase]. *)
Definition toUpperCase : string -> string := map upper_char.
Definition toLowerCase : string -> string := map lower_char.

Definition eqb (a b : string) : bool := String.eqb a b.

Definition is_empty (s : string) : bool :=
  match s with EmptyString => true | _ => false end.

(** [s.startsWith(p)] *)
Fixpoint startsWith (p s : string) : bool :=
  match p, s with
  | EmptyString, _ => true
  | String a p', String b s' => (Ascii.eqb a b && startsWith p' s')%bool
  | String _ _, EmptyString => false
  end.

(** The part of [s] before the first occurrence of [sep]:
    [s.split(sep).shift()] for a one-character separator. *)
Fixpoint before (sep : ascii) (s : string) : string :=
  match s with
  | EmptyString => EmptyString
  | String c r => if Ascii.eqb c sep then EmptyString else String c (before sep r)
  end.

Fixpoint forallb (p : ascii -> bool) (s : string) : bool :=
  match s with
  | EmptyString => true
  | String c r => (p c && forallb p r)%bool
  end.

(** Decimal rendering of an integer, as [String(n)] renders an integer
    number. *)
Definition digit (n : Z) : ascii := ascii_of_nat (48 + Z.to_nat n).

Fixpoint digits (fuel : nat) (n : Z) (acc : string) : string :=
  match fuel with
  | O => acc
  | S fuel' =>
      let acc' := String (digit (n mod 10)) acc in
      if n <? 10 then acc' else digits fuel' (n / 10) acc'
  end.

Definition of_nonneg (n : Z) : string :=
  digits (S (Z.to_nat (Z.log2 n))) n EmptyString.

Definition of_Z (n : Z) : string :=
  if n <? 0 then String "-" (of_nonneg (- n)) else of_nonneg n.

End Str.

(** ** JavaScript values

    The values a request body, a query parameter or a decoded response can
    be. An object is described by what the pipeline can observe of it: the
    [name] of its [constructor] (absent when [value.constructor] is falsy
    or carries no string name) and the properties reachable from it. *)

Inductive JsValue : Type :=
| JUndefined
| JNull
| JBool (b : bool)
| JNum (n : Z)
| JStr (s : string)
| JBigInt (n : Z)
| JSymbol
| JFunction
| JArray (elems : list JsValue)
| JObject (ctor : option string) (props : list (string * JsValue)).

(** What [typeof] answers. *)
Inductive TypeTag : Type :=
| TUndefined | TObject | TBoolean | TNumber | TString | TBigint | TSymbol | TFunctionTag.

Definition typeof (v : JsValue) : TypeTag :=
  match v with
  | JUndefined => TUndefined
  | JNull => TObject
  | JBool _ => TBoolean
  | JNum _ => TNumber
  | JStr _ => TString
  | JBigInt _ => TBigint
  | JSymbol => TSymbol
  | JFunction => TFunctionTag
  | JArray _ => TObject
  | JObject _ _ => TObject
  end.

Definition TypeTag_eqb (a b : TypeTag) : bool :=
  match a, b with
  | TUndefined, TUndefined | TObject, TObject | TBoolean, TBoolean
  | TNumber, TNumber | TString, TString | TBigint, TBigint
  | TSymbol, TSymbol | TFunctionTag, TFunctionTag => true
  | _, _ => false
  end.

(** JavaScript truthiness. *)
Definition truthy (v : JsValue) : bool :=
  match v with
  | JUndefined | JNull => false
  | JBool b => b
  | JNum n => negb (n =? 0)
  | JStr s => negb (Str.is_empty s)
  | JBigInt n => negb (n =? 0)
  | JSymbol | JFunction | JArray _ | JObject _ _ => true
  end.

Definition isArray (v : JsValue) : bool :=
  match v with JArray _ => true | _ => false end.

Fixpoint assoc (k : string) (l : list (string * JsValue)) : option JsValue :=
  match l with
  | [] => None
  | (k', v) :: r => if String.eqb k k' then Some v else assoc k r
  end.

(** Errors raised by the language itself or by callbacks. *)
Record JsError : Type := mkJsError {
  err_name : string;
  err_message : string;
  err_code : option Z
}.

Definition TypeError (msg : string) : JsError :=
  {| err_name := "TypeError"; err_message := msg; err_code := None |}.

(** A computation that either returns or throws. *)
Inductive Completion (A : Type) : Type :=
| Normal (a : A)
| Throws (e : JsError).
Arguments Normal {A} a.
Arguments Throws {A} e.

(** Property read [value.key]. Reading a property of [null] or
    [undefined] raises a TypeError; a primitive has none of the properties
    looked up here. The [length]-like properties of arrays and functions
    are not among the keys the pipeline reads. *)
Definition getProp (v : JsValue) (k : string) : Completion JsValue :=
  match v with
  | JUndefined => Throws (TypeError ("Cannot read properties of undefined (reading '" ++ k ++ "')"))
  | JNull => Throws (TypeError ("Cannot read properties of null (reading '" ++ k ++ "')"))
  | JObject _ props => Normal (default JUndefined (assoc k props))
  | _ => Normal JUndefined
  end.

(** [key in value]. The operator raises on a primitive right operand. *)
Definition hasProp (k : string) (v : JsValue) : Completion bool :=
  match v with
  | JObject _ props => Normal (bool_decide (is_Some (assoc k props)))
  | JArray _ | JFunction => Normal false
  | _ => Throws (TypeError ("Cannot use 'in' operator to search for '" ++ k ++ "'"))
  end.

(** [value.constructor && value.constructor.name === "Object"] *)
Definition ctorIsObject (v : JsValue) : bool :=
  match v with
  | JObject (Some n) _ => String.eqb n "Object"
  | _ => false
  end.

(** ** utils.ts *)

(** [payloadMethods] *)
Definition payloadMethods : list string := ["PATCH"; "POST"; "PUT"; "DELETE"].

Definition set_has (s : list string) (x : string) : bool :=
  existsb (String.eqb x) s.

(** [isPayloadMethod(method = "GET")] *)
Definition isPayloadMethod (method : option string) : bool :=
  let m := default "GET" method in
  set_has payloadMethods (Str.toUpperCase m).

(** [isJSONSerializable(value)] *)
Definition isJSONSerializable (value : JsValue) : Completion bool :=
  match value with
  | JUndefined => Normal false
  | _ =>
    let t := typeof value in
    (* [t === null] compares a string with null and never holds *)
    if (TypeTag_eqb t TString || TypeTag_eqb t TNumber || TypeTag_eqb t TBoolean || false)%bool
    then Normal true
    else if negb (TypeTag_eqb t TObject) then Normal false
    else if isArray value then Normal true
    else
      match getProp value "buffer" with
      | Throws e => Throws e
      | Normal buf =>
        if truthy buf then Normal false
        else
          match getProp value "toJSON" with
          | Throws e => Throws e
          | Normal tj =>
            Normal (ctorIsObject value || TypeTag_eqb (typeof tj) TFunctionTag)%bool
          end
      end
  end.

(** [textTypes] *)
Definition textTypes : list string :=
  ["image/svg"; "application/xml"; "application/xhtml"; "application/html"].

Module JsonRe.

(** The character class of [JSON_RE]: word characters and the
    punctuation [!#$%&*.^`~-]. *)
Definition in_class (c : ascii) : bool :=
  let n := nat_of_ascii c in
  (Str.is_lower c || Str.is_upper c || (Nat.leb 48 n && Nat.leb n 57)
   || existsb (Nat.eqb n) [95; 33; 35; 36; 37; 38; 42; 46; 94; 96; 126; 45])%nat%bool.

Fixpoint drop (n : nat) (s : string) : string :=
  match n, s with
  | O, _ => s
  | S n', String _ r => drop n' r
  | S _, EmptyString => EmptyString
  end.

(** What follows the first occurrence of [sep], when there is one. *)
Fixpoint after (sep : ascii) (s : string) : option string :=
  match s with
  | EmptyString => None
  | String c r => if Ascii.eqb c sep then Some r else after sep r
  end.

(** [JSON_RE.test(s)] for an [s] without a semicolon, which is what
    [detectResponseType] passes: the optional parameter group can then
    only match the empty string. The [i] flag folds the ASCII letters. *)
Definition test (s : string) : bool :=
  let l := Str.toLowerCase s in
  (Str.startsWith "application/" l &&
   let rest := drop 12 l in
   (String.eqb rest "json" ||
    match after "+" rest with
    | Some tail => Str.forallb in_class (Str.before "+" rest) && String.eqb tail "json"
    | None => false
    end))%bool.

End JsonRe.

Inductive ResponseType : Type := RTjson | RTtext | RTblob | RTarrayBuffer | RTstream.

(** [detectResponseType(_contentType = "")] *)
Definition detectResponseType (_contentType : string) : ResponseType :=
  if Str.is_empty _contentType then RTjson
  else
    let contentType := Str.before ";" _contentType in
    if JsonRe.test contentType then RTjson
    else if (set_has textTypes contentType || Str.startsWith "text/" contentType)%bool
    then RTtext
    else RTblob.

(** ** The header container

    The [Headers] class is a collaborator: constructible from a record, a
    list of pairs or another instance, with case-insensitive [get], [set]
    and [has], iterable as field/value pairs with one entry per field
    name. It is modelled as a finite map keyed by the lower-cased field
    name. Field names are taken to be valid tokens. *)

Module Headers.

Abbreviation t := (gmap string string).

Definition empty : t := ∅.

Definition get (h : t) (name : string) : option string :=
  h !! Str.toLowerCase name.

Definition has (h : t) (name : string) : bool :=
  bool_decide (is_Some (h !! Str.toLowerCase name)).

Definition set (h : t) (name value : string) : t :=
  <[Str.toLowerCase name := value]> h.

(** [append] joins the values of a repeated field with a comma. *)
Definition append (h : t) (name value : string) : t :=
  match h !! Str.toLowerCase name with
  | Some old => <[Str.toLowerCase name := (old ++ ", " ++ value)%string]> h
  | None => <[Str.toLowerCase name := value]> h
  end.

(** The entries an iteration over the container yields. *)
Definition entries (h : t) : list (string * string) := map_to_list h.

Definition appendAll (l : list (string * string)) (h : t) : t :=
  fold_left (fun acc kv => append acc (fst kv) (snd kv)) l h.

Definition setAll (l : list (string * string)) (h : t) : t :=
  fold_left (fun acc kv => set acc (fst kv) (snd kv)) l h.

End Headers.

(** [HeadersInit]: a [Headers] instance, a plain record or an array of
    pairs. *)
Inductive HeadersInit : Type :=
| HInstance (h : Headers.t)
| HRecord (fields : list (string * string))
| HPairs (pairs : list (string * string)).

(** [new Headers(init)] *)
Definition new_Headers (init : option HeadersInit) : Headers.t :=
  match init with
  | None => Headers.empty
  | Some (HInstance h) => h
  | Some (HRecord l) => Headers.appendAll l Headers.empty
  | Some (HPairs l) => Headers.appendAll l Headers.empty
  end.

(** [Symbol.iterator in input || Array.isArray(input)] *)
Definition isIterable (input : HeadersInit) : bool :=
  match input with
  | HInstance _ | HPairs _ => true
  | HRecord _ => false
  end.

(** The pairs a [for ... of] loop over an iterable [HeadersInit] visits. *)
Definition iterate (input : HeadersInit) : list (string * string) :=
  match input with
  | HInstance h => Headers.entries h
  | HPairs l => l
  | HRecord l => l
  end.

(** [mergeHeaders(input, defaults, Headers)] *)
Definition mergeHeaders (input defaults : option HeadersInit) : Headers.t :=
  match defaults with
  | None => new_Headers input
  | Some d =>
    let headers := new_Headers (Some d) in
    match input with
    | Some i =>
      Headers.setAll
        (if isIterable i then iterate i else Headers.entries (new_Headers (Some i)))
        headers
    | None => headers
    end
  end.

(** ** types.ts *)

(** References to caller-supplied callbacks; the environment interprets
    them. *)
Definition HookRef := nat.
Definition DelayRef := nat.
Definition ParseRef := nat.

(** A hook slot holds one callback or an ordered list of callbacks. *)
Inductive HookSlot : Type :=
| HookOne (h : HookRef)
| HookList (hs : list HookRef).

(** [retry?: number | false] *)
Inductive RetryOpt : Type :=
| RetryFalse
| RetryNum (n : Z).

(** [retryDelay?: number | ((context) => number)] *)
Inductive RetryDelay : Type :=
| DelayNum (n : Z)
| DelayFn (f : DelayRef).

(** A cancellation token: one handed in by the caller (with the reason it
    was aborted with before the call, if it was), or the token of an
    [AbortController] the pipeline created, whose state lives in the
    store. *)
Inductive Signal : Type :=
| CallerSignal (abortedWith : option JsError)
| TimerSignal (id : nat).

(** A key of an object: absent, present holding [undefined], or present
    holding a value. *)
Inductive Field (A : Type) : Type :=
| Absent
| Undefined
| Value (a : A).
Arguments Absent {A}.
Arguments Undefined {A}.
Arguments Value {A} a.

(** [o.key]: an absent key reads as [undefined]. *)
Definition read {A} (f : Field A) : option A :=
  match f with Value a => Some a | _ => None end.

(** ["key" in o] *)
Definition present {A} (f : Field A) : bool :=
  match f with Absent => false | _ => true end.

(** A key written in an object literal when a value is given for it, and
    left out otherwise. *)
Definition given {A} (x : option A) : Field A :=
  match x with Some a => Value a | None => Absent end.

(** [o.key = x]: the key is present afterwards, also when [x] is
    [undefined]. *)
Definition assigned {A} (x : option A) : Field A :=
  match x with Some a => Value a | None => Undefined end.

(** One key of the spread [{ ...a, ...b }], [x] being the key in [b] and
    [y] the key in [a]: the later object wins whenever it has the key,
    whatever the key holds. *)
Definition orElse {A} (x y : Field A) : Field A :=
  match x with Absent => y | _ => x end.

(** [x ?? y] *)
Definition nullish {A} (x y : option A) : option A :=
  match x with Some _ => x | None => y end.

(** [FetchOptions] (and, once [headers] holds an instance,
    [ResolvedFetchOptions]): the keys of the object. *)
Record FetchOptions : Type := mkKeys {
  key_baseURL : Field string;
  key_body : Field JsValue;
  key_ignoreResponseError : Field bool;
  key_params : Field (gmap string JsValue);
  key_query : Field (gmap string JsValue);
  key_parseResponse : Field ParseRef;
  key_responseType : Field ResponseType;
  key_duplex : Field string;
  key_timeout : Field Z;
  key_retry : Field RetryOpt;
  key_retryDelay : Field RetryDelay;
  key_retryStatusCodes : Field (list Z);
  key_method : Field string;
  key_headers : Field HeadersInit;
  key_signal : Field Signal;
  key_onRequest : Field HookSlot;
  key_onRequestError : Field HookSlot;
  key_onResponse : Field HookSlot;
  key_onResponseError : Field HookSlot
}.

(** [options.key], for each key. *)
Definition baseURL (o : FetchOptions) : option string := read (key_baseURL o).
Definition body (o : FetchOptions) : option JsValue := read (key_body o).
Definition ignoreResponseError (o : FetchOptions) : option bool :=
  read (key_ignoreResponseError o).
Definition params (o : FetchOptions) : option (gmap string JsValue) := read (key_params o).
Definition query (o : FetchOptions) : option (gmap string JsValue) := read (key_query o).
Definition parseResponse (o : FetchOptions) : option ParseRef := read (key_parseResponse o).
Definition responseType (o : FetchOptions) : option ResponseType := read (key_responseType o).
Definition duplex (o : FetchOptions) : option string := read (key_duplex o).
Definition timeout (o : FetchOptions) : option Z := read (key_timeout o).
Definition retry (o : FetchOptions) : option RetryOpt := read (key_retry o).
Definition retryDelay (o : FetchOptions) : option RetryDelay := read (key_retryDelay o).
Definition retryStatusCodes (o : FetchOptions) : option (list Z) :=
  read (key_retryStatusCodes o).
Definition method (o : FetchOptions) : option string := read (key_method o).
Definition headers (o : FetchOptions) : option HeadersInit := read (key_headers o).
Definition signal (o : FetchOptions) : option Signal := read (key_signal o).
Definition onRequest (o : FetchOptions) : option HookSlot := read (key_onRequest o).
Definition onRequestError (o : FetchOptions) : option HookSlot := read (key_onRequestError o).
Definition onResponse (o : FetchOptions) : option HookSlot := read (key_onResponse o).
Definition onResponseError (o : FetchOptions) : option HookSlot :=
  read (key_onResponseError o).

Arguments baseURL !o /.
Arguments body !o /.
Arguments ignoreResponseError !o /.
Arguments params !o /.
Arguments query !o /.
Arguments parseResponse !o /.
Arguments responseType !o /.
Arguments duplex !o /.
Arguments timeout !o /.
Arguments retry !o /.
Arguments retryDelay !o /.
Arguments retryStatusCodes !o /.
Arguments method !o /.
Arguments headers !o /.
Arguments signal !o /.
Arguments onRequest !o /.
Arguments onRequestError !o /.
Arguments onResponse !o /.
Arguments onResponseError !o /.

(** An option object written as a literal: a key is present exactly when
    a value is given for it. *)
Definition mkOptions
    (baseURL' : option string) (body' : option JsValue)
    (ignoreResponseError' : option bool)
    (params' query' : option (gmap string JsValue))
    (parseResponse' : option ParseRef) (responseType' : option ResponseType)
    (duplex' : option string) (timeout' : option Z) (retry' : option RetryOpt)
    (retryDelay' : option RetryDelay) (retryStatusCodes' : option (list Z))
    (method' : option string) (headers' : option HeadersInit) (signal' : option Signal)
    (onRequest' onRequestError' onResponse' onResponseError' : option HookSlot)
    : FetchOptions :=
  mkKeys (given baseURL') (given body') (given ignoreResponseError') (given params')
         (given query') (given parseResponse') (given responseType') (given duplex')
         (given timeout') (given retry') (given retryDelay') (given retryStatusCodes')
         (given method') (given headers') (given signal') (given onRequest')
         (given onRequestError') (given onResponse') (given onResponseError').

(** The empty option object [{}]. *)
Definition noOptions : FetchOptions :=
  mkOptions None None None None None None None None None None
            None None None None None None None None None.

(** A pre-built [Request] object. *)
Record RequestObj : Type := mkRequest {
  req_url : string;
  req_method : string;
  req_headers : Headers.t
}.

(** [FetchRequest = RequestInfo] *)
Inductive FetchRequest : Type :=
| ReqString (url : string)
| ReqObject (r : RequestObj).

(** [FetchResponse]: what the pipeline reads of a [Response], the values
    its body readers resolve to, and the decoded-data slot [_data], which
    is [None] until something is assigned to it. *)
Record FetchResponse : Type := mkResponse {
  status : Z;
  statusText : string;
  res_headers : Headers.t;
  res_body : JsValue;
  _bodyInit : JsValue;
  res_text : string;
  res_blob : JsValue;
  res_arrayBuffer : JsValue;
  _data : option JsValue
}.

Definition set_data (r : FetchResponse) (v : JsValue) : FetchResponse :=
  mkResponse (status r) (statusText r) (res_headers r) (res_body r) (_bodyInit r)
             (res_text r) (res_blob r) (res_arrayBuffer r) (Some v).

(** [FetchContext] *)
Record FetchContext : Type := mkContext {
  request : FetchRequest;
  options : FetchOptions;
  response : option FetchResponse;
  error : option JsError
}.

(** Object spread [{ ...a, ...b }] on option objects: key by key, the
    later object wins whenever it has the key. *)
Definition spread (a b : FetchOptions) : FetchOptions :=
  {| key_baseURL := orElse (key_baseURL b) (key_baseURL a);
     key_body := orElse (key_body b) (key_body a);
     key_ignoreResponseError := orElse (key_ignoreResponseError b) (key_ignoreResponseError a);
     key_params := orElse (key_params b) (key_params a);
     key_query := orElse (key_query b) (key_query a);
     key_parseResponse := orElse (key_parseResponse b) (key_parseResponse a);
     key_responseType := orElse (key_responseType b) (key_responseType a);
     key_duplex := orElse (key_duplex b) (key_duplex a);
     key_timeout := orElse (key_timeout b) (key_timeout a);
     key_retry := orElse (key_retry b) (key_retry a);
     key_retryDelay := orElse (key_retryDelay b) (key_retryDelay a);
     key_retryStatusCodes := orElse (key_retryStatusCodes b) (key_retryStatusCodes a);
     key_method := orElse (key_method b) (key_method a);
     key_headers := orElse (key_headers b) (key_headers a);
     key_signal := orElse (key_signal b) (key_signal a);
     key_onRequest := orElse (key_onRequest b) (key_onRequest a);
     key_onRequestError := orElse (key_onRequestError b) (key_onRequestError a);
     key_onResponse := orElse (key_onResponse b) (key_onResponse a);
     key_onResponseError := orElse (key_onResponseError b) (key_onResponseError a) |}.

(** [{ ...a }] of a possibly undefined [a]. *)
Definition spreadOpt (a : option FetchOptions) : FetchOptions :=
  default noOptions a.

(** An object with one key (or the two query keys) written anew: given a
    value, or left out. *)
Definition with_method (o : FetchOptions) (m : option string) : FetchOptions :=
  mkKeys (key_baseURL o) (key_body o) (key_ignoreResponseError o) (key_params o)
    (key_query o) (key_parseResponse o) (key_responseType o) (key_duplex o)
    (key_timeout o) (key_retry o) (key_retryDelay o) (key_retryStatusCodes o) (given m)
    (key_headers o) (key_signal o) (key_onRequest o) (key_onRequestError o)
    (key_onResponse o) (key_onResponseError o).

Definition with_headers (o : FetchOptions) (h : option HeadersInit) : FetchOptions :=
  mkKeys (key_baseURL o) (key_body o) (key_ignoreResponseError o) (key_params o)
    (key_query o) (key_parseResponse o) (key_responseType o) (key_duplex o)
    (key_timeout o) (key_retry o) (key_retryDelay o) (key_retryStatusCodes o)
    (key_method o) (given h) (key_signal o) (key_onRequest o) (key_onRequestError o)
    (key_onResponse o) (key_onResponseError o).

Definition with_query_params (o : FetchOptions) (q p : option (gmap string JsValue)) : FetchOptions :=
  mkKeys (key_baseURL o) (key_body o) (key_ignoreResponseError o) (given p) (given q)
    (key_parseResponse o) (key_responseType o) (key_duplex o) (key_timeout o)
    (key_retry o) (key_retryDelay o) (key_retryStatusCodes o) (key_method o)
    (key_headers o) (key_signal o) (key_onRequest o) (key_onRequestError o)
    (key_onResponse o) (key_onResponseError o).

Definition with_duplex (o : FetchOptions) (d : option string) : FetchOptions :=
  mkKeys (key_baseURL o) (key_body o) (key_ignoreResponseError o) (key_params o)
    (key_query o) (key_parseResponse o) (key_responseType o) (given d) (key_timeout o)
    (key_retry o) (key_retryDelay o) (key_retryStatusCodes o) (key_method o)
    (key_headers o) (key_signal o) (key_onRequest o) (key_onRequestError o)
    (key_onResponse o) (key_onResponseError o).

Definition with_retry (o : FetchOptions) (r : option RetryOpt) : FetchOptions :=
  mkKeys (key_baseURL o) (key_body o) (key_ignoreResponseError o) (key_params o)
    (key_query o) (key_parseResponse o) (key_responseType o) (key_duplex o)
    (key_timeout o) (given r) (key_retryDelay o) (key_retryStatusCodes o) (key_method o)
    (key_headers o) (key_signal o) (key_onRequest o) (key_onRequestError o)
    (key_onResponse o) (key_onResponseError o).

Definition with_signal (o : FetchOptions) (s : option Signal) : FetchOptions :=
  mkKeys (key_baseURL o) (key_body o) (key_ignoreResponseError o) (key_params o)
    (key_query o) (key_parseResponse o) (key_responseType o) (key_duplex o)
    (key_timeout o) (key_retry o) (key_retryDelay o) (key_retryStatusCodes o)
    (key_method o) (key_headers o) (given s) (key_onRequest o) (key_onRequestError o)
    (key_onResponse o) (key_onResponseError o).

(** [options.body = b], where [b] may be [undefined]: the key stays. *)
Definition with_body (o : FetchOptions) (b : option JsValue) : FetchOptions :=
  mkKeys (key_baseURL o) (assigned b) (key_ignoreResponseError o) (key_params o)
    (key_query o) (key_parseResponse o) (key_responseType o) (key_duplex o)
    (key_timeout o) (key_retry o) (key_retryDelay o) (key_retryStatusCodes o)
    (key_method o) (key_headers o) (key_signal o) (key_onRequest o)
    (key_onRequestError o) (key_onResponse o) (key_onResponseError o).

(** The keys [query, params: query] of an object literal: both are written,
    also when [query] is [undefined]. *)
Definition assign_query (o : FetchOptions) (q : option (gmap string JsValue)) : FetchOptions :=
  mkKeys (key_baseURL o) (key_body o) (key_ignoreResponseError o) (assigned q)
    (assigned q) (key_parseResponse o) (key_responseType o) (key_duplex o)
    (key_timeout o) (key_retry o) (key_retryDelay o) (key_retryStatusCodes o)
    (key_method o) (key_headers o) (key_signal o) (key_onRequest o)
    (key_onRequestError o) (key_onResponse o) (key_onResponseError o).

(** [(request as Request)?.headers] *)
Definition requestHeaders (request : FetchRequest) : option HeadersInit :=
  match request with
  | ReqString _ => None
  | ReqObject r => Some (HInstance (req_headers r))
  end.

(** [{ ...a, ...b }] on records used as dictionaries; the later spread
    wins. *)
Definition spreadRec (a b : option (gmap string JsValue)) : gmap string JsValue :=
  default ∅ b ∪ default ∅ a.

(** [resolveFetchOptions(request, input, defaults, Headers)] *)
Definition resolveFetchOptions (request : FetchRequest)
    (input defaults : option FetchOptions) : FetchOptions :=
  let headers' :=
    mergeHeaders
      (nullish (input ≫= headers) (requestHeaders request))
      (defaults ≫= headers) in
  let query' :=
    if (bool_decide (is_Some (defaults ≫= query)) || bool_decide (is_Some (defaults ≫= params))
        || bool_decide (is_Some (input ≫= params)) || bool_decide (is_Some (input ≫= query)))%bool
    then
      Some (spreadRec
              (Some (spreadRec
                       (Some (spreadRec (defaults ≫= params) (defaults ≫= query)))
                       (input ≫= params)))
              (input ≫= query))
    else None in
  with_headers
    (assign_query (spread (spreadOpt defaults) (spreadOpt input)) query')
    (Some (HInstance headers')).

(** ** error.ts *)

Module Json.

Definition hex_digit (n : nat) : ascii :=
  if Nat.ltb n 10 then ascii_of_nat (48 + n) else ascii_of_nat (87 + n).

(** The escape of one character inside a JSON string literal. *)
Definition escape_char (c : ascii) : string :=
  let n := nat_of_ascii c in
  if Nat.eqb n 34 then String (ascii_of_nat 92) (String (ascii_of_nat 34) EmptyString)
  else if Nat.eqb n 92 then "\\"
  else if Nat.eqb n 8 then "\b"
  else if Nat.eqb n 9 then "\t"
  else if Nat.eqb n 10 then "\n"
  else if Nat.eqb n 12 then "\f"
  else if Nat.eqb n 13 then "\r"
  else if Nat.ltb n 32 then
    "\u00" ++ String (hex_digit (Nat.div n 16)) (String (hex_digit (Nat.modulo n 16)) EmptyString)
  else String c EmptyString.

Fixpoint escape (s : string) : string :=
  match s with
  | EmptyString => EmptyString
  | String c r => (escape_char c ++ escape r)%string
  end.

(** [JSON.stringify(s)] for a string [s]. *)
Definition quote (s : string) : string :=
  (String (ascii_of_nat 34) (escape s) ++ String (ascii_of_nat 34) EmptyString)%string.

End Json.

(** [Error.prototype.toString] *)
Definition error_toString (e : JsError) : string :=
  if Str.is_empty (err_name e) then err_message e
  else if Str.is_empty (err_message e) then err_name e
  else (err_name e ++ ": " ++ err_message e)%string.

(** [a || b] on strings. *)
Definition str_or (a b : string) : string :=
  if Str.is_empty a then b else a.

(** [FetchError]: the composed message, the cause, and the context the
    accessors read through. *)
Record FetchError : Type := mkFetchError {
  fe_message : string;
  fe_cause : option JsError;
  fe_context : FetchContext
}.

(** [(ctx.request as Request)?.method] and [?.url], [undefined] read as
    the empty string under [||]. *)
Definition requestMethod (r : FetchRequest) : string :=
  match r with ReqString _ => "" | ReqObject o => req_method o end.

Definition requestUrl (r : FetchRequest) : string :=
  match r with ReqString _ => "" | ReqObject o => req_url o end.

(** [String(ctx.request)] *)
Definition requestToString (r : FetchRequest) : string :=
  match r with ReqString u => u | ReqObject _ => "[object Request]" end.

(** [createFetchError(ctx)] *)
Definition createFetchError (ctx : FetchContext) : FetchError :=
  let errorMessage :=
    match error ctx with
    | Some e => str_or (err_message e) (str_or (error_toString e) "")
    | None => ""
    end in
  let method :=
    str_or (requestMethod (request ctx)) (str_or (default "" (method (options ctx))) "GET") in
  let url :=
    str_or (requestUrl (request ctx)) (str_or (requestToString (request ctx)) "/") in
  let requestStr := ("[" ++ method ++ "] " ++ Json.quote url)%string in
  let statusStr :=
    match response ctx with
    | Some r => (Str.of_Z (status r) ++ " " ++ statusText r)%string
    | None => "<no response>"
    end in
  let message :=
    (requestStr ++ ": " ++ statusStr ++
     (if Str.is_empty errorMessage then "" else " " ++ errorMessage))%string in
  {| fe_message := message; fe_cause := error ctx; fe_context := ctx |}.

(** The accessors [data], [status]/[statusCode], [statusText]/[statusMessage]
    read through to the response. *)
Definition fe_data (e : FetchError) : option JsValue :=
  response (fe_context e) ≫= _data.
Definition fe_status (e : FetchError) : option Z :=
  status <$> response (fe_context e).
Definition fe_statusText (e : FetchError) : option string :=
  statusText <$> response (fe_context e).

(** ** The store and the monad of the asynchronous code *)

Inductive Event : Type :=
| EvTransport (ctxId : nat) (req : FetchRequest) (opts : FetchOptions)
| EvDecoded (ctxId : nat) (v : JsValue)
| EvDelay (ms : Z).

(** The error the armed timer aborts with. *)
Definition TimeoutError : JsError :=
  {| err_name := "TimeoutError";
     err_message := "[TimeoutError]: The operation was aborted due to timeout";
     err_code := Some 23 |}.

(** The store: the logical clock (milliseconds), the timers that are armed
    (the time each is due, by the number of the cancellation token it
    aborts), the abort reason of every pipeline-created cancellation token
    that has been aborted, the next fresh token, the number of contexts
    built and of transport invocations made so far, and the log of what
    happened. *)
Record Store : Type := mkStore {
  clock : Z;
  timers : gmap nat Z;
  timerAborted : gmap nat JsError;
  nextTimer : nat;
  contexts : nat;
  calls : nat;
  log : list Event
}.

Definition initialStore : Store := mkStore 0 ∅ ∅ 0 0 0 [].

(** Time passes: the clock moves on by [ms] milliseconds, and every armed
    timer that falls due on the way fires, aborting its token with the
    timeout error (a token that is already aborted keeps its reason). *)
Definition tick (ms : Z) (s : Store) : Store :=
  let t := clock s + Z.max 0 ms in
  mkStore t
    (filter (fun kv => t < kv.2) (timers s))
    (timerAborted s ∪ ((fun _ => TimeoutError) <$> filter (fun kv => kv.2 <= t) (timers s)))
    (nextTimer s) (contexts s) (calls s) (log s).

Definition record (e : Event) (s : Store) : Store :=
  mkStore (clock s) (timers s) (timerAborted s) (nextTimer s) (contexts s) (calls s)
          (log s ++ [e]).

(** What a rejected call carries: an error raised by the language, a hook
    or the transport, or a normalized [FetchError]. *)
Inductive Exn : Type :=
| ExnJs (e : JsError)
| ExnFetch (e : FetchError).

Inductive Result (A : Type) : Type :=
| Returned (a : A) (s : Store)
| Rejected (e : Exn) (s : Store)
| Pending (s : Store)
| OutOfFuel (s : Store).
Arguments Returned {A} a s.
Arguments Rejected {A} e s.
Arguments Pending {A} s.
Arguments OutOfFuel {A} s.

Definition M (A : Type) : Type := Store -> Result A.

Definition ret {A} (a : A) : M A := fun s => Returned a s.

Definition bind {A B} (m : M A) (k : A -> M B) : M B :=
  fun s =>
    match m s with
    | Returned a s' => k a s'
    | Rejected e s' => Rejected e s'
    | Pending s' => Pending s'
    | OutOfFuel s' => OutOfFuel s'
    end.

Definition throw {A} (e : Exn) : M A := fun s => Rejected e s.

Definition liftC {A} (c : Completion A) : M A :=
  match c with
  | Normal a => ret a
  | Throws e => throw (ExnJs e)
  end.

Definition modify (f : Store -> Store) : M unit := fun s => Returned tt (f s).

Declare Scope fetch_scope.
Delimit Scope fetch_scope with fetch.
Notation "x <- m ;; k" := (bind m (fun x => k))
  (at level 100, m at next level, right associativity) : fetch_scope.
Notation "m ;;; k" := (bind m (fun _ => k))
  (at level 100, right associativity) : fetch_scope.

(** ** The environment *)

(** How the transport primitive settles one invocation when nothing
    cancels it. *)
Inductive TransportOutcome : Type :=
| Responds (latency : Z) (r : FetchResponse)
| Fails (latency : Z) (e : JsError)
| NeverSettles.

(** The transport primitive; its first argument counts the invocations
    made before this one. *)
Definition Transport : Type := nat -> FetchRequest -> FetchOptions -> TransportOutcome.

(** The language built-ins, the libraries ([ufo], [destr]) and the
    interpretation of the caller's callbacks. Hooks receive the context
    and hand back the context as they left it. *)
Record Host : Type := mkHost {
  withBase : string -> string -> string;
  withQuery : string -> gmap string JsValue -> string;
  JSON_stringify : JsValue -> Completion JsValue;
  destr : string -> JsValue;
  callParse : ParseRef -> string -> Completion JsValue;
  callHook : HookRef -> FetchContext -> Completion FetchContext;
  callDelay : DelayRef -> FetchContext -> Z;
  globalFetch : Transport
}.

(** [CreateFetchOptions]: the default options, and the key [fetch] of the
    object. *)
Record CreateFetchOptions : Type := mkCreateOptions {
  defaults : option FetchOptions;
  fetch : Field Transport
}.

(** ** fetch.ts *)

(** [retryStatusCodes] *)
Definition retryStatusCodes_default : list Z := [408; 409; 425; 429; 500; 502; 503; 504].

(** [nullBodyResponses] *)
Definition nullBodyResponses : list Z := [101; 204; 205; 304].

Definition includes (l : list Z) (x : Z) : bool := existsb (Z.eqb x) l.

(** Truthiness of an optional number and of an optional string. *)
Definition truthyNum (x : option Z) : bool :=
  match x with Some n => negb (n =? 0) | None => false end.

Definition truthyStr (x : option string) : bool :=
  match x with Some s => negb (Str.is_empty s) | None => false end.

Definition truthyOpt (x : option JsValue) : bool :=
  match x with Some v => truthy v | None => false end.

(** What the retry handler decides for a failed context. *)
Inductive ErrorAction : Type :=
| RetryWith (delay : Z) (request : FetchRequest) (options : FetchOptions)
| Raise (e : FetchError).

Section Pipeline.

Variable host : Host.
Variable globalOptions : CreateFetchOptions.

Local Open Scope fetch_scope.

(** [const { fetch = globalThis.fetch } = globalOptions] *)
Definition theFetch : Transport :=
  default (globalFetch host) (read (fetch globalOptions)).

(** [callHooks(context, hooks)] *)
Fixpoint runHooks (hs : list HookRef) (context : FetchContext) : M FetchContext :=
  match hs with
  | [] => ret context
  | h :: rest => c <- liftC (callHook host h context) ;; runHooks rest c
  end.

Definition callHooks (context : FetchContext) (hooks : option HookSlot) : M FetchContext :=
  match hooks with
  | None => ret context
  | Some (HookList hs) => runHooks hs context
  | Some (HookOne h) => liftC (callHook host h context)
  end.

(** *** onError *)

(** [isAbort] *)
Definition isAbort (context : FetchContext) : bool :=
  match error context with
  | Some e => (String.eqb (err_name e) "AbortError" && negb (truthyNum (timeout (options context))))%bool
  | None => false
  end.

(** [context.options.retry !== false] *)
Definition retryNotFalse (r : option RetryOpt) : bool :=
  match r with Some RetryFalse => false | _ => true end.

(** [retries] *)
Definition retries (context : FetchContext) : Z :=
  match retry (options context) with
  | Some (RetryNum n) => n
  | _ => if isPayloadMethod (method (options context)) then 0 else 1
  end.

(** [responseCode] *)
Definition responseCode (context : FetchContext) : Z :=
  match response context with
  | Some r => if status r =? 0 then 500 else status r
  | None => 500
  end.

(** The status test of the retry condition. *)
Definition retryStatusMatches (context : FetchContext) : bool :=
  match retryStatusCodes (options context) with
  | Some codes => includes codes (responseCode context)
  | None => includes retryStatusCodes_default (responseCode context)
  end.

(** [retryDelay] *)
Definition retryDelayOf (context : FetchContext) : Z :=
  match retryDelay (options context) with
  | Some (DelayFn f) => callDelay host f context
  | Some (DelayNum n) => n
  | None => 0
  end.

(** The decision [onError] takes: re-invoke the pipeline, or raise the
    normalized error. *)
Definition onErrorAction (context : FetchContext) : ErrorAction :=
  if (retryNotFalse (retry (options context)) && negb (isAbort context))%bool
  then
    if (0 <? retries context) && retryStatusMatches context
    then RetryWith (retryDelayOf context) (request context)
                   (with_retry (options context) (Some (RetryNum (retries context - 1))))
    else Raise (createFetchError context)
  else Raise (createFetchError context).

(** [await new Promise((resolve) => setTimeout(resolve, retryDelay))] *)
Definition sleep (ms : Z) : M unit :=
  modify (fun s => record (EvDelay ms) (tick ms s)).

(** [onError(context)], the pipeline it re-enters being [self]. *)
Definition onError (self : FetchRequest -> option FetchOptions -> M (option FetchResponse))
    (context : FetchContext) : M (option FetchResponse) :=
  match onErrorAction context with
  | RetryWith retryDelay request options =>
      (if 0 <? retryDelay then sleep retryDelay else ret tt) ;;;
      self request (Some options)
  | Raise e => throw (ExnFetch e)
  end.

(** *** $fetchRaw, stage by stage *)

Definition with_options (c : FetchContext) (o : FetchOptions) : FetchContext :=
  mkContext (request c) o (response c) (error c).

Definition with_request (c : FetchContext) (r : FetchRequest) : FetchContext :=
  mkContext r (options c) (response c) (error c).

Definition with_response (c : FetchContext) (r : option FetchResponse) : FetchContext :=
  mkContext (request c) (options c) r (error c).

Definition with_error (c : FetchContext) (e : option JsError) : FetchContext :=
  mkContext (request c) (options c) (response c) e.

(** The context a call starts with. *)
Definition buildContext (_request : FetchRequest) (_options : option FetchOptions) : FetchContext :=
  {| request := _request;
     options := resolveFetchOptions _request _options (defaults globalOptions);
     response := None;
     error := None |}.

(** [context.options.method = context.options.method.toUpperCase()] *)
Definition upperCaseMethod (context : FetchContext) : FetchContext :=
  if truthyStr (method (options context))
  then with_options context
         (with_method (options context) (Str.toUpperCase <$> method (options context)))
  else context.

(** URL assembly, for string descriptors. *)
Definition assembleURL (context : FetchContext) : FetchContext :=
  match request context with
  | ReqString url =>
    let url1 :=
      if truthyStr (baseURL (options context))
      then withBase host url (default "" (baseURL (options context)))
      else url in
    let url2 :=
      match query (options context) with
      | Some q => withQuery host url1 q
      | None => url1
      end in
    with_options (with_request context (ReqString url2))
                 (with_query_params (options context) None None)
  | ReqObject _ => context
  end.

(** [JSON.stringify] may answer [undefined], which unsets the body. *)
Definition optOfValue (v : JsValue) : option JsValue :=
  match v with JUndefined => None | _ => Some v end.

(** The stream test of the body preparation. *)
Definition isStreamBody (b : JsValue) : Completion bool :=
  match hasProp "pipeTo" b with
  | Throws e => Throws e
  | Normal inB =>
    match (if inB then getProp b "pipeTo" else Normal JUndefined) with
    | Throws e => Throws e
    | Normal pipeTo =>
      if (inB && TypeTag_eqb (typeof pipeTo) TFunctionTag)%bool then Normal true
      else
        match getProp b "pipe" with
        | Throws e => Throws e
        | Normal pipe => Normal (TypeTag_eqb (typeof pipe) TFunctionTag)
        end
    end
  end.

(** The default of one header: set only when the field is absent. *)
Definition defaultHeader (h : Headers.t) (name value : string) : Headers.t :=
  if Headers.has h name then h else Headers.set h name value.

(** Body preparation. *)
Definition prepareBody (context : FetchContext) : M FetchContext :=
  let o := options context in
  match body o with
  | Some b =>
    if (truthy b && isPayloadMethod (method o))%bool then
      serializable <- liftC (isJSONSerializable b) ;;
      if serializable : bool then
        text <- (match b with
                 | JStr _ => ret (Some b)
                 | _ => v <- liftC (JSON_stringify host b) ;; ret (optOfValue v)
                 end) ;;
        let h0 := new_Headers (headers o) in
        let h1 := defaultHeader h0 "content-type" "application/json" in
        let h2 := defaultHeader h1 "accept" "application/json" in
        ret (with_options context
               (with_headers (with_body o text) (Some (HInstance h2))))
      else
        stream <- liftC (isStreamBody b) ;;
        if stream : bool then
          if present (key_duplex o) then ret context
          else ret (with_options context (with_duplex o (Some "half")))
        else ret context
    else ret context
  | None => ret context
  end.

(** Timeout arming: the context with the token installed, and the armed
    timer (token and delay) if one was set. The timer is due [timeout]
    milliseconds from now. *)
Definition armTimeout (context : FetchContext) : M (FetchContext * option (nat * Z)) :=
  let o := options context in
  if (negb (bool_decide (is_Some (signal o))) && truthyNum (timeout o))%bool then
    fun s =>
      let id := nextTimer s in
      Returned
        (with_options context (with_signal o (Some (TimerSignal id))),
         Some (id, default 0 (timeout o)))
        (mkStore (clock s)
                 (<[id := clock s + Z.max 0 (default 0 (timeout o))]> (timers s))
                 (timerAborted s) (S id) (contexts s) (calls s) (log s))
  else ret (context, None).

(** [clearTimeout(abortTimeout)], when a timer was armed. *)
Definition clearTimeout (timer : option (nat * Z)) (s : Store) : Store :=
  match timer with
  | Some (id, _) =>
      mkStore (clock s) (delete id (timers s)) (timerAborted s) (nextTimer s)
              (contexts s) (calls s) (log s)
  | None => s
  end.

(** The reason a token is aborted with, if it is. *)
Definition abortReason (s : Store) (sig : option Signal) : option JsError :=
  match sig with
  | Some (CallerSignal r) => r
  | Some (TimerSignal id) => timerAborted s !! id
  | None => None
  end.

(** The time at which an armed timer will abort the token, if one
    will. *)
Definition deadlineOf (s : Store) (sig : option Signal) : option Z :=
  match sig with
  | Some (TimerSignal id) => timers s !! id
  | _ => None
  end.

(** The timer of the token fires while the transport call is under way:
    time passes until the timer is due, the token is aborted with the
    timeout error and the transport call rejects with that reason. *)
Definition fireTimer (due : Z) (s : Store) : Result (Completion FetchResponse) :=
  Returned (Throws TimeoutError) (tick (due - clock s) s).

(** The transport call settles with [settled] after [lat] milliseconds,
    unless the timer of its token is due by then. *)
Definition settle (sig : option Signal) (lat : Z) (settled : Completion FetchResponse)
    (s : Store) : Result (Completion FetchResponse) :=
  match deadlineOf s sig with
  | Some due => if clock s + lat <? due then Returned settled (tick lat s) else fireTimer due s
  | None => Returned settled (tick lat s)
  end.

(** [await fetch(context.request, context.options)]. A transport call
    whose token is already aborted rejects at once with the token's
    reason; a call that has not settled when the timer of its token fires
    rejects with the timeout error; a call that never settles and whose
    token no timer will abort stays pending. The timer is the one this
    attempt armed, or the one an earlier attempt armed for the token this
    attempt inherited, as long as it has not been cleared. *)
Definition awaitFetch (ctxId : nat) (context : FetchContext)
    : M (Completion FetchResponse) :=
  fun s0 =>
    let n := calls s0 in
    let s := record (EvTransport ctxId (request context) (options context))
               (mkStore (clock s0) (timers s0) (timerAborted s0) (nextTimer s0)
                        (contexts s0) (S n) (log s0)) in
    let sig := signal (options context) in
    match abortReason s sig with
    | Some reason => Returned (Throws reason) s
    | None =>
      match theFetch n (request context) (options context) with
      | Responds lat r => settle sig lat (Normal r) s
      | Fails lat e => settle sig lat (Throws e) s
      | NeverSettles =>
          match deadlineOf s sig with
          | Some due => fireTimer due s
          | None => Pending s
          end
      end
    end.

(** [hasBody] *)
Definition hasBody (context : FetchContext) (r : FetchResponse) : bool :=
  ((truthy (res_body r) || truthy (_bodyInit r))
   && negb (includes nullBodyResponses (status r))
   && negb (bool_decide (method (options context) = Some "HEAD")))%bool.

(** The decoding strategy. *)
Definition responseTypeOf (context : FetchContext) (r : FetchResponse) : ResponseType :=
  match (match parseResponse (options context) with
         | Some _ => Some RTjson
         | None => responseType (options context)
         end) with
  | Some t => t
  | None => detectResponseType (default "" (Headers.get (res_headers r) "content-type"))
  end.

(** Response decoding: the one assignment to [_data]. *)
Definition decodeResponse (ctxId : nat) (context : FetchContext) (r : FetchResponse)
    : M FetchContext :=
  if hasBody context r then
    data <- (match responseTypeOf context r with
             | RTjson =>
                 match parseResponse (options context) with
                 | Some p => liftC (callParse host p (res_text r))
                 | None => ret (destr host (res_text r))
                 end
             | RTstream =>
                 ret (if truthy (res_body r) then res_body r else _bodyInit r)
             | RTtext => ret (JStr (res_text r))
             | RTblob => ret (res_blob r)
             | RTarrayBuffer => ret (res_arrayBuffer r)
             end) ;;
    modify (record (EvDecoded ctxId data)) ;;;
    ret (with_response context (Some (set_data r data)))
  else ret context.

(** [context.response.status] after the hooks ran; reading [status] of
    a response a hook has unset raises. *)
Definition theResponse (context : FetchContext) : M FetchResponse :=
  match response context with
  | Some r => ret r
  | None => throw (ExnJs (TypeError "Cannot read properties of undefined (reading 'status')"))
  end.

(** The status range that sends a response to the retry handler. *)
Definition isErrorStatus (r : FetchResponse) : bool :=
  ((400 <=? status r) && (status r <? 600))%bool.

(** Each invocation of the pipeline builds one context; its number
    identifies it in the log. *)
Definition newContextId : M nat :=
  fun s =>
    Returned (contexts s)
      (mkStore (clock s) (timers s) (timerAborted s) (nextTimer s) (S (contexts s))
               (calls s) (log s)).

(** [try { ... } finally { cleanup }] around a computation that has
    settled: the cleanup runs whether it returned or threw. *)
Definition finally {A} (m : M A) (cleanup : Store -> Store) : M A :=
  fun s =>
    match m s with
    | Returned a s' => Returned a (cleanup s')
    | Rejected e s' => Rejected e (cleanup s')
    | Pending s' => Pending s'
    | OutOfFuel s' => OutOfFuel s'
    end.

(** What follows the transport call. The [catch] branch hands a thrown
    error to the retry handler and returns what the handler returns, so
    the [finally] clause clears the timer only once the handler, and with
    it every retried attempt, has settled. Otherwise the timer is cleared
    at once, the response is decoded, the post-response hooks run and the
    status decides. [self] is the pipeline the retry handler re-enters. *)
Definition afterTransport (self : FetchRequest -> option FetchOptions -> M (option FetchResponse))
    (ctxId : nat) (timer : option (nat * Z)) (context : FetchContext)
    (settled : Completion FetchResponse)
    : M (option FetchResponse) :=
  match settled with
  | Throws e =>
      finally
        (let context := with_error context (Some e) in
         context <- callHooks context (onRequestError (options context)) ;;
         onError self context)
        (clearTimeout timer)
  | Normal r =>
      modify (clearTimeout timer) ;;;
      let context := with_response context (Some r) in
      context <- decodeResponse ctxId context r ;;
      context <- callHooks context (onResponse (options context)) ;;
      if default false (ignoreResponseError (options context))
      then ret (response context)
      else
        r <- theResponse context ;;
        if isErrorStatus r then
          context <- callHooks context (onResponseError (options context)) ;;
          onError self context
        else ret (response context)
  end.

(** [$fetchRaw(_request, _options)] *)
Fixpoint fetchRaw (fuel : nat) (_request : FetchRequest) (_options : option FetchOptions)
    : M (option FetchResponse) :=
  match fuel with
  | O => fun s => OutOfFuel s
  | S fuel' =>
    ctxId <- newContextId ;;
    let context := upperCaseMethod (buildContext _request _options) in
    context <- callHooks context (onRequest (options context)) ;;
    let context := assembleURL context in
    context <- prepareBody context ;;
    armed <- armTimeout context ;;
    let context := fst armed in
    settled <- awaitFetch ctxId context ;;
    afterTransport (fetchRaw fuel') ctxId (snd armed) context settled
  end.

(** [$fetch(request, options)]: the decoded data of the response. *)
Definition ofetch (fuel : nat) (request : FetchRequest) (options : option FetchOptions)
    : M (option JsValue) :=
  r <- fetchRaw fuel request options ;;
  match r with
  | Some r => ret (_data r)
  | None => throw (ExnJs (TypeError "Cannot read properties of undefined (reading '_data')"))
  end.

(** [$fetch.create(defaultOptions = {}, customGlobalOptions = {})]: the
    global options of the instance it builds. *)
Definition create (defaultOptions : FetchOptions) (customGlobalOptions : CreateFetchOptions)
    : CreateFetchOptions :=
  {| fetch := orElse (fetch customGlobalOptions) (fetch globalOptions);
     defaults :=
       Some (spread (spread (spreadOpt (defaults globalOptions))
                            (spreadOpt (defaults customGlobalOptions)))
                    defaultOptions) |}.

End Pipeline.

Local Open Scope list_scope.

(** * Specification-side definitions

    The statements below compare the code with what the specification
    says. The definitions of this part are written from the
    specification's words. *)

(** The payload-bearing methods, compared ignoring letter case. *)
Definition payloadBearing (m : option string) : bool :=
  match m with
  | Some s =>
      existsb (fun p => String.eqb (Str.toLowerCase s) (Str.toLowerCase p))
              ["POST"; "PUT"; "PATCH"; "DELETE"]
  | None => false
  end.

(** A sample environment for the concrete runs: [ufo] joins base and
    path, the JSON codec is the identity on text, hooks leave the context
    alone. *)
Definition sampleHost (tr : Transport) : Host :=
  {| withBase := fun url base => (base ++ url)%string;
     withQuery := fun url _ => url;
     JSON_stringify := fun v => Normal (JStr "<json>");
     destr := fun s => JStr s;
     callParse := fun _ s => Normal (JStr s);
     callHook := fun _ c => Normal c;
     callDelay := fun _ _ => 0;
     globalFetch := tr |}.

(** A transport that never responds. *)
Definition silentTransport : Transport := fun _ _ _ => NeverSettles.

Definition noGlobalOptions : CreateFetchOptions := mkCreateOptions None Absent.

(** The status the retry decision looks at: the response's, or 500 when
    there is no response. *)
Definition observedStatus (context : FetchContext) : Z :=
  match response context with
  | Some r => status r
  | None => 500
  end.

(** The configured retry-status set: the caller's list if given, else the
    fixed default set. *)
Definition configuredRetryStatuses (context : FetchContext) : list Z :=
  default [408; 409; 425; 429; 500; 502; 503; 504] (retryStatusCodes (options context)).

(** A failed attempt, as the pipeline hands it to the retry handler: the
    transport threw and there is no response, or the response carries an
    error status. *)
Definition failedAttempt (context : FetchContext) : Prop :=
  match response context with
  | Some r => 400 <= status r < 600
  | None => True
  end.

(** The parts of the composed error message, as the specification names
    them: the method is the descriptor's own, else the option's, else
    [GET]; the URL is the descriptor's own, else its string form (["/"]
    when that is empty); the status part is the status and its text, or
    [<no response>]. *)
Definition describedMethod (context : FetchContext) : string :=
  match request context with
  | ReqObject o =>
      if Str.is_empty (req_method o)
      then (match method (options context) with
            | Some m => if Str.is_empty m then "GET" else m
            | None => "GET"
            end)
      else req_method o
  | ReqString _ =>
      match method (options context) with
      | Some m => if Str.is_empty m then "GET" else m
      | None => "GET"
      end
  end.

Definition describedUrl (context : FetchContext) : string :=
  match request context with
  | ReqObject o => if Str.is_empty (req_url o) then "[object Request]" else req_url o
  | ReqString u => if Str.is_empty u then "/" else u
  end.

Definition describedStatus (context : FetchContext) : string :=
  match response context with
  | Some r => (Str.of_Z (status r) ++ " " ++ statusText r)%string
  | None => "<no response>"
  end.

Definition messageHead (context : FetchContext) : string :=
  ("[" ++ describedMethod context ++ "] " ++ Json.quote (describedUrl context)
   ++ ": " ++ describedStatus context)%string.

(** The message as the claim words it: the head, followed by a space and
    the cause's message only when the cause has a message. *)
Definition claimedMessage (context : FetchContext) : string :=
  (messageHead context ++
   match error context with
   | Some e => if Str.is_empty (err_message e) then "" else " " ++ err_message e
   | None => ""
   end)%string.

(** A character that a JSON string literal shows as it is. *)
Definition plainChar (c : ascii) : bool :=
  let n := nat_of_ascii c in
  (Nat.leb 32 n && negb (Nat.eqb n 34) && negb (Nat.eqb n 92))%bool.

(** The text between double quotes. *)
Definition inQuotes (s : string) : string :=
  (String (ascii_of_nat 34) s ++ String (ascii_of_nat 34) EmptyString)%string.

(** A transport failure whose error has no message. *)
Definition bareErrorContext : FetchContext :=
  {| request := ReqString "http://localhost/x";
     options := noOptions;
     response := None;
     error := Some {| err_name := "Error"; err_message := ""; err_code := None |} |}.

(** The header merge as the claim words it: three layers merged field by
    field, per-call headers over descriptor-carried headers over
    defaults. *)
Definition threeLayerMerge (request : FetchRequest)
    (input defaults : option FetchOptions) : Headers.t :=
  new_Headers (input ≫= headers)
  ∪ new_Headers (requestHeaders request)
  ∪ new_Headers (defaults ≫= headers).

(** The call-level layer the code merges over the defaults: the per-call
    headers when supplied, else the descriptor's. *)
Definition callLayer (request : FetchRequest) (input : option FetchOptions)
    : option HeadersInit :=
  match input ≫= headers with
  | Some h => Some h
  | None => requestHeaders request
  end.

(** The representation invariant of a header container: field names are
    stored in lower case. *)
Definition lowerCased (h : Headers.t) : Prop :=
  forall k v, h !! k = Some v -> Str.toLowerCase k = k.

Definition wellFormedInit (i : option HeadersInit) : Prop :=
  match i with
  | Some (HInstance h) => lowerCased h
  | _ => True
  end.

(** No field name occurs twice, ignoring case, in a list of pairs. *)
Definition distinctNames (i : option HeadersInit) : Prop :=
  match i with
  | Some (HPairs l) => NoDup (map (fun kv => Str.toLowerCase (fst kv)) l)
  | _ => True
  end.

(** The pairs of a list with their names in lower case. *)
Definition lowerKeys (l : list (string * string)) : list (string * string) :=
  map (fun kv => (Str.toLowerCase (fst kv), snd kv)) l.

(** A request object that carries a field of its own, and per-call headers
    that do not mention it. *)
Definition fooRequest : FetchRequest :=
  ReqObject {| req_url := "http://localhost/echo"; req_method := "GET";
               req_headers := {["foo" := "1"]} |}.

Definition barOptions : FetchOptions :=
  with_headers noOptions (Some (HRecord [("bar", "3")])).

(** The defaults a derived instance would get if [create] merged headers
    and query field by field, as the claim words it. *)
Definition deepMergedHeaders (existing new : option FetchOptions) : Headers.t :=
  new_Headers (new ≫= headers) ∪ new_Headers (existing ≫= headers).

Definition deepMergedQuery (existing new : option FetchOptions) : gmap string JsValue :=
  default ∅ (new ≫= query) ∪ default ∅ (existing ≫= query).

(** The default a derived instance ends up with for one key, as the
    amended claim words it: what the new options hold for the key if they
    have the key, else what the defaults of the custom global options hold
    if they have it, else the existing default. A key that holds
    [undefined] is a key the object has. *)
Definition overridden {A} (new custom existing : Field A) : Field A :=
  if present new then new
  else if present custom then custom
  else existing.

Definition overriddenDefaults (new custom existing : FetchOptions) : FetchOptions :=
  {| key_baseURL :=
       overridden (key_baseURL new) (key_baseURL custom) (key_baseURL existing);
     key_body :=
       overridden (key_body new) (key_body custom) (key_body existing);
     key_ignoreResponseError :=
       overridden (key_ignoreResponseError new) (key_ignoreResponseError custom) (key_ignoreResponseError existing);
     key_params :=
       overridden (key_params new) (key_params custom) (key_params existing);
     key_query :=
       overridden (key_query new) (key_query custom) (key_query existing);
     key_parseResponse :=
       overridden (key_parseResponse new) (key_parseResponse custom) (key_parseResponse existing);
     key_responseType :=
       overridden (key_responseType new) (key_responseType custom) (key_responseType existing);
     key_duplex :=
       overridden (key_duplex new) (key_duplex custom) (key_duplex existing);
     key_timeout :=
       overridden (key_timeout new) (key_timeout custom) (key_timeout existing);
     key_retry :=
       overridden (key_retry new) (key_retry custom) (key_retry existing);
     key_retryDelay :=
       overridden (key_retryDelay new) (key_retryDelay custom) (key_retryDelay existing);
     key_retryStatusCodes :=
       overridden (key_retryStatusCodes new) (key_retryStatusCodes custom) (key_retryStatusCodes existing);
     key_method :=
       overridden (key_method new) (key_method custom) (key_method existing);
     key_headers :=
       overridden (key_headers new) (key_headers custom) (key_headers existing);
     key_signal :=
       overridden (key_signal new) (key_signal custom) (key_signal existing);
     key_onRequest :=
       overridden (key_onRequest new) (key_onRequest custom) (key_onRequest existing);
     key_onRequestError :=
       overridden (key_onRequestError new) (key_onRequestError custom) (key_onRequestError existing);
     key_onResponse :=
       overridden (key_onResponse new) (key_onResponse custom) (key_onResponse existing);
     key_onResponseError :=
       overridden (key_onResponseError new) (key_onResponseError custom) (key_onResponseError existing) |}.

(** An instance with defaults, and the options of a derived instance. *)
Definition baseInstance : CreateFetchOptions :=
  {| defaults :=
       Some (with_query_params
               (with_headers noOptions (Some (HRecord [("x-header-a", "0")])))
               (Some {["a" := JNum 0]}) None);
     fetch := Absent |}.

Definition derivedOptions : FetchOptions :=
  with_query_params
    (with_headers noOptions (Some (HRecord [("x-header-b", "2")])))
    (Some {["b" := JNum 2]}) None.

(** Options that have the key [headers], with the value [undefined]. *)
Definition undefinedHeadersOptions : FetchOptions :=
  mkKeys Absent Absent Absent Absent Absent Absent Absent Absent Absent Absent
         Absent Absent Absent Undefined Absent Absent Absent Absent Absent.

(** ** Reasoning about runs

    [ends m s Q R]: when [m] runs from store [s], [Q] holds of the value
    and store it returns with, and [R] of the store it is left in when it
    rejects, stays pending or is cut short by the fuel. *)
Definition ends {A} (m : M A) (s : Store) (Q : A -> Store -> Prop) (R : Store -> Prop) : Prop :=
  match m s with
  | Returned a s' => Q a s'
  | Rejected _ s' => R s'
  | Pending s' => R s'
  | OutOfFuel s' => R s'
  end.

(** The run was not cut short by the fuel. *)
Definition completes {A} (r : Result A) : Prop :=
  match r with
  | OutOfFuel _ => False
  | _ => True
  end.

(** The number of assignments to the decoded-data slot that the log
    records for the context [id]. *)
Fixpoint decodedCount (id : nat) (l : list Event) : nat :=
  match l with
  | [] => 0
  | EvDecoded id' _ :: r => (if Nat.eqb id id' then 1 else 0) + decodedCount id r
  | _ :: r => decodedCount id r
  end.

(** The store moved on without a new context and without a decoding: the
    log was continued by events that are not decodings. *)
Definition silent (s s' : Store) : Prop :=
  contexts s' = contexts s
  /\ exists l, log s' = (log s ++ l)%list /\ forall id, decodedCount id l = 0%nat.

(** Every context built so far was decoded at most once, and no context
    that is still to be built has been decoded. *)
Definition decodedOnce (s : Store) : Prop :=
  forall id,
    (decodedCount id (log s) <= 1)%nat
    /\ ((contexts s <= id)%nat -> decodedCount id (log s) = 0%nat).

(** The log of [s'] continues the log of [s]. *)
Definition grows (s s' : Store) : Prop :=
  exists l, log s' = (log s ++ l)%list.

(** A computation that settles at once and leaves the store as it found
    it. *)
Definition pure_run {A} (m : M A) : Prop :=
  forall s,
    match m s with
    | Returned _ s' | Rejected _ s' => s' = s
    | Pending _ | OutOfFuel _ => False
    end.

(** From [s] to [s'], the run built the contexts numbered from
    [contexts s] up to [contexts s'], and what it added to the log
    decodes only those, each at most once. *)
Definition evolves (s s' : Store) : Prop :=
  (contexts s <= contexts s')%nat
  /\ exists l, log s' = log s ++ l
     /\ forall id,
          (decodedCount id l <=
           if (Nat.leb (contexts s) id && Nat.ltb id (contexts s'))%bool then 1 else 0)%nat.

(** From [s] to [s'], one context was built and nothing was decoded
    yet. *)
Definition allocated (s s' : Store) : Prop :=
  contexts s' = S (contexts s)
  /\ exists l, log s' = log s ++ l /\ forall id, decodedCount id l = 0%nat.

(** From [s] to [s'], at most one decoding happened, for the context
    [ctxId]. *)
Definition decodes (ctxId : nat) (s s' : Store) : Prop :=
  contexts s' = contexts s
  /\ exists l, log s' = log s ++ l
     /\ forall id, (decodedCount id l <= if Nat.eqb id ctxId then 1 else 0)%nat.

(** ** Body preparation, specification side *)

(** A plain object: one whose constructor is [Object]. *)
Definition plainObject (b : JsValue) : bool :=
  match b with
  | JObject (Some n) _ => String.eqb n "Object"
  | _ => false
  end.

(** An object carrying a (truthy) [buffer] field. *)
Definition carriesBuffer (b : JsValue) : bool :=
  match b with
  | JObject _ props => truthy (default JUndefined (assoc "buffer" props))
  | _ => false
  end.

(** [h'] is [h] with [content-type] and [accept] defaulted to
    [application/json]: each is set exactly when it was absent. *)
Definition jsonDefaulted (h h' : Headers.t) : Prop :=
  h' !! "content-type" = Some (default "application/json" (h !! "content-type"))
  /\ h' !! "accept" = Some (default "application/json" (h !! "accept"))
  /\ forall k, k <> "content-type" -> k <> "accept" -> h' !! k = h !! k.

(** The log of [s'] continues the log of [s] with a transport invocation,
    for the context [id], whose options satisfy [P]. *)
Definition transportInvoked (id : nat) (P : FetchRequest -> FetchOptions -> Prop)
    (s s' : Store) : Prop :=
  exists req o l, log s' = log s ++ EvTransport id req o :: l /\ P req o.

(** A POST whose body is a plain object with a [buffer] field, and a
    transport that answers 200. *)
Definition bufferFieldBody : JsValue :=
  JObject (Some "Object") [("buffer", JBool true); ("num", JNum 42)].

Definition postOptions (b : JsValue) : FetchOptions :=
  with_body (with_method noOptions (Some "POST")) (Some b).

Definition okResponse : FetchResponse :=
  mkResponse 200 "OK" ∅ (JObject (Some "ReadableStream") []) JUndefined "ok"
             (JObject (Some "Blob") []) (JObject (Some "ArrayBuffer") []) None.

Definition okTransport : Transport := fun _ _ _ => Responds 5 okResponse.

(** The transport invocations a log records, in order. *)
Fixpoint transportInputs (l : list Event) : list (FetchRequest * FetchOptions) :=
  match l with
  | [] => []
  | EvTransport _ r o :: rest => (r, o) :: transportInputs rest
  | _ :: rest => transportInputs rest
  end.

(** The log a finished or pending run leaves. *)
Definition logOf {A} (r : Result A) : list Event :=
  match r with
  | Returned _ s | Rejected _ s | Pending s | OutOfFuel s => log s
  end.

(** The store once the pipeline has numbered its context. *)
Definition started (s : Store) : Store :=
  mkStore (clock s) (timers s) (timerAborted s) (nextTimer s) (S (contexts s)) (calls s)
          (log s).

(** The option objects a JSON body ends up in: the serialized body and a
    header container with the JSON defaults. *)
Definition jsonPrepared (before : FetchOptions) (text : option JsValue)
    (req : FetchRequest) (o : FetchOptions) : Prop :=
  body o = text
  /\ exists h', headers o = Some (HInstance h')
                /\ jsonDefaulted (new_Headers (headers before)) h'.

(** The option object a body that is left alone ends up in: the body and
    the headers are those the pipeline found. *)
Definition passedOn (before : FetchOptions) (req : FetchRequest) (o : FetchOptions) : Prop :=
  body o = body before /\ headers o = headers before.

(** ** Timeouts, specification side *)

(** A call with [timeout: 100], one retry and a retry delay of five
    seconds; and a call with [timeout: 100] that also hands in a
    cancellation token of its own. *)
Definition timeoutRetryOptions : FetchOptions :=
  mkOptions None None None None None None None None (Some 100) (Some (RetryNum 1))
            (Some (DelayNum 5000)) None None None None None None None None.

Definition timeoutWithTokenOptions : FetchOptions :=
  mkOptions None None None None None None None None (Some 100) (Some (RetryNum 0))
            None None None None (Some (CallerSignal None)) None None None None.

Definition timeoutOnlyOptions : FetchOptions :=
  mkOptions None None None None None None None None (Some 100) (Some (RetryNum 0))
            None None None None None None None None None.

(** The reason of a timeout is told apart by its name and its code. *)
Definition timeoutReason (e : JsError) : Prop :=
  err_name e = "TimeoutError" /\ err_code e = Some 23.

(** The call rejects, after [ms] milliseconds and one transport
    invocation, with a normalized error whose cause is a timeout. *)
Definition rejectsOnTimeout {A} (s : Store) (ms : Z) (r : Result A) : Prop :=
  exists e cause s',
    r = Rejected (ExnFetch e) s'
    /\ fe_cause e = Some cause
    /\ timeoutReason cause
    /\ clock s' = clock s + ms
    /\ calls s' = S (calls s).

(** The token the pipeline would create next has not fired. *)
Definition freshTimer (s : Store) : Prop :=
  timerAborted s !! nextTimer s = None.

(** A context that failed with status 503 under a budget of two, and a
    context whose transport call was cancelled by the caller. *)
Definition unavailableContext : FetchContext :=
  {| request := ReqString "http://localhost/503";
     options := with_retry noOptions (Some (RetryNum 2));
     response := Some (mkResponse 503 "Service Unavailable" ∅ JNull JUndefined ""
                                  JUndefined JUndefined None);
     error := None |}.

Definition cancelledContext : FetchContext :=
  {| request := ReqString "http://localhost/ok";
     options := with_retry noOptions (Some (RetryNum 3));
     response := None;
     error := Some {| err_name := "AbortError";
                      err_message := "This operation was aborted";
                      err_code := Some 20 |} |}.

(** The text a JSON-serializable body is sent as: a string is its own
    text, anything else goes through [JSON.stringify], which may raise. *)
Definition serialization (host : Host) (b : JsValue) : Completion (option JsValue) :=
  match b with
  | JStr _ => Normal (Some b)
  | _ =>
      match JSON_stringify host b with
      | Normal v => Normal (optOfValue v)
      | Throws e => Throws e
      end
  end.

(** ** Chains of attempts, specification side *)

(** The hooks of the environment leave the retry count and the method of
    a call alone. *)
Definition hooksKeepBudget (host : Host) : Prop :=
  forall h c c',
    callHook host h c = Normal c' ->
    retry (options c') = retry (options c) /\ method (options c') = method (options c).

(** The retry budget an option object stands for. *)
Definition budgetOf (o : FetchOptions) : Z :=
  match retry o with
  | Some (RetryNum n) => n
  | _ => if isPayloadMethod (method o) then 0 else 1
  end.

(** The budgets of the transport invocations a log records, in order. *)
Definition budgets (l : list Event) : list Z :=
  map (fun ro => budgetOf (snd ro)) (transportInputs l).

(** A list of budgets that starts at [B] and goes down by exactly one
    from each attempt to the next, every attempt that is followed by
    another having had a positive budget. *)
Fixpoint countdown (B : Z) (bs : list Z) : Prop :=
  match bs with
  | [] => True
  | b :: rest =>
      b = B /\ match rest with
               | [] => True
               | _ :: _ => 0 < B /\ countdown (B - 1) rest
               end
  end.

(** From [s] to [s'] the log was continued by attempts whose budgets
    count down from [B]. *)
Definition chain (B : Z) (s s' : Store) : Prop :=
  exists l, log s' = log s ++ l /\ countdown B (budgets l).

(** From [s] to [s'] the log was continued without a transport
    invocation. *)
Definition noTransport (s s' : Store) : Prop :=
  exists l, log s' = log s ++ l /\ transportInputs l = [].

(** What may follow an attempt of budget [B]: no further attempt, or,
    the budget being positive, attempts counting down from [B - 1]. *)
Definition chainTail (B : Z) (s s' : Store) : Prop :=
  exists l, log s' = log s ++ l
            /\ (budgets l = [] \/ (0 < B /\ countdown (B - 1) (budgets l))).

(** ** Runs that never decode, specification side *)

(** Every response the transport gives has a status that carries no
    body. *)
Definition nullBodyTransport (tr : Transport) : Prop :=
  forall n req o lat r,
    tr n req o = Responds lat r -> In (status r) [101; 204; 205; 304].

(** From [s] to [s'] the log was continued without an assignment to any
    decoded-data slot. *)
Definition undecoded (s s' : Store) : Prop :=
  exists l, log s' = log s ++ l /\ forall id, decodedCount id l = 0%nat.

(** The reason the decoding step is skipped for every response a context
    may receive: the transport only gives statuses without a body, or the
    call's method is HEAD and the hooks leave it alone. *)
Definition neverDecoded (host : Host) (g : CreateFetchOptions) (c : FetchContext) : Prop :=
  nullBodyTransport (theFetch host g)
  \/ (hooksKeepBudget host /\ method (options c) = Some "HEAD").

(** * Further properties: specification-side definitions *)

(** No semicolon occurs in the string. *)
Definition noSemicolon (s : string) : bool :=
  Str.forallb (fun c => negb (Ascii.eqb c ";")) s.

(** An environment whose hook 0 leaves the context alone and whose other
    hooks throw. *)
Definition hookError : JsError :=
  {| err_name := "Error"; err_message := "error in hook"; err_code := None |}.

Definition failingHookHost : Host :=
  {| withBase := fun url base => (base ++ url)%string;
     withQuery := fun url _ => url;
     JSON_stringify := fun v => Normal (JStr "<json>");
     destr := fun s => JStr s;
     callParse := fun _ s => Normal (JStr s);
     callHook := fun h c => match h with O => Normal c | S _ => Throws hookError end;
     callDelay := fun _ _ => 0;
     globalFetch := okTransport |}.

(** The value the query merge gives a key: the per-call [query], else the
    per-call [params], else the default [query], else the default
    [params]. *)
Definition firstOf (k : string) (a b c d : option (gmap string JsValue)) : option JsValue :=
  match default ∅ a !! k with
  | Some v => Some v
  | None =>
    match default ∅ b !! k with
    | Some v => Some v
    | None =>
      match default ∅ c !! k with
      | Some v => Some v
      | None => default ∅ d !! k
      end
    end
  end.

(** [JSON.stringify] answers a string, or [undefined] for a value that has
    no JSON text. *)
Definition stringifiesToText (host : Host) : Prop :=
  forall b v, JSON_stringify host b = Normal v -> v = JUndefined \/ exists t, v = JStr t.

(** A POST context with an array body, and the same context once its
    body is prepared. *)
Definition postContext : FetchContext :=
  {| request := ReqString "http://localhost/post";
     options := postOptions (JArray [JNum 42]);
     response := None;
     error := None |}.

Definition preparedPostContext : FetchContext :=
  {| request := ReqString "http://localhost/post";
     options :=
       with_headers (with_body (postOptions (JArray [JNum 42])) (Some (JStr "<json>")))
         (Some (HInstance
                  (defaultHeader (defaultHeader ∅ "content-type" "application/json")
                                 "accept" "application/json")));
     response := None;
     error := None |}.

(** ** Single attempts, specification side *)

(** The hooks of the environment only observe: each hands the context
    back as it received it. *)
Definition hooksTransparent (host : Host) : Prop :=
  forall h c, callHook host h c = Normal c.

(** The call gets as far as the transport: the body preparation
    succeeds, and the cancellation token the transport is handed (the
    caller's, or the one of the timer the pipeline arms) has not been
    aborted and, when this call arms no timer, is not the token of a timer
    that is still running. [c4] is the context the transport is invoked
    with, [timer] the armed timer if there is one. *)
Definition reachesTransport (host : Host) (g : CreateFetchOptions)
    (req : FetchRequest) (opts : option FetchOptions) (s : Store)
    (c4 : FetchContext) (timer : option (nat * Z)) : Prop :=
  exists c3 s4,
    prepareBody host (assembleURL host (upperCaseMethod (buildContext g req opts))) (started s)
      = Returned c3 (started s)
    /\ armTimeout c3 (started s) = Returned (c4, timer) s4
    /\ abortReason s (signal (options c4)) = None
    /\ (timer = None -> deadlineOf s (signal (options c4)) = None).

(** The timer of the token [id] is due at [due]: before that time it is
    armed and the token is not aborted; from that time on the token is
    aborted with the timeout error. *)
Definition timerDue (id : nat) (due : Z) (s : Store) : Prop :=
  (clock s < due -> timers s !! id = Some due /\ timerAborted s !! id = None)
  /\ (due <= clock s -> timerAborted s !! id = Some TimeoutError).

(** The transport settles before the armed timer, if any, fires. *)
Definition inTime (timer : option (nat * Z)) (lat : Z) : Prop :=
  forall id ms, timer = Some (id, ms) -> lat < ms.

(** The value the response is decoded to: what the caller's parser makes
    of the text when one is given; otherwise by the requested response
    type, or failing that by the type detected from the content type. *)
Definition decodedAs (host : Host) (c : FetchContext) (r : FetchResponse) (v : JsValue)
    : Prop :=
  match parseResponse (options c) with
  | Some p => callParse host p (res_text r) = Normal v
  | None =>
    match default (detectResponseType (default "" (Headers.get (res_headers r) "content-type")))
                  (responseType (options c)) with
    | RTjson => v = destr host (res_text r)
    | RTtext => v = JStr (res_text r)
    | RTblob => v = res_blob r
    | RTarrayBuffer => v = res_arrayBuffer r
    | RTstream => v = (if truthy (res_body r) then res_body r else _bodyInit r)
    end
  end.

(** The caller's parser, if one is configured, accepts the text of the
    response. *)
Definition parses (host : Host) (c : FetchContext) (r : FetchResponse) : Prop :=
  forall p, parseResponse (options c) = Some p ->
            exists v, callParse host p (res_text r) = Normal v.

(** The response as the pipeline hands it on: untouched when it has no
    body to decode, with the decoded value in its data slot otherwise. *)
Definition decodedResponse (host : Host) (c : FetchContext) (r r' : FetchResponse) : Prop :=
  (hasBody c r = false -> r' = r)
  /\ (hasBody c r = true -> exists v, r' = set_data r v /\ decodedAs host c r v).

(** The retry handler has a reason to give up on a context that failed
    with the status [code] (500 standing for a transport failure): retry
    is disabled, the budget is used up, or the status is not one of the
    configured retry statuses. *)
Definition givesUp (c : FetchContext) (code : Z) : Prop :=
  retry (options c) = Some RetryFalse
  \/ retries c <= 0
  \/ ~ In code (configuredRetryStatuses c).

(** Sample transports: one that answers 404, one that fails with a
    connection error; the context a plain call on a URL sends. *)
Definition notFoundResponse : FetchResponse :=
  mkResponse 404 "Not Found" ∅ (JObject (Some "ReadableStream") []) JUndefined "missing"
             (JObject (Some "Blob") []) (JObject (Some "ArrayBuffer") []) None.

Definition notFoundTransport : Transport := fun _ _ _ => Responds 5 notFoundResponse.

Definition refusedError : JsError :=
  {| err_name := "TypeError"; err_message := "fetch failed"; err_code := None |}.

Definition refusingTransport : Transport := fun _ _ _ => Fails 3 refusedError.

Definition plainContext (host : Host) (opts : option FetchOptions) : FetchContext :=
  assembleURL host
    (upperCaseMethod (buildContext noGlobalOptions (ReqString "http://localhost/ok") opts)).

(** A transport that refuses the first invocation and never settles the
    next ones; a call with a timeout of 100 milliseconds and one retry;
    the context its first attempt sends, with the token of timer 0. *)
Definition refusingThenSilent : Transport :=
  fun n _ _ => match n with O => Fails 3 refusedError | S _ => NeverSettles end.

Definition timeoutOneRetryOptions : FetchOptions :=
  mkOptions None None None None None None None None (Some 100) (Some (RetryNum 1))
            None None None None None None None None None.

Definition timedContext (host : Host) : FetchContext :=
  with_options (plainContext host (Some timeoutOneRetryOptions))
    (with_signal (options (plainContext host (Some timeoutOneRetryOptions)))
                 (Some (TimerSignal 0))).

(** Options that install the throwing hook 1 as [onRequest]. *)
Definition vetoOptions : FetchOptions :=
  mkOptions None None None None None None None None None None
            None None None None None (Some (HookOne 1%nat)) None None None.

(** From [s] to [s'] the log was continued with at most [n] transport
    invocations. *)
Definition attemptsWithin (n : nat) (s s' : Store) : Prop :=
  exists l, log s' = log s ++ l /\ (length (transportInputs l) <= n)%nat.

(** A transport that answers 503. *)
Definition unavailableResponse : FetchResponse :=
  mkResponse 503 "Service Unavailable" ∅ (JObject (Some "ReadableStream") []) JUndefined
             "busy" (JObject (Some "Blob") []) (JObject (Some "ArrayBuffer") []) None.

Definition unavailableTransport : Transport := fun _ _ _ => Responds 5 unavailableResponse.

(** ** What every attempt sends, specification side *)

(** From [s] to [s'] the log was continued, and every transport
    invocation in the continuation was handed a request and options that
    satisfy [P]. *)
Definition allSent (P : FetchRequest -> FetchOptions -> Prop) (s s' : Store) : Prop :=
  exists l, log s' = log s ++ l
            /\ Forall (fun ro => P (fst ro) (snd ro)) (transportInputs l).

(** The normal form of what the transport is handed: the method in upper
    case and, for a request given as a URL, no [query] and no [params]
    left among the options. *)
Definition normalised (r : FetchRequest) (o : FetchOptions) : Prop :=
  method o = Str.toUpperCase <$> method o
  /\ (forall url, r = ReqString url -> query o = None /\ params o = None).

(** A prebuilt request object, with a base URL and a query among the
    options of the call. *)
Definition echoRequest : RequestObj :=
  {| req_url := "http://localhost/echo"; req_method := "GET"; req_headers := ∅ |}.

Definition baseQueryOptions : FetchOptions :=
  mkOptions (Some "http://localhost/api") None None None (Some {["a" := JNum 1]})
            None None None None None None None None None None None None None None.

(** ** Tokens that are already aborted, specification side *)

(** The retry delay of the call is not computed by a callback. *)
Definition fixedDelay (c : FetchContext) : Prop :=
  forall f, retryDelay (options c) <> Some (DelayFn f).

(** Options that carry a token the caller has aborted with a timeout
    error of its own, a timeout, and a budget of two retries half a
    second apart. *)
Definition abortedTokenOptions : FetchOptions :=
  mkOptions None None None None None None None None (Some 100) (Some (RetryNum 2))
            (Some (DelayNum 500)) None None None (Some (CallerSignal (Some TimeoutError)))
            None None None None.

(** ** Timeouts and retries, specification side *)

(** The transport does not settle within [T] milliseconds. *)
Definition late (T : Z) (out : TransportOutcome) : Prop :=
  match out with
  | NeverSettles => True
  | Responds lat _ | Fails lat _ => T <= lat
  end.

(** A transport that answers after two seconds. *)
Definition slowTransport : Transport := fun _ _ _ => Responds 2000 okResponse.

(** ** Retrying until the transport answers, specification side *)

(** The parsers of the environment accept every text. *)
Definition parsesAll (host : Host) : Prop :=
  forall p text, exists v, callParse host p text = Normal v.

(** A transport that refuses the first two invocations and answers the
    third. *)
Definition recoveringTransport : Transport :=
  fun n _ _ => if Nat.ltb n 2 then Fails 3 refusedError else Responds 5 okResponse.

Definition threeRetriesOptions : FetchOptions :=
  mkOptions None None None None None None None None None (Some (RetryNum 3))
            (Some (DelayNum 50)) None None None None None None None None.

(** ** Proof automation *)

(** Reading a key of an object that is not written out: back to the
    reading function of the key. *)
Ltac refold :=
  repeat first
    [ progress change (read (key_baseURL ?o)) with (baseURL o)
    | progress change (read (key_body ?o)) with (body o)
    | progress change (read (key_ignoreResponseError ?o)) with (ignoreResponseError o)
    | progress change (read (key_params ?o)) with (params o)
    | progress change (read (key_query ?o)) with (query o)
    | progress change (read (key_parseResponse ?o)) with (parseResponse o)
    | progress change (read (key_responseType ?o)) with (responseType o)
    | progress change (read (key_duplex ?o)) with (duplex o)
    | progress change (read (key_timeout ?o)) with (timeout o)
    | progress change (read (key_retry ?o)) with (retry o)
    | progress change (read (key_retryDelay ?o)) with (retryDelay o)
    | progress change (read (key_retryStatusCodes ?o)) with (retryStatusCodes o)
    | progress change (read (key_method ?o)) with (method o)
    | progress change (read (key_headers ?o)) with (headers o)
    | progress change (read (key_signal ?o)) with (signal o)
    | progress change (read (key_onRequest ?o)) with (onRequest o)
    | progress change (read (key_onRequestError ?o)) with (onRequestError o)
    | progress change (read (key_onResponse ?o)) with (onResponse o)
    | progress change (read (key_onResponseError ?o)) with (onResponseError o) ].

Tactic Notation "refold" "in" hyp(H) :=
  repeat first
    [ progress change (read (key_baseURL ?o)) with (baseURL o) in H
    | progress change (read (key_body ?o)) with (body o) in H
    | progress change (read (key_ignoreResponseError ?o)) with (ignoreResponseError o) in H
    | progress change (read (key_params ?o)) with (params o) in H
    | progress change (read (key_query ?o)) with (query o) in H
    | progress change (read (key_parseResponse ?o)) with (parseResponse o) in H
    | progress change (read (key_responseType ?o)) with (responseType o) in H
    | progress change (read (key_duplex ?o)) with (duplex o) in H
    | progress change (read (key_timeout ?o)) with (timeout o) in H
    | progress change (read (key_retry ?o)) with (retry o) in H
    | progress change (read (key_retryDelay ?o)) with (retryDelay o) in H
    | progress change (read (key_retryStatusCodes ?o)) with (retryStatusCodes o) in H
    | progress change (read (key_method ?o)) with (method o) in H
    | progress change (read (key_headers ?o)) with (headers o) in H
    | progress change (read (key_signal ?o)) with (signal o) in H
    | progress change (read (key_onRequest ?o)) with (onRequest o) in H
    | progress change (read (key_onRequestError ?o)) with (onRequestError o) in H
    | progress change (read (key_onResponse ?o)) with (onResponse o) in H
    | progress change (read (key_onResponseError ?o)) with (onResponseError o) in H ].

(** A statement about the log and the contexts of a store is as good
    a statement about the store with a timer cleared. *)
Ltac cleared timer H := destruct timer as [[? ?]|]; exact H.


(** * Properties *)

(** ** Keys of option objects *)

Lemma read_Some {A} (f : Field A) a : read f = Some a -> f = Value a.
Proof. destruct f; intros [=]. now subst. Qed.

Lemma read_given {A} (x : option A) : read (given x) = x.
Proof. destruct x; reflexivity. Qed.

Lemma read_assigned {A} (x : option A) : read (assigned x) = x.
Proof. destruct x; reflexivity. Qed.

Lemma read_orElse {A} (x y : Field A) :
  read (orElse x y) = if present x then read x else read y.
Proof. destruct x; reflexivity. Qed.

Lemma orElse_Value {A} (a : A) y : orElse (Value a) y = Value a.
Proof. reflexivity. Qed.

(** ** Letter case *)

Lemma lower_upper_char c : Str.lower_char (Str.upper_char c) = Str.lower_char c.
Proof. destruct c as [[] [] [] [] [] [] [] []]; reflexivity. Qed.

Lemma upper_lower_char c : Str.upper_char (Str.lower_char c) = Str.upper_char c.
Proof. destruct c as [[] [] [] [] [] [] [] []]; reflexivity. Qed.

Lemma toLowerCase_toUpperCase s :
  Str.toLowerCase (Str.toUpperCase s) = Str.toLowerCase s.
Proof.
  induction s as [|c s IH]; simpl; [reflexivity|].
  unfold Str.toLowerCase, Str.toUpperCase in *. simpl.
  now rewrite lower_upper_char, IH.
Qed.

Lemma toUpperCase_toLowerCase s :
  Str.toUpperCase (Str.toLowerCase s) = Str.toUpperCase s.
Proof.
  induction s as [|c s IH]; simpl; [reflexivity|].
  unfold Str.toLowerCase, Str.toUpperCase in *. simpl.
  now rewrite upper_lower_char, IH.
Qed.

Lemma toUpperCase_idem s : Str.toUpperCase (Str.toUpperCase s) = Str.toUpperCase s.
Proof.
  induction s as [|c s IH]; simpl; [reflexivity|].
  unfold Str.toUpperCase in *. simpl. rewrite IH. f_equal.
  destruct c as [[] [] [] [] [] [] [] []]; reflexivity.
Qed.

(** Comparing the upper-cased method with an upper-case name is comparing
    the two ignoring case. *)
Lemma upper_eqb_ci s p :
  Str.toUpperCase p = p ->
  String.eqb (Str.toUpperCase s) p = String.eqb (Str.toLowerCase s) (Str.toLowerCase p).
Proof.
  intros Hp.
  destruct (String.eqb_spec (Str.toUpperCase s) p) as [E|E];
    destruct (String.eqb_spec (Str.toLowerCase s) (Str.toLowerCase p)) as [F|F];
    try reflexivity; exfalso.
  - apply F. now rewrite <- E, toLowerCase_toUpperCase.
  - apply E. now rewrite <- toUpperCase_toLowerCase, F, toUpperCase_toLowerCase.
Qed.

Lemma isPayloadMethod_payloadBearing m : isPayloadMethod m = payloadBearing m.
Proof.
  destruct m as [s|]; [|reflexivity].
  unfold isPayloadMethod, payloadBearing, set_has, payloadMethods. simpl.
  rewrite !(upper_eqb_ci s) by reflexivity. simpl.
  repeat match goal with |- context [String.eqb ?a ?b] => destruct (String.eqb a b) end;
    reflexivity.
Qed.

(** ** The JSON-serializability classifier *)

(** Away from [null] the classifier returns a boolean, and which one. *)
Lemma isJSONSerializable_off_null v :
  v <> JNull ->
  isJSONSerializable v =
  Normal
    match v with
    | JStr _ | JNum _ | JBool _ | JArray _ => true
    | JObject c props =>
        (negb (truthy (default JUndefined (assoc "buffer" props)))
         && (ctorIsObject v
             || TypeTag_eqb (typeof (default JUndefined (assoc "toJSON" props))) TFunctionTag))%bool
    | _ => false
    end.
Proof.
  intros Hv. destruct v; try reflexivity; try congruence.
  unfold isJSONSerializable. simpl.
  destruct (truthy (default JUndefined (assoc "buffer" props))); reflexivity.
Qed.

(** C10. The classifier raises on [null]: [typeof null] is ["object"], the
    test [t === null] never holds, [null] is not an array, and reading
    [null.buffer] raises a TypeError. The function's own description lists
    [null] among the serializable primitives. *)
Theorem isJSONSerializable_null_raises :
  isJSONSerializable JNull =
  Throws (TypeError "Cannot read properties of null (reading 'buffer')").
Proof. reflexivity. Qed.

(** ** The retry handler *)

Section Handler.

Variable host : Host.

(** C2. Without an explicit numeric retry count the budget is 0 for the
    payload-bearing methods POST, PUT, PATCH and DELETE, in any letter
    case, and 1 for every other method and when no method is given. *)
Theorem retries_default (context : FetchContext) :
  (forall n, retry (options context) <> Some (RetryNum n)) ->
  retries context = (if payloadBearing (method (options context)) then 0 else 1)
  /\ (method (options context) = None -> retries context = 1).
Proof.
  intros Hn. unfold retries.
  destruct (retry (options context)) as [[|n]|] eqn:E;
    try (exfalso; apply (Hn n); reflexivity);
    rewrite isPayloadMethod_payloadBearing;
    (split; [reflexivity | intros ->; reflexivity]).
Qed.

Lemma retries_default_witness :
  retries (mkContext (ReqString "/") noOptions None None) = 1.
Proof.
  apply (retries_default (mkContext (ReqString "/") noOptions None None)).
  - intros n; discriminate.
  - reflexivity.
Defined.

Lemma includes_In l x : includes l x = true <-> In x l.
Proof.
  unfold includes. rewrite existsb_exists. split.
  - intros (y & Hy & E). apply Z.eqb_eq in E. now subst.
  - intros H. exists x. split; [assumption | apply Z.eqb_refl].
Qed.

Lemma responseCode_observed (context : FetchContext) :
  failedAttempt context -> responseCode context = observedStatus context.
Proof.
  unfold failedAttempt, responseCode, observedStatus.
  destruct (response context) as [r|]; [|reflexivity].
  intros H. destruct (Z.eqb_spec (status r) 0); [lia | reflexivity].
Qed.

Lemma retryStatusMatches_In (context : FetchContext) :
  failedAttempt context ->
  retryStatusMatches context = true <->
  In (observedStatus context) (configuredRetryStatuses context).
Proof.
  intros Hf. unfold retryStatusMatches, configuredRetryStatuses.
  rewrite (responseCode_observed _ Hf).
  destruct (retryStatusCodes (options context)); cbn [default]; apply includes_In.
Qed.

(** The fresh context of a re-invocation carries the budget it was
    given: neither the defaults nor the method normalisation touch an
    explicit retry count. *)
Lemma retries_buildContext (g : CreateFetchOptions) r o n :
  retry o = Some (RetryNum n) ->
  retries (upperCaseMethod (buildContext g r (Some o))) = n.
Proof.
  intros E. apply read_Some in E. unfold retries, upperCaseMethod, buildContext.
  destruct (truthyStr _); simpl; rewrite E; reflexivity.
Qed.

(** The decision of the handler on a failed attempt, and what a retry
    re-invokes the pipeline with. *)
Lemma onError_decides (g : CreateFetchOptions) (context : FetchContext) :
  failedAttempt context ->
  retry (options context) <> Some RetryFalse ->
  isAbort context = false ->
  ((exists d r o, onErrorAction host context = RetryWith d r o) <->
   (0 < retries context /\ In (observedStatus context) (configuredRetryStatuses context)))
  /\ (forall d r o, onErrorAction host context = RetryWith d r o ->
        r = request context
        /\ o = with_retry (options context) (Some (RetryNum (retries context - 1)))
        /\ (forall self,
              onError host self context =
              bind (if 0 <? d then sleep d else ret tt) (fun _ => self r (Some o)))
        /\ retries (upperCaseMethod (buildContext g r (Some o))) = retries context - 1
        /\ retries (upperCaseMethod (buildContext g r (Some o))) < retries context).
Proof.
  intros Hf Hr Ha.
  assert (Hnf : retryNotFalse (retry (options context)) = true).
  { destruct (retry (options context)) as [[|n]|]; try reflexivity. now elim Hr. }
  pose proof (retryStatusMatches_In context Hf) as Hm.
  unfold onErrorAction. rewrite Hnf, Ha. simpl.
  destruct (Z.ltb_spec 0 (retries context)) as [Hpos|Hpos];
    destruct (retryStatusMatches context) eqn:Em; simpl.
  - split.
    + split; [intros _; split; [assumption | now apply Hm] | intros _; eauto].
    + intros d r o [= <- <- <-].
      assert (Hb : retries (upperCaseMethod
                     (buildContext g (request context)
                        (Some (with_retry (options context)
                                 (Some (RetryNum (retries context - 1)))))))
                   = retries context - 1)
        by (apply retries_buildContext; reflexivity).
      repeat split; try assumption.
      * intros self. unfold onError, onErrorAction. rewrite Hnf, Ha. simpl.
        destruct (Z.ltb_spec 0 (retries context)); [|lia]. rewrite Em. reflexivity.
      * lia.
  - split; [|intros d r o; discriminate].
    split; [intros (d & r & o & H); discriminate|].
    intros [_ Hin]. apply Hm in Hin. discriminate.
  - split; [|intros d r o; discriminate].
    split; [intros (d & r & o & H); discriminate | intros [H _]; lia].
  - split; [|intros d r o; discriminate].
    split; [intros (d & r & o & H); discriminate | intros [H _]; lia].
Qed.

(** C3. A failure is classified as a non-retriable cancellation exactly
    when the recorded error is an [AbortError] and no timeout is
    configured (the option is absent or zero); that classification skips
    the retry decision; a context whose timer the pipeline armed is never
    classified this way, whatever error it records, and the abort of the
    armed timer is retried under a positive budget. *)
Theorem isAbort_classification (context : FetchContext) :
  (isAbort context = true <->
     (exists e, error context = Some e /\ err_name e = "AbortError")
     /\ (timeout (options context) = None \/ timeout (options context) = Some 0))
  /\ (isAbort context = true ->
      onErrorAction host context = Raise (createFetchError context))
  /\ (forall s armed id ms s' e,
        armTimeout context s = Returned (armed, Some (id, ms)) s' ->
        isAbort (with_error armed e) = false)
  /\ (error context = Some TimeoutError ->
      isAbort context = false
      /\ (response context = None ->
          retryStatusCodes (options context) = None ->
          retry (options context) <> Some RetryFalse ->
          0 < retries context ->
          exists d o, onErrorAction host context = RetryWith d (request context) o)).
Proof.
  repeat split.
  - unfold isAbort in H. destruct (error context) as [e|]; [|discriminate].
    apply andb_prop in H as [H _]. apply String.eqb_eq in H. eauto.
  - unfold isAbort in H. destruct (error context) as [e|]; [|discriminate].
    apply andb_prop in H as [_ H]. apply negb_true_iff in H.
    destruct (timeout (options context)) as [n|]; [right|now left].
    simpl in H. apply negb_false_iff, Z.eqb_eq in H. now subst.
  - intros [(e & He & Hn) Ht]. unfold isAbort. rewrite He, Hn. simpl.
    destruct Ht as [-> | ->]; reflexivity.
  - intros H. unfold onErrorAction. rewrite H, andb_false_r. reflexivity.
  - intros s armed id ms s' e H. unfold armTimeout in H.
    destruct (negb (bool_decide (is_Some (signal (options context))))
              && truthyNum (timeout (options context)))%bool eqn:E;
      [|discriminate].
    apply andb_prop in E as [_ Et].
    injection H as <- _ _ _. unfold isAbort. simpl. refold.
    destruct e; [|reflexivity]. rewrite Et. apply andb_false_r.
  - unfold isAbort. rewrite H. reflexivity.
  - intros Hresp Hcodes Hr Hpos. unfold onErrorAction.
    assert (Hnf : retryNotFalse (retry (options context)) = true).
    { destruct (retry (options context)) as [[|n]|]; try reflexivity. now elim Hr. }
    assert (Ha : isAbort context = false) by (unfold isAbort; now rewrite H).
    rewrite Hnf, Ha. simpl.
    destruct (Z.ltb_spec 0 (retries context)); [|lia].
    unfold retryStatusMatches, responseCode. rewrite Hcodes, Hresp. simpl. eauto.
Qed.

End Handler.

Lemma isAbort_classification_witness :
  isAbort cancelledContext = true
  /\ onErrorAction (sampleHost silentTransport) cancelledContext
     = Raise (createFetchError cancelledContext).
Proof.
  destruct (isAbort_classification (sampleHost silentTransport) cancelledContext)
    as ([_ H] & Hraise & _).
  assert (Ha : isAbort cancelledContext = true).
  { apply H. split; [eexists; split; reflexivity | left; reflexivity]. }
  split; [exact Ha | exact (Hraise Ha)].
Defined.

(** ** The normalized error *)

Lemma str_app_cons x (a b : string) : (String x a ++ b)%string = String x (a ++ b)%string.
Proof. reflexivity. Qed.

Lemma str_app_assoc (a b c : string) : ((a ++ b) ++ c = a ++ (b ++ c))%string.
Proof.
  induction a as [|x a IH]; [reflexivity|].
  now rewrite !str_app_cons, IH.
Qed.

Lemma str_app_empty_r (a : string) : (a ++ "" = a)%string.
Proof.
  induction a as [|x a IH]; [reflexivity|].
  now rewrite str_app_cons, IH.
Qed.

Lemma is_empty_false (s : string) : s <> "" -> Str.is_empty s = false.
Proof. destruct s; [congruence | reflexivity]. Qed.

Lemma escape_char_plain c : plainChar c = true -> Json.escape_char c = String c EmptyString.
Proof.
  unfold plainChar, Json.escape_char. intros H.
  apply andb_prop in H as [H H92]. apply andb_prop in H as [H32 H34].
  apply negb_true_iff in H92, H34. rewrite H34, H92.
  apply Nat.leb_le in H32.
  repeat match goal with
         | |- context [Nat.eqb ?a ?b] =>
             destruct (Nat.eqb_spec a b); [exfalso; lia|]
         end.
  destruct (Nat.ltb_spec (nat_of_ascii c) 32); [exfalso; lia | reflexivity].
Qed.

(** A string of plain characters is its own escape. *)
Lemma escape_plain s : Str.forallb plainChar s = true -> Json.escape s = s.
Proof.
  induction s as [|c s IH]; simpl; [reflexivity|].
  intros H. apply andb_prop in H as [Hc Hs].
  now rewrite (escape_char_plain c Hc), IH.
Qed.

Lemma createFetchError_head (context : FetchContext) :
  exists suffix,
    fe_message (createFetchError context) = (messageHead context ++ suffix)%string
    /\ suffix =
       match error context with
       | Some e =>
           if Str.is_empty (err_message e)
           then (if Str.is_empty (err_name e) then "" else " " ++ err_name e)%string
           else (" " ++ err_message e)%string
       | None => ""
       end.
Proof.
  eexists. split; [|reflexivity].
  unfold createFetchError, messageHead, describedMethod, describedUrl, describedStatus.
  cbn [fe_message].
  assert (Hm : str_or (requestMethod (request context))
                 (str_or (default "" (method (options context))) "GET")
               = match request context with
                 | ReqObject o =>
                     if Str.is_empty (req_method o)
                     then (match method (options context) with
                           | Some m => if Str.is_empty m then "GET" else m
                           | None => "GET"
                           end)
                     else req_method o
                 | ReqString _ =>
                     match method (options context) with
                     | Some m => if Str.is_empty m then "GET" else m
                     | None => "GET"
                     end
                 end).
  { unfold str_or, requestMethod.
    destruct (request context) as [u|o]; cbn [Str.is_empty];
      destruct (method (options context)) as [m|]; reflexivity. }
  assert (Hu : str_or (requestUrl (request context))
                 (str_or (requestToString (request context)) "/")
               = match request context with
                 | ReqObject o =>
                     if Str.is_empty (req_url o) then "[object Request]" else req_url o
                 | ReqString u => if Str.is_empty u then "/" else u
                 end).
  { unfold str_or, requestUrl, requestToString.
    destruct (request context) as [u|o]; reflexivity. }
  rewrite Hm, Hu.
  assert (He : (if Str.is_empty
                     match error context with
                     | Some e => str_or (err_message e) (str_or (error_toString e) "")
                     | None => ""
                     end
                then ""
                else " " ++
                     match error context with
                     | Some e => str_or (err_message e) (str_or (error_toString e) "")
                     | None => ""
                     end)%string
               = match error context with
                 | Some e =>
                     if Str.is_empty (err_message e)
                     then (if Str.is_empty (err_name e) then "" else " " ++ err_name e)%string
                     else (" " ++ err_message e)%string
                 | None => ""
                 end).
  { destruct (error context) as [e|]; [|reflexivity].
    unfold str_or, error_toString.
    destruct (err_message e) as [|c m]; destruct (err_name e) as [|d n]; reflexivity. }
  rewrite He. rewrite !str_app_assoc. reflexivity.
Qed.

(** C9 (as amended). The composed message is the head
    [[METHOD] "url": status statusText] -- the URL shown as a JSON string
    literal -- followed by a space and the cause's message when it has one,
    else by a space and the cause's string form (its name) when that is not
    empty; a POST to a URL [U] of plain characters answered 403 Forbidden
    with no underlying error gives [[POST] "U": 403 Forbidden]. *)
Theorem createFetchError_message (context : FetchContext) :
  let msg := fe_message (createFetchError context) in
  (error context = None -> msg = messageHead context)
  /\ (forall e, error context = Some e -> err_message e <> "" ->
        msg = (messageHead context ++ " " ++ err_message e)%string)
  /\ (forall e, error context = Some e -> err_message e = "" -> err_name e <> "" ->
        msg = (messageHead context ++ " " ++ err_name e)%string)
  /\ (forall e, error context = Some e -> err_message e = "" -> err_name e = "" ->
        msg = messageHead context)
  /\ (forall U r,
        request context = ReqString U -> U <> "" ->
        Str.forallb plainChar U = true ->
        method (options context) = Some "POST" ->
        response context = Some r -> status r = 403 -> statusText r = "Forbidden" ->
        error context = None ->
        msg = ("[POST] " ++ inQuotes U ++ ": 403 Forbidden")%string).
Proof.
  destruct (createFetchError_head context) as (suffix & Hmsg & Hs).
  cbn zeta. rewrite Hmsg, Hs. clear Hmsg Hs suffix.
  repeat split.
  - intros ->. apply str_app_empty_r.
  - intros e -> Hm. now rewrite (is_empty_false _ Hm).
  - intros e -> -> Hn. cbn [Str.is_empty]. now rewrite (is_empty_false _ Hn).
  - intros e -> -> ->. apply str_app_empty_r.
  - intros U r Hreq HU Hplain Hmeth Hresp Hst Htxt ->.
    rewrite str_app_empty_r.
    unfold messageHead, describedMethod, describedUrl, describedStatus.
    rewrite Hreq, Hmeth, Hresp, Hst, Htxt, (is_empty_false _ HU).
    unfold Json.quote, inQuotes. rewrite (escape_plain U Hplain).
    cbn. rewrite !str_app_assoc. reflexivity.
Qed.

Lemma createFetchError_message_witness :
  fe_message
    (createFetchError
       {| request := ReqString "http://localhost:3000/403";
          options := with_method noOptions (Some "POST");
          response := Some (mkResponse 403 "Forbidden" ∅ JNull JUndefined "" JUndefined JUndefined None);
          error := None |})
  = ("[POST] " ++ inQuotes "http://localhost:3000/403" ++ ": 403 Forbidden")%string.
Proof.
  apply (createFetchError_message
           {| request := ReqString "http://localhost:3000/403";
              options := with_method noOptions (Some "POST");
              response := Some (mkResponse 403 "Forbidden" ∅ JNull JUndefined "" JUndefined JUndefined None);
              error := None |})
    with (r := mkResponse 403 "Forbidden" ∅ JNull JUndefined "" JUndefined JUndefined None);
    try reflexivity.
  discriminate.
Defined.

(** C9 (as stated) fails for a cause without a message: the code falls
    back on the cause's string form, so the message ends in [ Error] where
    the claim has nothing after the status part. *)
Lemma createFetchError_message_counterexample :
  fe_message (createFetchError bareErrorContext)
    = (messageHead bareErrorContext ++ " Error")%string
  /\ claimedMessage bareErrorContext = messageHead bareErrorContext
  /\ fe_message (createFetchError bareErrorContext) <> claimedMessage bareErrorContext.
Proof.
  repeat split; try reflexivity. vm_compute. discriminate.
Qed.

(** ** Header merge *)

Lemma toLowerCase_idem s : Str.toLowerCase (Str.toLowerCase s) = Str.toLowerCase s.
Proof.
  induction s as [|c s IH]; [reflexivity|].
  unfold Str.toLowerCase in *. simpl. rewrite IH. f_equal.
  destruct c as [[] [] [] [] [] [] [] []]; reflexivity.
Qed.

(** A sequence of [set] calls is an overlay: later pairs win. *)
Lemma setAll_union (l : list (string * string)) (h : Headers.t) :
  Headers.setAll l h = list_to_map (rev (lowerKeys l)) ∪ h.
Proof.
  unfold Headers.setAll, Headers.set.
  rewrite <- (foldr_insert_union h (rev (lowerKeys l))).
  rewrite fold_left_rev_right. unfold lowerKeys.
  revert h. induction l as [|[k v] l IH]; intros h; [reflexivity|].
  simpl. apply IH.
Qed.

Lemma list_to_map_rev (l : list (string * string)) :
  NoDup (l.*1) -> (list_to_map (rev l) : Headers.t) = list_to_map l.
Proof.
  intros Hnd. symmetry. apply list_to_map_proper; [assumption | apply Permutation_rev].
Qed.

Lemma lowerKeys_entries (h : Headers.t) :
  lowerCased h -> lowerKeys (Headers.entries h) = Headers.entries h.
Proof.
  intros Hwf. unfold lowerKeys, Headers.entries.
  rewrite <- (map_id (map_to_list h)) at 2.
  apply map_ext_in. intros [k v] Hin. simpl. f_equal.
  apply (Hwf k v). apply elem_of_map_to_list. now apply list_elem_of_In.
Qed.

(** Iterating over an instance and setting each entry overlays it. *)
Lemma setAll_entries (h base : Headers.t) :
  lowerCased h -> Headers.setAll (Headers.entries h) base = h ∪ base.
Proof.
  intros Hwf. rewrite setAll_union, (lowerKeys_entries h Hwf).
  unfold Headers.entries. rewrite list_to_map_rev by apply NoDup_fst_map_to_list.
  now rewrite list_to_map_to_list.
Qed.

Lemma lowerCased_insert (h : Headers.t) k v :
  lowerCased h -> lowerCased (<[Str.toLowerCase k := v]> h).
Proof.
  intros Hwf k' v' H. destruct (decide (Str.toLowerCase k = k')) as [<-|Hne].
  - apply toLowerCase_idem.
  - rewrite lookup_insert_ne in H by assumption. eapply Hwf, H.
Qed.

Lemma lowerCased_appendAll l (h : Headers.t) :
  lowerCased h -> lowerCased (Headers.appendAll l h).
Proof.
  revert h. induction l as [|[k v] l IH]; intros h Hwf; [exact Hwf|].
  simpl. apply IH. unfold Headers.append. simpl.
  destruct (h !! Str.toLowerCase k); now apply lowerCased_insert.
Qed.

Lemma lowerCased_empty : lowerCased Headers.empty.
Proof. intros k v H. unfold Headers.empty in H. rewrite lookup_empty in H. discriminate. Qed.

Lemma lowerCased_new_Headers i : wellFormedInit i -> lowerCased (new_Headers i).
Proof.
  destruct i as [[h|l|l]|]; simpl; intros Hwf; try assumption;
    try (apply lowerCased_appendAll); apply lowerCased_empty.
Qed.

(** Without repeated names, appending is setting. *)
Lemma appendAll_setAll l (h : Headers.t) :
  NoDup (map (fun kv => Str.toLowerCase (fst kv)) l) ->
  (forall kv, In kv l -> h !! Str.toLowerCase (fst kv) = None) ->
  Headers.appendAll l h = Headers.setAll l h.
Proof.
  revert h. induction l as [|[k v] l IH]; intros h Hnd Hfresh; [reflexivity|].
  simpl in *. inversion Hnd as [|? ? Hk Hnd']; subst.
  assert (E : Headers.append h k v = Headers.set h k v).
  { unfold Headers.append, Headers.set.
    pose proof (Hfresh (k, v) (or_introl eq_refl)) as Hk0. simpl in Hk0.
    now rewrite Hk0. }
  rewrite E. apply IH; [assumption|].
  intros [k' v'] Hin. unfold Headers.set. simpl.
  rewrite lookup_insert_ne.
  - apply (Hfresh (k', v')). now right.
  - intros Heq. apply Hk. rewrite Heq. apply list_elem_of_In.
    apply (in_map (fun kv => Str.toLowerCase (fst kv)) l (k', v') Hin).
Qed.

(** The merge of a call-level layer over the defaults is the left-biased
    union of the two containers. *)
Lemma mergeHeaders_union (i d : option HeadersInit) :
  wellFormedInit i -> distinctNames i ->
  mergeHeaders i d = new_Headers i ∪ new_Headers d.
Proof.
  intros Hwf Hnd. unfold mergeHeaders.
  destruct d as [d|].
  2:{ change (new_Headers None) with (∅ : gmap string string).
      now rewrite (right_id_L ∅ (∪)). }
  destruct i as [[h|l|l]|].
  - simpl isIterable. cbn iota. simpl iterate. now apply setAll_entries.
  - simpl isIterable. cbn iota. apply setAll_entries.
    apply (lowerCased_new_Headers (Some (HRecord l))). exact I.
  - simpl isIterable. cbn iota. simpl iterate.
    change (new_Headers (Some (HPairs l))) with (Headers.appendAll l Headers.empty).
    rewrite (appendAll_setAll l Headers.empty Hnd)
      by (intros; apply lookup_empty).
    rewrite (setAll_union l Headers.empty), (setAll_union l).
    unfold Headers.empty. now rewrite (right_id_L ∅ (∪)).
  - change (new_Headers None) with (∅ : gmap string string).
    now rewrite (left_id_L ∅ (∪)).
Qed.

Lemma resolveFetchOptions_headers request input defaults :
  headers (resolveFetchOptions request input defaults)
  = Some (HInstance (mergeHeaders (callLayer request input) (defaults ≫= headers))).
Proof.
  unfold resolveFetchOptions, callLayer, nullish. simpl.
  destruct (input ≫= headers); reflexivity.
Qed.

(** C5 (as amended). The resolved header container is the field-wise
    merge of two layers, the call-level one winning per field name: the
    per-call headers when they are supplied, otherwise the descriptor's own
    headers, over the defaults. Descriptor-carried headers are not consulted
    when per-call headers are supplied. *)
Theorem resolveFetchOptions_header_merge request input defaults :
  wellFormedInit (callLayer request input) ->
  distinctNames (callLayer request input) ->
  headers (resolveFetchOptions request input defaults)
  = Some (HInstance (new_Headers (callLayer request input)
                     ∪ new_Headers (defaults ≫= headers)))
  /\ (forall h, input ≫= headers = Some h -> callLayer request input = Some h)
  /\ (input ≫= headers = None -> callLayer request input = requestHeaders request).
Proof.
  intros Hwf Hnd. rewrite resolveFetchOptions_headers, (mergeHeaders_union _ _ Hwf Hnd).
  unfold callLayer.
  repeat split.
  - intros h ->. reflexivity.
  - intros ->. reflexivity.
Qed.

Lemma resolveFetchOptions_header_merge_witness :
  headers (resolveFetchOptions fooRequest None
             (Some (with_headers noOptions (Some (HRecord [("X-Default", "d")])))))
  = Some (HInstance ({["foo" := "1"]} ∪ new_Headers (Some (HRecord [("X-Default", "d")])))).
Proof.
  apply (resolveFetchOptions_header_merge fooRequest None
           (Some (with_headers noOptions (Some (HRecord [("X-Default", "d")]))))).
  - intros k v H. simpl in H.
    destruct (decide (k = "foo")) as [->|Hne]; [reflexivity|].
    rewrite lookup_singleton_ne in H by congruence. discriminate.
  - exact I.
Defined.

(** C5 (as stated) fails: with per-call headers supplied, a field set only
    on the descriptor is absent from the resolved container, where the
    three-layer merge keeps it. *)
Lemma resolveFetchOptions_header_merge_counterexample :
  exists h,
    headers (resolveFetchOptions fooRequest (Some barOptions) None) = Some (HInstance h)
    /\ h !! "foo" = None
    /\ h !! "bar" = Some "3"
    /\ threeLayerMerge fooRequest (Some barOptions) None !! "foo" = Some "1"
    /\ h <> threeLayerMerge fooRequest (Some barOptions) None.
Proof.
  set (h := mergeHeaders (nullish (Some barOptions ≫= headers) (requestHeaders fooRequest))
              (None ≫= headers)).
  exists h. split; [reflexivity|].
  assert (H1 : h !! "foo" = None) by (vm_compute; reflexivity).
  assert (H2 : threeLayerMerge fooRequest (Some barOptions) None !! "foo" = Some "1")
    by (vm_compute; reflexivity).
  split; [exact H1|]. split; [vm_compute; reflexivity|]. split; [exact H2|].
  intros E. rewrite E in H1. rewrite H1 in H2. discriminate.
Qed.

(** ** Derived instances *)

(** A key of [{ ...existing, ...custom, ...new }]. *)
Lemma orElse_overridden {A} (new custom existing : Field A) :
  orElse new (orElse custom existing) = overridden new custom existing.
Proof. destruct new, custom; reflexivity. Qed.

(** The query of the resolved options. *)
Lemma resolved_query request input defaults :
  params (resolveFetchOptions request input defaults)
  = query (resolveFetchOptions request input defaults)
  /\ (query (resolveFetchOptions request input defaults) = None <->
      input ≫= query = None /\ input ≫= params = None
      /\ defaults ≫= query = None /\ defaults ≫= params = None)
  /\ (forall q k,
        query (resolveFetchOptions request input defaults) = Some q ->
        q !! k = firstOf k (input ≫= query) (input ≫= params)
                         (defaults ≫= query) (defaults ≫= params)).
Proof.
  unfold resolveFetchOptions. simpl. rewrite read_assigned.
  split; [reflexivity|]. split.
  - destruct (input ≫= query), (input ≫= params), (defaults ≫= query), (defaults ≫= params);
      cbn; split; try discriminate; try tauto; intros (? & ? & ? & ?); discriminate.
  - intros q k H.
    assert (E : q = spreadRec
                      (Some (spreadRec
                               (Some (spreadRec (defaults ≫= params) (defaults ≫= query)))
                               (input ≫= params)))
                      (input ≫= query)).
    { destruct (_ || _)%bool; [now injection H as <- | discriminate]. }
    rewrite E. unfold spreadRec, firstOf.
    set (A := default ∅ (input ≫= query)). set (B := default ∅ (input ≫= params)).
    set (C := default ∅ (defaults ≫= query)). set (D := default ∅ (defaults ≫= params)).
    cbn [from_option]. unfold id. rewrite !lookup_union.
    destruct (A !! k), (B !! k), (C !! k), (D !! k); reflexivity.
Qed.

(** C6 (as amended). [create] builds the defaults of the derived instance
    by simple override of every key, [headers] and [query] included: a key
    the new options have, be it with the value [undefined], replaces whole
    what the defaults of the custom global options and the existing
    defaults hold for it; failing that a key of the custom global options'
    defaults does; otherwise the existing default is kept. So new headers
    or a new query are the derived instance's default headers or query as
    they are. Headers and query are merged field by field only later, at
    each call, between those defaults and the call: the resolved headers
    are the union of the call-level headers (the per-call headers when
    supplied, else the request object's; names not repeated) over the
    default headers, and each parameter of the resolved query comes from
    the per-call query, else the per-call params, else the default query,
    else the default params (there is no resolved query exactly when none
    of the four is given). *)
Theorem create_overrides (g custom : CreateFetchOptions) (new : FetchOptions) :
  defaults (create g new custom)
  = Some (overriddenDefaults new (spreadOpt (defaults custom)) (spreadOpt (defaults g)))
  /\ (present (key_headers new) = true ->
      defaults (create g new custom) ≫= headers = headers new)
  /\ (present (key_query new) = true ->
      defaults (create g new custom) ≫= query = query new)
  /\ (forall request input,
        wellFormedInit (callLayer request input) ->
        distinctNames (callLayer request input) ->
        headers (resolveFetchOptions request input (defaults (create g new custom)))
        = Some (HInstance (new_Headers (callLayer request input)
                           ∪ new_Headers (defaults (create g new custom) ≫= headers))))
  /\ (forall request input q k,
        query (resolveFetchOptions request input (defaults (create g new custom))) = Some q ->
        q !! k = firstOf k (input ≫= query) (input ≫= params)
                   (defaults (create g new custom) ≫= query)
                   (defaults (create g new custom) ≫= params))
  /\ (forall request input,
        query (resolveFetchOptions request input (defaults (create g new custom))) = None <->
        input ≫= query = None /\ input ≫= params = None
        /\ defaults (create g new custom) ≫= query = None
        /\ defaults (create g new custom) ≫= params = None).
Proof.
  split; [|split; [|split; [|split; [|split]]]].
  - unfold create. cbn [defaults]. f_equal.
    set (c := spreadOpt (defaults custom)). set (e := spreadOpt (defaults g)).
    unfold spread, overriddenDefaults. cbn [key_baseURL key_body key_ignoreResponseError
      key_params key_query key_parseResponse key_responseType key_duplex key_timeout
      key_retry key_retryDelay key_retryStatusCodes key_method key_headers key_signal
      key_onRequest key_onRequestError key_onResponse key_onResponseError].
    f_equal; apply orElse_overridden.
  - intros Hp. unfold create. cbn [defaults]. simpl.
    unfold headers. destruct (key_headers new); [discriminate | reflexivity | reflexivity].
  - intros Hp. unfold create. cbn [defaults]. simpl.
    unfold query. destruct (key_query new); [discriminate | reflexivity | reflexivity].
  - intros request input Hwf Hnd.
    rewrite resolveFetchOptions_headers. now rewrite mergeHeaders_union.
  - intros request input q k. apply resolved_query.
  - intros request input. apply resolved_query.
Qed.

Lemma create_overrides_witness :
  defaults (create baseInstance derivedOptions noGlobalOptions) ≫= headers
  = headers derivedOptions.
Proof.
  refine (proj1 (proj2 (create_overrides baseInstance noGlobalOptions derivedOptions)) _).
  vm_compute; reflexivity.
Defined.

(** C6 (as stated) fails: a derived instance that brings its own headers
    and query loses the header field and the query parameter of the
    instance it derives from, where a field-wise merge keeps them. *)
Lemma create_overrides_counterexample :
  exists d,
    defaults (create baseInstance derivedOptions noGlobalOptions) = Some d
    /\ headers d = Some (HRecord [("x-header-b", "2")])
    /\ new_Headers (headers d) !! "x-header-a" = None
    /\ deepMergedHeaders (defaults baseInstance) (Some derivedOptions) !! "x-header-a" = Some "0"
    /\ default ∅ (query d) !! "a" = None
    /\ deepMergedQuery (defaults baseInstance) (Some derivedOptions) !! "a" = Some (JNum 0)
    /\ new_Headers (headers d) <> deepMergedHeaders (defaults baseInstance) (Some derivedOptions).
Proof.
  eexists. split; [reflexivity|].
  split; [reflexivity|].
  split; [vm_compute; reflexivity|].
  split; [vm_compute; reflexivity|].
  split; [vm_compute; reflexivity|].
  split; [vm_compute; reflexivity|].
  intros E.
  assert (H : new_Headers (Some (HRecord [("x-header-b", "2")])) !! "x-header-a" = None)
    by (vm_compute; reflexivity).
  cbn in E. cbn in H. rewrite E in H. vm_compute in H. discriminate.
Qed.

(** A key given with the value [undefined] overrides as well: derived
    with [headers: undefined], the instance loses its default headers. *)
Lemma create_undefined_key :
  defaults baseInstance ≫= headers = Some (HRecord [("x-header-a", "0")])
  /\ defaults (create baseInstance undefinedHeadersOptions noGlobalOptions) ≫= headers = None.
Proof. split; reflexivity. Qed.

(** ** Rules for runs *)

Lemma ends_ret {A} (a : A) s (Q : A -> Store -> Prop) R : Q a s -> ends (ret a) s Q R.
Proof. intros H. exact H. Qed.

Lemma ends_throw {A} e s (Q : A -> Store -> Prop) (R : Store -> Prop) :
  R s -> ends (throw e) s Q R.
Proof. intros H. exact H. Qed.

Lemma ends_bind {A B} (m : M A) (k : A -> M B) s Q R :
  ends m s (fun a s' => ends (k a) s' Q R) R -> ends (bind m k) s Q R.
Proof.
  unfold ends, bind. destruct (m s) as [a s'|e s'|s'|s']; intros H; exact H.
Qed.

Lemma ends_mono {A} (m : M A) s (Q Q' : A -> Store -> Prop) (R R' : Store -> Prop) :
  ends m s Q R ->
  (forall a s', Q a s' -> Q' a s') -> (forall s', R s' -> R' s') ->
  ends m s Q' R'.
Proof.
  unfold ends. destruct (m s) as [a s'|e s'|s'|s']; intros H HQ HR; auto.
Qed.

Lemma ends_liftC {A} (c : Completion A) s (Q : A -> Store -> Prop) (R : Store -> Prop) :
  (forall a, c = Normal a -> Q a s) -> R s -> ends (liftC c) s Q R.
Proof. intros HQ HR. destruct c as [a|e]; [apply HQ; reflexivity | exact HR]. Qed.


Lemma pure_ret {A} (a : A) : pure_run (ret a).
Proof. intros s. reflexivity. Qed.

Lemma pure_throw {A} e : pure_run (@throw A e).
Proof. intros s. reflexivity. Qed.

Lemma pure_liftC {A} (c : Completion A) : pure_run (liftC c).
Proof. destruct c; [apply pure_ret | apply pure_throw]. Qed.

Lemma pure_bind {A B} (m : M A) (k : A -> M B) :
  pure_run m -> (forall a, pure_run (k a)) -> pure_run (bind m k).
Proof.
  intros Hm Hk s. unfold bind. specialize (Hm s).
  destruct (m s) as [a s'|e s'|s'|s']; try contradiction; subst; [apply Hk | reflexivity].
Qed.

Lemma ends_pure {A} (m : M A) s (Q : A -> Store -> Prop) (R : Store -> Prop) :
  pure_run m -> (forall a, m s = Returned a s -> Q a s) -> R s -> ends m s Q R.
Proof.
  intros Hm HQ HR. unfold ends. specialize (Hm s).
  destruct (m s) as [a s'|e s'|s'|s']; try contradiction; subst; auto.
Qed.

Lemma decodedCount_app id l1 l2 :
  decodedCount id (l1 ++ l2) = (decodedCount id l1 + decodedCount id l2)%nat.
Proof.
  induction l1 as [|e l1 IH]; [reflexivity|].
  destruct e; simpl; rewrite IH; lia.
Qed.

Lemma silent_refl s : silent s s.
Proof. split; [reflexivity|]. exists []. split; [now rewrite app_nil_r | reflexivity]. Qed.

Lemma silent_trans s1 s2 s3 : silent s1 s2 -> silent s2 s3 -> silent s1 s3.
Proof.
  intros [Hc1 (l1 & Hl1 & Hd1)] [Hc2 (l2 & Hl2 & Hd2)]. split; [congruence|].
  exists (l1 ++ l2). split.
  - now rewrite Hl2, Hl1, app_assoc.
  - intros id. now rewrite decodedCount_app, Hd1, Hd2.
Qed.

Lemma silent_grows s s' : silent s s' -> grows s s'.
Proof. intros [_ (l & Hl & _)]. now exists l. Qed.

Lemma grows_refl s : grows s s.
Proof. exists []. now rewrite app_nil_r. Qed.

Lemma grows_trans s1 s2 s3 : grows s1 s2 -> grows s2 s3 -> grows s1 s3.
Proof.
  intros [l1 H1] [l2 H2]. exists (l1 ++ l2). now rewrite H2, H1, app_assoc.
Qed.

Lemma silent_decodedCount s s' id :
  silent s s' -> decodedCount id (log s') = decodedCount id (log s).
Proof.
  intros [_ (l & Hl & Hd)]. rewrite Hl, decodedCount_app, Hd. lia.
Qed.

Lemma silent_decodedOnce s s' : silent s s' -> decodedOnce s -> decodedOnce s'.
Proof.
  intros Hs Hinv id. rewrite (silent_decodedCount s s' id Hs).
  destruct Hs as [Hc _]. rewrite Hc. apply Hinv.
Qed.

(** ** The stages and the store *)

Section Stages.

Variable host : Host.
Variable g : CreateFetchOptions.

Lemma pure_runHooks hs c : pure_run (runHooks host hs c).
Proof.
  revert c. induction hs as [|h hs IH]; intros c; [apply pure_ret|].
  simpl. apply pure_bind; [apply pure_liftC | intros c'; apply IH].
Qed.

Lemma pure_callHooks c hooks : pure_run (callHooks host c hooks).
Proof.
  destruct hooks as [[h|hs]|]; simpl;
    [apply pure_liftC | apply pure_runHooks | apply pure_ret].
Qed.

Lemma pure_prepareBody c : pure_run (prepareBody host c).
Proof.
  unfold prepareBody. destruct (body (options c)) as [b|]; [|apply pure_ret].
  destruct (truthy b && isPayloadMethod (method (options c)))%bool; [|apply pure_ret].
  apply pure_bind; [apply pure_liftC|]. intros [|].
  - apply pure_bind; [|intros; apply pure_ret].
    destruct b; try apply pure_ret;
      (apply pure_bind; [apply pure_liftC | intros; apply pure_ret]).
  - apply pure_bind; [apply pure_liftC|]. intros [|]; [|apply pure_ret].
    destruct (present _); apply pure_ret.
Qed.

Lemma pure_theResponse c : pure_run (theResponse c).
Proof. unfold theResponse. destruct (response c); [apply pure_ret | apply pure_throw]. Qed.

Lemma silent_armTimeout c s :
  ends (armTimeout c) s (fun _ s' => silent s s') (silent s).
Proof.
  unfold ends, armTimeout.
  destruct (negb _ && _)%bool; simpl; [|apply silent_refl].
  split; [reflexivity|]. exists []. simpl. split; [now rewrite app_nil_r | reflexivity].
Qed.

Lemma silent_awaitFetch ctxId c s :
  ends (awaitFetch host g ctxId c) s (fun _ s' => silent s s') (silent s).
Proof.
  assert (Hs : forall s1, contexts s1 = contexts s ->
               log s1 = log s ++ [EvTransport ctxId (request c) (options c)] ->
               silent s s1).
  { intros s1 Hc Hl. split; [exact Hc|]. eexists. split; [exact Hl | reflexivity]. }
  unfold ends, awaitFetch.
  destruct (abortReason _ _); [apply Hs; reflexivity|].
  destruct (theFetch host g _ _ _) as [lat r|lat e|]; unfold settle, fireTimer;
    destruct (deadlineOf _ _); try (destruct (_ <? _)); apply Hs; reflexivity.
Qed.

(** Clearing a timer leaves the contexts and the log as they are. *)
Lemma silent_clearTimeout timer s : silent s (clearTimeout timer s).
Proof. destruct timer as [[id ms]|]; exact (silent_refl s). Qed.

Lemma ends_finally {A} (m : M A) cleanup s (Q : A -> Store -> Prop) (R : Store -> Prop) :
  ends m s (fun a s' => Q a (cleanup s')) (fun s' => R s' /\ R (cleanup s')) ->
  ends (finally m cleanup) s Q R.
Proof.
  unfold ends, finally. destruct (m s) as [a s'|e s'|s'|s']; intros H;
    try exact H; apply H.
Qed.

Lemma silent_sleep ms s : ends (sleep ms) s (fun _ s' => silent s s') (silent s).
Proof.
  unfold ends, sleep, modify. split; [reflexivity|].
  exists [EvDelay ms]. split; reflexivity.
Qed.

End Stages.

(** ** The log of a run *)

Lemma silent_evolves s s' : silent s s' -> evolves s s'.
Proof.
  intros [Hc (l & Hl & Hd)]. split; [lia|]. exists l. split; [exact Hl|].
  intros id. rewrite Hd. lia.
Qed.

Lemma evolves_refl s : evolves s s.
Proof. apply silent_evolves, silent_refl. Qed.

Lemma evolves_trans s1 s2 s3 : evolves s1 s2 -> evolves s2 s3 -> evolves s1 s3.
Proof.
  intros [Hc1 (l1 & Hl1 & Hd1)] [Hc2 (l2 & Hl2 & Hd2)]. split; [lia|].
  exists (l1 ++ l2). split; [now rewrite Hl2, Hl1, app_assoc|].
  intros id. rewrite decodedCount_app. specialize (Hd1 id). specialize (Hd2 id).
  destruct (Nat.leb_spec (contexts s1) id); destruct (Nat.ltb_spec id (contexts s2));
    destruct (Nat.leb_spec (contexts s2) id); destruct (Nat.ltb_spec id (contexts s3));
    simpl in *; lia.
Qed.

Lemma allocated_silent s s1 s2 : allocated s s1 -> silent s1 s2 -> allocated s s2.
Proof.
  intros [Hc1 (l1 & Hl1 & Hd1)] [Hc2 (l2 & Hl2 & Hd2)]. split; [congruence|].
  exists (l1 ++ l2). split; [now rewrite Hl2, Hl1, app_assoc|].
  intros id. now rewrite decodedCount_app, Hd1, Hd2.
Qed.

Lemma allocated_evolves s s' : allocated s s' -> evolves s s'.
Proof.
  intros [Hc (l & Hl & Hd)]. split; [lia|]. exists l. split; [exact Hl|].
  intros id. rewrite Hd. lia.
Qed.

Lemma allocated_decodes s s1 s2 :
  allocated s s1 -> decodes (contexts s) s1 s2 -> evolves s s2.
Proof.
  intros [Hc1 (l1 & Hl1 & Hd1)] [Hc2 (l2 & Hl2 & Hd2)]. split; [lia|].
  exists (l1 ++ l2). split; [now rewrite Hl2, Hl1, app_assoc|].
  intros id. rewrite decodedCount_app, Hd1. specialize (Hd2 id).
  destruct (Nat.eqb_spec id (contexts s)); destruct (Nat.leb_spec (contexts s) id);
    destruct (Nat.ltb_spec id (contexts s2)); simpl in *; lia.
Qed.

Lemma ends_cleared {A} (m : M A) timer s (Q : A -> Store -> Prop) (R : Store -> Prop) :
  (forall a s', Q a s' -> Q a (clearTimeout timer s')) ->
  (forall s', R s' -> R (clearTimeout timer s')) ->
  ends m s Q R -> ends (finally m (clearTimeout timer)) s Q R.
Proof.
  intros HQ HR H. apply ends_finally. eapply ends_mono; [exact H | |]; cbv beta; auto.
Qed.

Lemma evolves_silent s1 s2 s3 : evolves s1 s2 -> silent s2 s3 -> evolves s1 s3.
Proof. intros H1 H2. eapply evolves_trans; [exact H1 | now apply silent_evolves]. Qed.

Lemma grows_silent s1 s2 s3 : grows s1 s2 -> silent s2 s3 -> grows s1 s3.
Proof. intros H1 H2. eapply grows_trans; [exact H1 | now apply silent_grows]. Qed.

Lemma evolves_grows s s' : evolves s s' -> grows s s'.
Proof. intros [_ (l & Hl & _)]. now exists l. Qed.

Lemma evolves_decodedOnce s s' : evolves s s' -> decodedOnce s -> decodedOnce s'.
Proof.
  intros [Hc (l & Hl & Hd)] Hinv id. rewrite Hl, decodedCount_app.
  specialize (Hd id). destruct (Hinv id) as [H1 H0].
  destruct (Nat.leb_spec (contexts s) id); destruct (Nat.ltb_spec id (contexts s'));
    simpl in *; split; try intros; try rewrite H0 by lia; lia.
Qed.

Section Runs.

Variable host : Host.
Variable g : CreateFetchOptions.

Lemma decodes_decodeResponse ctxId c r s :
  ends (decodeResponse host ctxId c r) s (fun _ s' => decodes ctxId s s') (fun s' => s' = s).
Proof.
  assert (Hrefl : decodes ctxId s s).
  { split; [reflexivity|]. exists []. split; [now rewrite app_nil_r|].
    intros id. simpl. lia. }
  unfold decodeResponse. destruct (hasBody c r); [|exact Hrefl].
  apply ends_bind.
  assert (Hrec : forall v, ends
            (bind (modify (record (EvDecoded ctxId v)))
                  (fun _ => ret (with_response c (Some (set_data r v)))))
            s (fun _ s' => decodes ctxId s s') (fun s' => s' = s)).
  { intros v. unfold ends, bind, modify, ret. simpl. split; [reflexivity|].
    exists [EvDecoded ctxId v]. split; [reflexivity|].
    intros id. simpl. destruct (Nat.eqb id ctxId); simpl; lia. }
  destruct (responseTypeOf c r); try (apply ends_ret, Hrec).
  destruct (parseResponse (options c)) as [p|]; [|apply ends_ret, Hrec].
  apply ends_liftC; [intros v _; apply Hrec | reflexivity].
Qed.

(** The retry handler continues the log as the pipeline it re-enters
    does. *)
Lemma evolves_onError self c s :
  (forall r o s', ends (self r o) s' (fun _ s'' => evolves s' s'') (evolves s')) ->
  ends (onError host self c) s (fun _ s' => evolves s s') (evolves s).
Proof.
  intros Hself. unfold onError.
  destruct (onErrorAction host c) as [d r o|e]; [|apply ends_throw, evolves_refl].
  apply ends_bind.
  assert (Hk : forall s1, evolves s s1 ->
            ends (self r (Some o)) s1 (fun _ s' => evolves s s') (evolves s)).
  { intros s1 H1. eapply ends_mono; [apply Hself | |];
      intros; eapply evolves_trans; eassumption. }
  destruct (0 <? d).
  - eapply ends_mono; [apply silent_sleep | |].
    + intros u s1 H1. apply Hk, silent_evolves, H1.
    + intros s1 H1. apply silent_evolves, H1.
  - apply ends_ret, Hk, evolves_refl.
Qed.

(** After the transport call, the context [contexts s] is decoded at
    most once and the retry handler takes over. *)
Lemma evolves_afterTransport self timer c settled s s3 :
  (forall r o s', ends (self r o) s' (fun _ s'' => evolves s' s'') (evolves s')) ->
  allocated s s3 ->
  ends (afterTransport host self (contexts s) timer c settled) s3
       (fun _ s' => evolves s s') (evolves s).
Proof.
  intros Hself H13.
  assert (Hon : forall c s4, evolves s s4 ->
            ends (onError host self c) s4 (fun _ s' => evolves s s') (evolves s)).
  { intros c' s4 H4. eapply ends_mono; [apply evolves_onError, Hself | |];
      intros; eapply evolves_trans; eassumption. }
  unfold afterTransport. destruct settled as [r|e].
  - apply ends_bind. unfold ends at 1, modify.
    pose proof (allocated_silent _ _ _ H13 (silent_clearTimeout timer s3)) as H13'.
    clear H13. revert H13'. generalize (clearTimeout timer s3). clear s3.
    intros s3 H13.
    apply ends_bind. eapply ends_mono; [apply decodes_decodeResponse | |];
      [|intros s4 ->; now apply allocated_evolves].
    intros c5 s4 H4. pose proof (allocated_decodes _ _ _ H13 H4) as H14. clear H13 H4 s3.
    apply ends_bind, ends_pure; [apply pure_callHooks | intros c6 _ | exact H14].
    destruct (default false (ignoreResponseError (options c6))); [exact H14|].
    apply ends_bind, ends_pure; [apply pure_theResponse | intros r' _ | exact H14].
    destruct (isErrorStatus r'); [|exact H14].
    apply ends_bind, ends_pure; [apply pure_callHooks | intros c7 _ | exact H14].
    now apply Hon.
  - apply ends_finally.
    assert (Hc : forall s', evolves s s' -> evolves s (clearTimeout timer s')).
    { intros s' H'. eapply evolves_silent; [exact H' | apply silent_clearTimeout]. }
    apply ends_bind, ends_pure;
      [apply pure_callHooks | intros c5 _
       | split; [|apply Hc]; now apply allocated_evolves].
    eapply ends_mono; [apply Hon; now apply allocated_evolves | |]; cbv beta; auto.
Qed.

(** Every run of the pipeline continues the log, and decodes only the
    contexts it builds, each at most once. *)
Lemma evolves_fetchRaw fuel req opts s :
  ends (fetchRaw host g fuel req opts) s (fun _ s' => evolves s s') (evolves s).
Proof.
  revert req opts s. induction fuel as [|fuel IH]; intros req opts s;
    [apply evolves_refl|].
  unfold fetchRaw; fold (fetchRaw host g).
  apply ends_bind. unfold ends at 1, newContextId.
  set (s1 := mkStore _ _ _ _ _ _ _).
  assert (H1 : allocated s s1).
  { split; [reflexivity|]. exists []. split; [now rewrite app_nil_r | reflexivity]. }
  clearbody s1.
  apply ends_bind, ends_pure;
    [apply pure_callHooks | intros c2 _ | now apply allocated_evolves].
  apply ends_bind, ends_pure;
    [apply pure_prepareBody | intros c3 _ | now apply allocated_evolves].
  apply ends_bind. eapply ends_mono; [apply silent_armTimeout | |];
    [|intros s2 H2; eapply allocated_evolves, allocated_silent; eassumption].
  intros armed s2 H2. pose proof (allocated_silent _ _ _ H1 H2) as H12. clear H1 H2 s1.
  apply ends_bind. eapply ends_mono; [apply silent_awaitFetch | |];
    [|intros s3 H3; eapply allocated_evolves, allocated_silent; eassumption].
  intros settled s3 H3. pose proof (allocated_silent _ _ _ H12 H3) as H13. clear H12 H3 s2.
  apply evolves_afterTransport; [intros; apply IH | exact H13].
Qed.

(** The part of a run that follows a transport call only adds to the
    log. *)
Lemma grows_afterTransport fuel id timer c settled s :
  ends (afterTransport host (fetchRaw host g fuel) id timer c settled) s
       (fun _ s' => grows s s') (grows s).
Proof.
  assert (Hon : forall c' s4, grows s s4 ->
            ends (onError host (fetchRaw host g fuel) c') s4
                 (fun _ s' => grows s s') (grows s)).
  { intros c' s4 H4.
    eapply ends_mono; [apply evolves_onError; intros; apply evolves_fetchRaw | |];
      intros; eapply grows_trans; try eassumption; now apply evolves_grows. }
  assert (Hd : forall s1 s2, decodes id s1 s2 -> grows s1 s2).
  { intros s1 s2 [_ (l & Hl & _)]. now exists l. }
  assert (Hc : forall s', grows s s' -> grows s (clearTimeout timer s')).
  { intros s' H'. eapply grows_silent; [exact H' | apply silent_clearTimeout]. }
  unfold afterTransport. destruct settled as [r|e].
  - apply ends_bind. unfold ends at 1, modify.
    apply ends_bind. eapply ends_mono; [apply decodes_decodeResponse | |];
      [|intros s4 ->; apply Hc, grows_refl].
    intros c5 s4 H4. apply Hd in H4.
    apply (grows_trans _ _ _ (Hc _ (grows_refl s))) in H4.
    apply ends_bind, ends_pure; [apply pure_callHooks | intros c6 _ | exact H4].
    destruct (default false (ignoreResponseError (options c6))); [exact H4|].
    apply ends_bind, ends_pure; [apply pure_theResponse | intros r' _ | exact H4].
    destruct (isErrorStatus r'); [|exact H4].
    apply ends_bind, ends_pure; [apply pure_callHooks | intros c7 _ | exact H4].
    now apply Hon.
  - apply ends_finally.
    apply ends_bind, ends_pure;
      [apply pure_callHooks | intros c5 _ | split; [|apply Hc]; apply grows_refl].
    eapply ends_mono; [apply Hon, grows_refl | |]; cbv beta; auto.
Qed.

End Runs.

(** ** Body preparation *)

Lemma defaultHeader_same (h : Headers.t) name value :
  defaultHeader h name value !! Str.toLowerCase name
  = Some (default value (h !! Str.toLowerCase name)).
Proof.
  unfold defaultHeader, Headers.has, Headers.set.
  destruct (h !! Str.toLowerCase name) as [v|] eqn:E.
  - rewrite bool_decide_eq_true_2 by eauto. exact E.
  - rewrite bool_decide_eq_false_2 by (intros [v Hv]; discriminate).
    apply lookup_insert_eq.
Qed.

Lemma defaultHeader_other (h : Headers.t) name value k :
  k <> Str.toLowerCase name -> defaultHeader h name value !! k = h !! k.
Proof.
  intros Hne. unfold defaultHeader, Headers.set.
  destruct (Headers.has h name); [reflexivity|].
  now rewrite lookup_insert_ne by congruence.
Qed.

Lemma jsonDefaulted_defaultHeader (h : Headers.t) :
  jsonDefaulted h
    (defaultHeader (defaultHeader h "content-type" "application/json")
                   "accept" "application/json").
Proof.
  repeat split.
  - rewrite (defaultHeader_other _ "accept") by discriminate.
    apply (defaultHeader_same h "content-type").
  - rewrite (defaultHeader_same _ "accept").
    now rewrite (defaultHeader_other h "content-type") by discriminate.
  - intros k H1 H2.
    now rewrite (defaultHeader_other _ "accept"), (defaultHeader_other h "content-type").
Qed.

(** The classifier accepts strings, arrays and the plain objects without
    a buffer field. *)
Lemma isJSONSerializable_accepts b :
  (match b with JStr _ | JArray _ => true | _ => false end
   || (plainObject b && negb (carriesBuffer b)))%bool = true ->
  isJSONSerializable b = Normal true.
Proof.
  intros H. destruct b as [| |?|?|?|?| | |?|c props]; try discriminate; try reflexivity.
  simpl in H. apply andb_prop in H as [Hc Hb]. apply negb_true_iff in Hb.
  unfold isJSONSerializable. simpl. rewrite Hb.
  unfold ctorIsObject, plainObject in *. now rewrite Hc.
Qed.

Section Body.

Variable host : Host.

(** The preparation of a JSON-serializable body of a payload-bearing
    call. *)
Lemma prepareBody_serializable (c : FetchContext) (b : JsValue) (s : Store) :
  body (options c) = Some b ->
  truthy b = true ->
  isPayloadMethod (method (options c)) = true ->
  isJSONSerializable b = Normal true ->
  match b with
  | JStr _ =>
      exists h',
        prepareBody host c s
        = Returned (with_options c
                      (with_headers (with_body (options c) (Some b)) (Some (HInstance h')))) s
        /\ jsonDefaulted (new_Headers (headers (options c))) h'
  | _ =>
      match JSON_stringify host b with
      | Normal v =>
          exists h',
            prepareBody host c s
            = Returned (with_options c
                          (with_headers (with_body (options c) (optOfValue v))
                                        (Some (HInstance h')))) s
            /\ jsonDefaulted (new_Headers (headers (options c))) h'
      | Throws e => prepareBody host c s = Rejected (ExnJs e) s
      end
  end.
Proof.
  intros Hb Ht Hm Hs. unfold prepareBody. rewrite Hb, Ht, Hm. simpl.
  unfold bind at 1. rewrite Hs. simpl.
  destruct b; simpl;
    try (destruct (JSON_stringify host _) as [v|e]; simpl; [|reflexivity]);
    (eexists; split; [reflexivity | apply jsonDefaulted_defaultHeader]).
Qed.

(** An object that carries a truthy [buffer] field is left alone: the
    preparation at most notes [duplex] for a stream. *)
Lemma prepareBody_buffer (c : FetchContext) (b : JsValue) (s : Store) :
  body (options c) = Some b ->
  carriesBuffer b = true ->
  exists c',
    prepareBody host c s = Returned c' s
    /\ request c' = request c
    /\ body (options c') = body (options c)
    /\ headers (options c') = headers (options c).
Proof.
  intros Hb Hbuf. unfold prepareBody. rewrite Hb.
  destruct b as [| |?|?|?|?| | |?|ctor props]; try discriminate.
  unfold carriesBuffer in Hbuf.
  destruct (truthy (JObject ctor props) && isPayloadMethod (method (options c)))%bool;
    [|now exists c].
  unfold bind at 1. unfold isJSONSerializable. simpl. rewrite Hbuf. simpl.
  unfold bind at 1. unfold isStreamBody. simpl.
  destruct (bool_decide _); simpl; repeat (destruct (TypeTag_eqb _ _); simpl);
    try (destruct (present _); simpl);
    eexists; (split; [reflexivity|]); simpl; refold; auto.
Qed.

End Body.

(** ** What the transport receives *)

Lemma bind_returned {A B} (m : M A) (k : A -> M B) s a s1 :
  m s = Returned a s1 -> bind m k s = k a s1.
Proof. intros H. unfold bind. now rewrite H. Qed.

Lemma bind_rejected {A B} (m : M A) (k : A -> M B) s e s1 :
  m s = Rejected e s1 -> bind m k s = Rejected e s1.
Proof. intros H. unfold bind. now rewrite H. Qed.

Lemma ends_bind_returned {A B} (m : M A) (k : A -> M B) s a s1 Q R :
  m s = Returned a s1 -> ends (k a) s1 Q R -> ends (bind m k) s Q R.
Proof. intros H Hk. unfold ends. now rewrite (bind_returned m k s a s1 H). Qed.

Section Transport.

Variable host : Host.
Variable g : CreateFetchOptions.

Lemma assembleURL_fields c :
  body (options (assembleURL host c)) = body (options c)
  /\ method (options (assembleURL host c)) = method (options c)
  /\ headers (options (assembleURL host c)) = headers (options c).
Proof. unfold assembleURL. destruct (request c); repeat split. Qed.

(** The transport call logs the request and the options it is given. *)
Lemma awaitFetch_logs id c s :
  ends (awaitFetch host g id c) s
       (fun _ s' => log s' = log s ++ [EvTransport id (request c) (options c)])
       (fun s' => log s' = log s ++ [EvTransport id (request c) (options c)]).
Proof.
  unfold ends, awaitFetch.
  destruct (abortReason _ _); [reflexivity|].
  destruct (theFetch host g _ _ _) as [lat r|lat e|]; unfold settle, fireTimer;
    destruct (deadlineOf _ _); try (destruct (_ <? _)); reflexivity.
Qed.

(** From the prepared context on: the timer is armed, the transport is
    invoked with the prepared request and options (and the token), and
    the rest of the run only adds to the log. *)
Lemma transport_receives fuel id c s :
  ends (bind (armTimeout c)
          (fun armed =>
             bind (awaitFetch host g id (fst armed))
                  (afterTransport host (fetchRaw host g fuel) id (snd armed) (fst armed))))
       s
       (fun _ s' => transportInvoked id
                      (fun r o => r = request c /\ body o = body (options c) /\ headers o = headers (options c))
                      s s')
       (transportInvoked id
          (fun r o => r = request c /\ body o = body (options c) /\ headers o = headers (options c)) s).
Proof.
  assert (Hgo : forall c' s2, log s2 = log s -> request c' = request c ->
            (body (options c') = body (options c)
             /\ headers (options c') = headers (options c)) ->
            forall timer,
            ends (bind (awaitFetch host g id c')
                       (afterTransport host (fetchRaw host g fuel) id timer c'))
                 s2
                 (fun _ s' => transportInvoked id
                      (fun r o => r = request c /\ body o = body (options c) /\ headers o = headers (options c))
                      s s')
                 (transportInvoked id
                      (fun r o => r = request c /\ body o = body (options c) /\ headers o = headers (options c)) s)).
  { intros c' s2 Hl Hr Ho timer. apply ends_bind.
    eapply ends_mono; [apply awaitFetch_logs | |].
    - intros settled s3 H3.
      eapply ends_mono; [apply grows_afterTransport | |];
        intros; cbn beta in *;
        match goal with H : grows s3 _ |- _ => destruct H as [l Hg] end;
        exists (request c'), (options c'), l;
        (split; [rewrite Hg, H3, Hl, <- app_assoc; reflexivity | split; assumption]).
    - intros s3 H3. exists (request c'), (options c'), [].
      split; [rewrite H3, Hl; reflexivity | split; assumption]. }
  apply ends_bind. unfold ends at 1, armTimeout.
  destruct (negb _ && _)%bool; cbn [fst snd ret].
  - apply Hgo; [reflexivity | reflexivity | split; reflexivity].
  - apply Hgo; [reflexivity | reflexivity | split; reflexivity].
Qed.

(** C7 (as amended). For a call whose method option is a payload method
    and whose body -- as the pre-request hooks leave it -- is an array or
    a plain object without a truthy [buffer] field, the transport is
    invoked with the body replaced by its JSON text and with a header
    container in which [content-type] and [accept] are [application/json]
    exactly when they were absent; when the serialization raises, the call
    rejects with that error before any transport invocation. A non-empty
    string body reaches the transport as it is, with the same header
    defaults. Every object that carries a truthy [buffer] field, a plain
    object included, reaches the transport as it is, with the headers as
    they were: no header is defaulted. *)
Theorem fetchRaw_serializes_body fuel req opts s c2 b :
  callHooks host (upperCaseMethod (buildContext g req opts))
            (onRequest (options (upperCaseMethod (buildContext g req opts))))
            (started s) = Returned c2 (started s) ->
  body (options c2) = Some b ->
  isPayloadMethod (method (options c2)) = true ->
  ((match b with JStr t => negb (Str.is_empty t) | JArray _ => true | _ => false end
    || (plainObject b && negb (carriesBuffer b)))%bool = true ->
   (forall text,
       serialization host b = Normal text ->
       ends (fetchRaw host g (S fuel) req opts) s
         (fun _ s' => transportInvoked (contexts s) (jsonPrepared (options c2) text) s s')
         (transportInvoked (contexts s) (jsonPrepared (options c2) text) s))
   /\ (forall e,
         serialization host b = Throws e ->
         fetchRaw host g (S fuel) req opts s = Rejected (ExnJs e) (started s))
   /\ (forall t, b = JStr t -> serialization host b = Normal (Some b)))
  /\ (carriesBuffer b = true ->
      ends (fetchRaw host g (S fuel) req opts) s
        (fun _ s' => transportInvoked (contexts s) (passedOn (options c2)) s s')
        (transportInvoked (contexts s) (passedOn (options c2)) s)).
Proof.
  intros Hhooks Hb Hm.
  destruct (assembleURL_fields c2) as (Eb & Em & Eh).
  split.
  2:{ intros Hbuf.
      destruct (prepareBody_buffer host (assembleURL host c2) b (started s)) as (c3 & Hp & Er & Eb3 & Eh3);
        [now rewrite Eb | exact Hbuf|].
      unfold fetchRaw; fold (fetchRaw host g).
      eapply ends_bind_returned; [reflexivity|].
      eapply ends_bind_returned; [exact Hhooks|].
      eapply ends_bind_returned; [exact Hp|].
      eapply ends_mono; [apply transport_receives | |];
        intros; cbn beta in *;
        match goal with
        | H : transportInvoked _ _ _ _ |- _ =>
            destruct H as (r & o & l & Hl & Hr & Hob & Hoh)
        end;
        exists r, o, l; (split; [exact Hl|]);
        (split; [now rewrite Hob, Eb3, Eb | now rewrite Hoh, Eh3, Eh]). }
  intros Hkind.
  assert (Ht : truthy b = true).
  { destruct b; try discriminate; try reflexivity. simpl in Hkind.
    now rewrite orb_false_r in Hkind. }
  assert (Hs : isJSONSerializable b = Normal true).
  { apply isJSONSerializable_accepts.
    destruct b; try discriminate; try reflexivity; exact Hkind. }
  pose proof (prepareBody_serializable host (assembleURL host c2) b (started s)) as Hprep.
  rewrite Eb, Em, Eh in Hprep. specialize (Hprep Hb Ht Hm Hs).
  assert (Hfinish : forall text h',
    prepareBody host (assembleURL host c2) (started s)
    = Returned (with_options (assembleURL host c2)
                  (with_headers (with_body (options (assembleURL host c2)) text)
                                (Some (HInstance h')))) (started s) ->
    jsonDefaulted (new_Headers (headers (options c2))) h' ->
    ends (fetchRaw host g (S fuel) req opts) s
      (fun _ s' => transportInvoked (contexts s) (jsonPrepared (options c2) text) s s')
      (transportInvoked (contexts s) (jsonPrepared (options c2) text) s)).
  { intros text h' Hp Hj. unfold fetchRaw; fold (fetchRaw host g).
    eapply ends_bind_returned; [reflexivity|].
    eapply ends_bind_returned; [exact Hhooks|].
    eapply ends_bind_returned; [exact Hp|].
    eapply ends_mono; [apply transport_receives | |];
      intros; cbn beta in *;
      match goal with
              | H : transportInvoked _ _ _ _ |- _ =>
                  destruct H as (r & o & l & Hl & Hr & Hob & Hoh)
              end;
      exists r, o, l; (split; [exact Hl|]);
      (split; [rewrite Hob; simpl; apply read_assigned
              | exists h'; split; [rewrite Hoh; reflexivity | exact Hj]]). }
  split; [|split].
  - intros text Hser. unfold serialization in Hser.
    destruct b; try (injection Hser as <-; destruct Hprep as (h' & Hp & Hj);
                     now apply (Hfinish _ h'));
      (destruct (JSON_stringify host _) as [v|e]; [|discriminate]);
      injection Hser as <-; destruct Hprep as (h' & Hp & Hj); now apply (Hfinish _ h').
  - intros e Hser. unfold serialization in Hser.
    destruct b; try discriminate;
      (destruct (JSON_stringify host _) as [v|e']; [discriminate|]);
      injection Hser as <-;
      unfold fetchRaw; fold (fetchRaw host g);
      erewrite bind_returned by reflexivity;
      erewrite bind_returned by exact Hhooks;
      erewrite bind_rejected by exact Hprep; reflexivity.
  - intros t ->. reflexivity.
Qed.

End Transport.

Lemma fetchRaw_serializes_body_witness :
  ends (fetchRaw (sampleHost okTransport) noGlobalOptions 1
          (ReqString "http://localhost/post") (Some (postOptions (JArray [JNum 42]))))
       initialStore
       (fun _ s' =>
          transportInvoked (contexts initialStore)
            (jsonPrepared (options (upperCaseMethod
                                      (buildContext noGlobalOptions
                                         (ReqString "http://localhost/post")
                                         (Some (postOptions (JArray [JNum 42]))))))
                          (Some (JStr "<json>")))
            initialStore s')
       (transportInvoked (contexts initialStore)
          (jsonPrepared (options (upperCaseMethod
                                    (buildContext noGlobalOptions
                                       (ReqString "http://localhost/post")
                                       (Some (postOptions (JArray [JNum 42]))))))
                        (Some (JStr "<json>")))
          initialStore).
Proof.
  refine (proj1 (proj1 (fetchRaw_serializes_body (sampleHost okTransport) noGlobalOptions 0
                          (ReqString "http://localhost/post")
                          (Some (postOptions (JArray [JNum 42])))
                          initialStore
                          (upperCaseMethod (buildContext noGlobalOptions
                                              (ReqString "http://localhost/post")
                                              (Some (postOptions (JArray [JNum 42])))))
                          (JArray [JNum 42]) _ _ _) _)
                (Some (JStr "<json>")) _);
    vm_compute; reflexivity.
Defined.

(** C7 (as stated) fails for a plain object that carries a [buffer]
    field: the classifier takes it for a binary buffer, and the transport
    receives the object itself, with no [content-type]. *)
Lemma fetchRaw_serializes_body_counterexample :
  plainObject bufferFieldBody = true
  /\ exists o,
       transportInputs
         (logOf (fetchRaw (sampleHost okTransport) noGlobalOptions 1
                   (ReqString "http://localhost/post")
                   (Some (postOptions bufferFieldBody)) initialStore))
       = [(ReqString "http://localhost/post", o)]
       /\ body o = Some bufferFieldBody
       /\ new_Headers (headers o) !! "content-type" = None.
Proof.
  split; [reflexivity|]. eexists. split; [vm_compute; reflexivity|].
  split; [reflexivity | vm_compute; reflexivity].
Qed.

(** ** The decoded-data slot *)

Lemma decodedOnce_initial : decodedOnce initialStore.
Proof. intros id. simpl. split; [lia | reflexivity]. Qed.

(** ** Timeouts *)

Section Timeout.

Variable host : Host.
Variable g : CreateFetchOptions.

Lemma prepareBody_keeps c c' s s' :
  prepareBody host c s = Returned c' s' ->
  request c' = request c /\ response c' = response c /\ error c' = error c
  /\ timeout (options c') = timeout (options c)
  /\ signal (options c') = signal (options c)
  /\ retry (options c') = retry (options c)
  /\ method (options c') = method (options c)
  /\ onRequestError (options c') = onRequestError (options c).
Proof.
  unfold prepareBody. destruct (body (options c)) as [b|];
    [|intros [= <- _]; repeat split].
  destruct (truthy b && isPayloadMethod (method (options c)))%bool;
    [|intros [= <- _]; repeat split].
  unfold bind at 1. destruct (isJSONSerializable b) as [[|]|e]; simpl; [| |discriminate].
  - destruct b; unfold bind, ret; simpl;
      try (destruct (JSON_stringify host _) as [v|e]; simpl; [|discriminate]);
      intros [= <- _]; repeat split.
  - unfold bind at 1. destruct (isStreamBody b) as [[|]|e]; simpl; try discriminate.
    + destruct (present _); intros [= <- _]; repeat split.
    + intros [= <- _]. repeat split.
Qed.

Lemma assembleURL_keeps c :
  response (assembleURL host c) = response c /\ error (assembleURL host c) = error c
  /\ timeout (options (assembleURL host c)) = timeout (options c)
  /\ signal (options (assembleURL host c)) = signal (options c)
  /\ retry (options (assembleURL host c)) = retry (options c)
  /\ method (options (assembleURL host c)) = method (options c)
  /\ onRequestError (options (assembleURL host c)) = onRequestError (options c).
Proof. unfold assembleURL. destruct (request c); repeat split. Qed.

Lemma retries_ext c c' :
  retry (options c) = retry (options c') -> method (options c) = method (options c') ->
  retries c = retries c'.
Proof. intros Hr Hm. unfold retries. now rewrite Hr, Hm. Qed.

(** Without a budget, or with retry disabled, the handler raises. *)
Lemma onErrorAction_raise c :
  retry (options c) = Some RetryFalse \/ retries c <= 0 ->
  onErrorAction host c = Raise (createFetchError c).
Proof.
  intros [H|H]; unfold onErrorAction.
  - now rewrite H.
  - destruct (retryNotFalse _ && _)%bool; [|reflexivity].
    destruct (Z.ltb_spec 0 (retries c)); [lia | reflexivity].
Qed.

End Timeout.

(** ** Chains of attempts *)

Lemma transportInputs_app l1 l2 :
  transportInputs (l1 ++ l2) = transportInputs l1 ++ transportInputs l2.
Proof.
  induction l1 as [|e l1 IH]; [reflexivity|].
  destruct e; simpl; now rewrite IH.
Qed.

Lemma budgets_app l1 l2 : budgets (l1 ++ l2) = budgets l1 ++ budgets l2.
Proof. unfold budgets. now rewrite transportInputs_app, map_app. Qed.

Lemma noTransport_refl s : noTransport s s.
Proof. exists []. split; [now rewrite app_nil_r | reflexivity]. Qed.

Lemma noTransport_trans s1 s2 s3 : noTransport s1 s2 -> noTransport s2 s3 -> noTransport s1 s3.
Proof.
  intros (l1 & H1 & E1) (l2 & H2 & E2). exists (l1 ++ l2).
  split; [now rewrite H2, H1, app_assoc|].
  now rewrite transportInputs_app, E1, E2.
Qed.

Lemma noTransport_chainTail B s1 s2 s3 :
  noTransport s1 s2 -> chainTail B s2 s3 -> chainTail B s1 s3.
Proof.
  intros (l1 & H1 & E1) (l2 & H2 & Hc). exists (l1 ++ l2).
  split; [now rewrite H2, H1, app_assoc|].
  rewrite budgets_app. unfold budgets at 1 3. rewrite E1. exact Hc.
Qed.

Lemma noTransport_is_chainTail B s1 s2 : noTransport s1 s2 -> chainTail B s1 s2.
Proof.
  intros (l & H & E). exists l. split; [exact H|]. left. unfold budgets. now rewrite E.
Qed.

Lemma retries_budgetOf c : retries c = budgetOf (options c).
Proof. reflexivity. Qed.

Section Chain.

Variable host : Host.
Variable g : CreateFetchOptions.
Hypothesis Hkeep : hooksKeepBudget host.

Lemma runHooks_keeps hs c c' s s' :
  runHooks host hs c s = Returned c' s' ->
  retry (options c') = retry (options c) /\ method (options c') = method (options c).
Proof.
  revert c. induction hs as [|h hs IH]; intros c; simpl.
  - intros [= <- _]. split; reflexivity.
  - unfold bind. destruct (callHook host h c) as [c1|e] eqn:E; simpl; [|discriminate].
    intros H. destruct (IH _ H) as [-> ->]. exact (Hkeep h c c1 E).
Qed.

Lemma callHooks_keeps c hooks c' s s' :
  callHooks host c hooks s = Returned c' s' ->
  retry (options c') = retry (options c) /\ method (options c') = method (options c).
Proof.
  destruct hooks as [[h|hs]|]; simpl.
  - destruct (callHook host h c) as [c1|e] eqn:E; simpl; [|discriminate].
    intros [= <- _]. exact (Hkeep h c c1 E).
  - apply runHooks_keeps.
  - intros [= <- _]. split; reflexivity.
Qed.

Lemma callHooks_retries c hooks c' s s' :
  callHooks host c hooks s = Returned c' s' -> retries c' = retries c.
Proof.
  intros H. destruct (callHooks_keeps _ _ _ _ _ H) as [Hr Hm].
  now apply retries_ext.
Qed.

(** The decoding step leaves the options alone and invokes no
    transport. *)
Lemma decodeResponse_noTransport id c r s :
  ends (decodeResponse host id c r) s
       (fun c' s' => options c' = options c /\ noTransport s s')
       (fun s' => s' = s).
Proof.
  unfold decodeResponse. destruct (hasBody c r);
    [|split; [reflexivity | apply noTransport_refl]].
  apply ends_bind.
  assert (Hrec : forall v, ends
            (bind (modify (record (EvDecoded id v)))
                  (fun _ => ret (with_response c (Some (set_data r v)))))
            s (fun c' s' => options c' = options c /\ noTransport s s') (fun s' => s' = s)).
  { intros v. unfold ends, bind, modify, ret. simpl. split; [reflexivity|].
    exists [EvDecoded id v]. split; reflexivity. }
  destruct (responseTypeOf c r); try (apply ends_ret, Hrec).
  destruct (parseResponse (options c)) as [p|]; [|apply ends_ret, Hrec].
  apply ends_liftC; [intros v _; apply Hrec | reflexivity].
Qed.

Lemma onErrorAction_retry c d r o :
  onErrorAction host c = RetryWith d r o ->
  0 < retries c /\ r = request c
  /\ o = with_retry (options c) (Some (RetryNum (retries c - 1))).
Proof.
  unfold onErrorAction. destruct (retryNotFalse _ && _)%bool; [|discriminate].
  destruct (Z.ltb_spec 0 (retries c)); [|discriminate].
  destruct (retryStatusMatches c); [|discriminate].
  intros [= <- <- <-]. repeat split. assumption.
Qed.

(** The retry handler either ends the chain or re-enters the pipeline
    with the budget decremented by one. *)
Lemma chainTail_onError self c s :
  (forall r o s', ends (self r o) s'
                    (fun _ s'' => chain (retries (upperCaseMethod (buildContext g r o))) s' s'')
                    (chain (retries (upperCaseMethod (buildContext g r o))) s')) ->
  ends (onError host self c) s
       (fun _ s' => chainTail (retries c) s s') (chainTail (retries c) s).
Proof.
  intros Hself. unfold onError.
  destruct (onErrorAction host c) as [d r o|e] eqn:E;
    [|apply ends_throw, noTransport_is_chainTail, noTransport_refl].
  destruct (onErrorAction_retry c d r o E) as (Hpos & -> & ->).
  assert (Hk : forall s1, noTransport s s1 ->
            ends (self (request c)
                    (Some (with_retry (options c) (Some (RetryNum (retries c - 1))))))
                 s1 (fun _ s' => chainTail (retries c) s s') (chainTail (retries c) s)).
  { intros s1 H1.
    pose proof (Hself (request c)
                  (Some (with_retry (options c) (Some (RetryNum (retries c - 1))))) s1) as Hs.
    rewrite (retries_buildContext g (request c)
               (with_retry (options c) (Some (RetryNum (retries c - 1))))
               (retries c - 1) eq_refl) in Hs.
    eapply ends_mono; [exact Hs | |];
      intros; cbn beta in *;
      match goal with H : chain _ _ _ |- _ => destruct H as (l & Hl & Hc) end;
      apply (noTransport_chainTail _ s s1); [exact H1 | | exact H1 |];
      exists l; (split; [exact Hl | right; split; assumption]). }
  apply ends_bind. destruct (0 <? d).
  - unfold ends at 1, sleep, modify. apply Hk.
    exists [EvDelay d]. split; reflexivity.
  - apply ends_ret, Hk, noTransport_refl.
Qed.

Lemma chainTail_afterTransport self id timer c settled s :
  (forall r o s', ends (self r o) s'
                    (fun _ s'' => chain (retries (upperCaseMethod (buildContext g r o))) s' s'')
                    (chain (retries (upperCaseMethod (buildContext g r o))) s')) ->
  ends (afterTransport host self id timer c settled) s
       (fun _ s' => chainTail (retries c) s s') (chainTail (retries c) s).
Proof.
  intros Hself.
  assert (Hon : forall c' s1, retries c' = retries c -> noTransport s s1 ->
            ends (onError host self c') s1
                 (fun _ s' => chainTail (retries c) s s') (chainTail (retries c) s)).
  { intros c' s1 Hr H1. rewrite <- Hr.
    eapply ends_mono; [apply chainTail_onError, Hself | |];
      intros; cbn beta in *; eapply noTransport_chainTail; eassumption. }
  assert (Hnone : forall s1, noTransport s s1 -> chainTail (retries c) s s1)
    by (intros; now apply noTransport_is_chainTail).
  unfold afterTransport. destruct settled as [r|e].
  - apply ends_bind. unfold ends at 1, modify.
    assert (H0 : noTransport s (clearTimeout timer s))
      by cleared timer (noTransport_refl s).
    apply ends_bind. eapply ends_mono; [apply decodeResponse_noTransport | |];
      [|intros s1 ->; apply Hnone, H0].
    intros c1 s1 [Ho H1]. cbn [options with_response] in Ho.
    apply (noTransport_trans _ _ _ H0) in H1.
    apply ends_bind, ends_pure; [apply pure_callHooks | intros c2 Hc2 | now apply Hnone].
    assert (Hr2 : retries c2 = retries c).
    { rewrite (callHooks_retries _ _ _ _ _ Hc2). unfold retries. now rewrite Ho. }
    destruct (default false (ignoreResponseError (options c2))); [now apply Hnone|].
    apply ends_bind, ends_pure; [apply pure_theResponse | intros r' _ | now apply Hnone].
    destruct (isErrorStatus r'); [|now apply Hnone].
    apply ends_bind, ends_pure; [apply pure_callHooks | intros c3 Hc3 | now apply Hnone].
    apply Hon; [|exact H1]. now rewrite (callHooks_retries _ _ _ _ _ Hc3).
  - apply ends_cleared; [intros a s' H; cleared timer H | intros s' H; cleared timer H|].
    apply ends_bind, ends_pure;
      [apply pure_callHooks | intros c1 Hc1 | apply Hnone, noTransport_refl].
    apply Hon; [|apply noTransport_refl].
    now rewrite (callHooks_retries _ _ _ _ _ Hc1).
Qed.

(** Along the chain of attempts of one call, the budget the transport
    sees starts at the budget of the call and goes down by exactly one
    from each attempt to the next. *)
Lemma chain_fetchRaw fuel req opts s :
  ends (fetchRaw host g fuel req opts) s
       (fun _ s' => chain (retries (upperCaseMethod (buildContext g req opts))) s s')
       (chain (retries (upperCaseMethod (buildContext g req opts))) s).
Proof.
  revert req opts s. induction fuel as [|fuel IH]; intros req opts s;
    [exists []; split; [now rewrite app_nil_r | exact I]|].
  set (B := retries (upperCaseMethod (buildContext g req opts))).
  assert (Hnil : forall s1, log s1 = log s -> chain B s s1).
  { intros s1 H1. exists []. split; [now rewrite app_nil_r | exact I]. }
  unfold fetchRaw; fold (fetchRaw host g).
  apply ends_bind. unfold ends at 1, newContextId.
  apply ends_bind, ends_pure; [apply pure_callHooks | intros c2 Hc2 | now apply Hnil].
  apply ends_bind, ends_pure; [apply pure_prepareBody | intros c3 Hc3 | now apply Hnil].
  assert (H3 : retries c3 = B).
  { destruct (prepareBody_keeps host _ _ _ _ Hc3) as (_ & _ & _ & _ & _ & Pr & Pm & _).
    destruct (assembleURL_keeps host c2) as (_ & _ & _ & _ & Er & Em & _).
    rewrite (retries_ext c3 c2) by congruence.
    exact (callHooks_retries _ _ _ _ _ Hc2). }
  assert (Hgo : forall c4 timer s2, log s2 = log s -> retries c4 = B ->
            ends (bind (awaitFetch host g (contexts s) c4)
                       (afterTransport host (fetchRaw host g fuel) (contexts s) timer c4))
                 s2 (fun _ s' => chain B s s') (chain B s)).
  { intros c4 timer s2 Hl H4. apply ends_bind.
    eapply ends_mono; [apply awaitFetch_logs | |].
    - intros settled s3 Hl3.
      eapply ends_mono; [apply chainTail_afterTransport; intros; apply IH | |];
        intros; cbn beta in *;
        match goal with H : chainTail _ _ _ |- _ => destruct H as (l & Hl' & Hc) end;
        exists (EvTransport (contexts s) (request c4) (options c4) :: l);
        (split; [rewrite Hl', Hl3, Hl, <- app_assoc; reflexivity|]);
        change (budgets (EvTransport (contexts s) (request c4) (options c4) :: l))
          with (budgetOf (options c4) :: budgets l);
        rewrite <- retries_budgetOf, H4 in *;
        (destruct Hc as [-> | [Hpos Hc]];
         [split; [reflexivity | exact I]
         | split; [reflexivity | destruct (budgets l); [exact I | split; assumption]]]).
    - intros s3 Hl3. exists [EvTransport (contexts s) (request c4) (options c4)].
      split; [now rewrite Hl3, Hl|].
      change (budgets [EvTransport (contexts s) (request c4) (options c4)])
        with [budgetOf (options c4)].
      rewrite <- retries_budgetOf, H4. split; [reflexivity | exact I]. }
  apply ends_bind. unfold ends at 1, armTimeout.
  destruct (negb _ && _)%bool; cbn [fst snd ret]; apply Hgo; try reflexivity; exact H3.
Qed.

End Chain.

(** ** Runs that never decode *)

Lemma undecoded_refl s : undecoded s s.
Proof. exists []. split; [now rewrite app_nil_r | reflexivity]. Qed.

Lemma undecoded_trans s1 s2 s3 : undecoded s1 s2 -> undecoded s2 s3 -> undecoded s1 s3.
Proof.
  intros (l1 & H1 & E1) (l2 & H2 & E2). exists (l1 ++ l2).
  split; [now rewrite H2, H1, app_assoc|].
  intros id. now rewrite decodedCount_app, E1, E2.
Qed.

Lemma silent_undecoded s s' : silent s s' -> undecoded s s'.
Proof. intros [_ H]. exact H. Qed.

Section NeverDecoded.

Variable host : Host.
Variable g : CreateFetchOptions.

(** The decoding step does nothing for a status without a body and for
    the method HEAD. *)
Lemma decodeResponse_skips ctxId c r s :
  In (status r) [101; 204; 205; 304] \/ method (options c) = Some "HEAD" ->
  decodeResponse host ctxId c r s = Returned c s.
Proof.
  intros H. unfold decodeResponse.
  assert (E : hasBody c r = false); [|now rewrite E].
  unfold hasBody. destruct H as [H|H].
  - apply includes_In in H. unfold nullBodyResponses. rewrite H.
    now rewrite andb_false_r.
  - rewrite H. rewrite bool_decide_eq_true_2 by reflexivity. apply andb_false_r.
Qed.

(** A response the pipeline receives is one the transport gave. *)
Lemma awaitFetch_response id c s :
  ends (awaitFetch host g id c) s
       (fun settled s' =>
          silent s s'
          /\ forall r, settled = Normal r ->
               exists n lat, theFetch host g n (request c) (options c) = Responds lat r)
       (silent s).
Proof.
  assert (Hs : forall s1, contexts s1 = contexts s ->
               log s1 = log s ++ [EvTransport id (request c) (options c)] ->
               silent s s1).
  { intros s1 Hc Hl. split; [exact Hc|]. eexists. split; [exact Hl | reflexivity]. }
  unfold ends, awaitFetch.
  destruct (abortReason _ _); [split; [apply Hs; reflexivity | discriminate]|].
  destruct (theFetch host g _ _ _) as [lat r|lat e|] eqn:E; unfold settle, fireTimer;
    destruct (deadlineOf _ _); try (destruct (_ <? _));
    try (apply Hs; reflexivity);
    (split; [apply Hs; reflexivity|]);
    try discriminate;
    intros r' [= <-]; eauto.
Qed.

Lemma neverDecoded_method c c' :
  method (options c') = method (options c) ->
  neverDecoded host g c -> neverDecoded host g c'.
Proof. intros Hm [H|[Hk H]]; [now left | right; split; [exact Hk | congruence]]. Qed.

Lemma neverDecoded_callHooks c hooks c' s s' :
  callHooks host c hooks s = Returned c' s' ->
  neverDecoded host g c -> neverDecoded host g c'.
Proof.
  intros Hc [H|[Hk H]]; [now left|]. right. split; [exact Hk|].
  destruct (callHooks_keeps host Hk _ _ _ _ _ Hc) as [_ ->]. exact H.
Qed.

(** The pipeline re-entered by the retry handler starts from a context
    with the same reason not to decode. *)
Lemma neverDecoded_retry c x :
  neverDecoded host g c ->
  neverDecoded host g
    (upperCaseMethod (buildContext g (request c) (Some (with_retry (options c) x)))).
Proof.
  intros [H|[Hk H]]; [now left|]. right. split; [exact Hk|].
  apply read_Some in H.
  unfold upperCaseMethod, buildContext, resolveFetchOptions. simpl.
  rewrite H. reflexivity.
Qed.

Lemma undecoded_onError self c s :
  neverDecoded host g c ->
  (forall r o s',
      neverDecoded host g (upperCaseMethod (buildContext g r o)) ->
      ends (self r o) s' (fun _ s'' => undecoded s' s'') (undecoded s')) ->
  ends (onError host self c) s (fun _ s' => undecoded s s') (undecoded s).
Proof.
  intros HJ Hself. unfold onError.
  destruct (onErrorAction host c) as [d r o|e] eqn:E;
    [|apply ends_throw, undecoded_refl].
  destruct (onErrorAction_retry host c d r o E) as (_ & -> & ->).
  assert (Hk : forall s1, undecoded s s1 ->
            ends (self (request c)
                    (Some (with_retry (options c) (Some (RetryNum (retries c - 1))))))
                 s1 (fun _ s' => undecoded s s') (undecoded s)).
  { intros s1 H1. eapply ends_mono; [apply Hself, neverDecoded_retry, HJ | |];
      intros; cbn beta in *; eapply undecoded_trans; eassumption. }
  apply ends_bind. destruct (0 <? d).
  - eapply ends_mono; [apply silent_sleep | |].
    + intros u s1 H1. apply Hk, silent_undecoded, H1.
    + intros s1 H1. apply silent_undecoded, H1.
  - apply ends_ret, Hk, undecoded_refl.
Qed.

Lemma undecoded_afterTransport self id timer c settled s :
  neverDecoded host g c ->
  (forall r, settled = Normal r ->
     exists n lat req o, theFetch host g n req o = Responds lat r) ->
  (forall r o s',
      neverDecoded host g (upperCaseMethod (buildContext g r o)) ->
      ends (self r o) s' (fun _ s'' => undecoded s' s'') (undecoded s')) ->
  ends (afterTransport host self id timer c settled) s
       (fun _ s' => undecoded s s') (undecoded s).
Proof.
  intros HJ Hfrom Hself. unfold afterTransport. destruct settled as [r|e].
  - apply ends_bind. unfold ends at 1, modify.
    eapply ends_mono;
      [|intros a s' H; apply (undecoded_trans s (clearTimeout timer s));
        [cleared timer (undecoded_refl s) | exact H]
       |intros s' H; apply (undecoded_trans s (clearTimeout timer s));
        [cleared timer (undecoded_refl s) | exact H]].
    generalize (clearTimeout timer s). clear s. intros s.
    assert (Hskip : decodeResponse host id (with_response c (Some r)) r s
                    = Returned (with_response c (Some r)) s).
    { apply decodeResponse_skips. destruct HJ as [H|[_ H]].
      - left. destruct (Hfrom r eq_refl) as (n & lat & req & o & E). exact (H _ _ _ _ _ E).
      - right. exact H. }
    eapply ends_bind_returned; [exact Hskip|].
    apply ends_bind, ends_pure; [apply pure_callHooks | intros c2 Hc2 | apply undecoded_refl].
    destruct (default false (ignoreResponseError (options c2))); [apply undecoded_refl|].
    apply ends_bind, ends_pure; [apply pure_theResponse | intros r' _ | apply undecoded_refl].
    destruct (isErrorStatus r'); [|apply undecoded_refl].
    apply ends_bind, ends_pure; [apply pure_callHooks | intros c3 Hc3 | apply undecoded_refl].
    apply undecoded_onError; [|exact Hself].
    eapply neverDecoded_callHooks; [exact Hc3|].
    eapply neverDecoded_callHooks; [exact Hc2|].
    eapply neverDecoded_method; [|exact HJ]. reflexivity.
  - apply ends_cleared; [intros a s' H; cleared timer H | intros s' H; cleared timer H|].
    apply ends_bind, ends_pure;
      [apply pure_callHooks | intros c1 Hc1 | apply undecoded_refl].
    apply undecoded_onError; [|exact Hself].
    eapply neverDecoded_callHooks; [exact Hc1|].
    eapply neverDecoded_method; [|exact HJ]. reflexivity.
Qed.

(** When every response has a status without a body, or the method is
    HEAD, no run of the pipeline assigns a decoded-data slot, however many
    attempts it makes. *)
Lemma undecoded_fetchRaw fuel req opts s :
  neverDecoded host g (upperCaseMethod (buildContext g req opts)) ->
  ends (fetchRaw host g fuel req opts) s (fun _ s' => undecoded s s') (undecoded s).
Proof.
  revert req opts s. induction fuel as [|fuel IH]; intros req opts s HJ;
    [apply undecoded_refl|].
  unfold fetchRaw; fold (fetchRaw host g).
  apply ends_bind. unfold ends at 1, newContextId.
  set (s1 := mkStore _ _ _ _ _ _ _).
  assert (H1 : undecoded s s1) by (exists []; split; [now rewrite app_nil_r | reflexivity]).
  clearbody s1.
  apply ends_bind, ends_pure; [apply pure_callHooks | intros c2 Hc2 | exact H1].
  apply ends_bind, ends_pure; [apply pure_prepareBody | intros c3 Hc3 | exact H1].
  assert (H3 : neverDecoded host g c3).
  { destruct (prepareBody_keeps host _ _ _ _ Hc3) as (_ & _ & _ & _ & _ & _ & Pm & _).
    destruct (assembleURL_keeps host c2) as (_ & _ & _ & _ & _ & Em & _).
    eapply neverDecoded_method; [|eapply neverDecoded_callHooks; [exact Hc2 | exact HJ]].
    congruence. }
  assert (Hgo : forall c4 timer s2, undecoded s s2 -> neverDecoded host g c4 ->
            ends (bind (awaitFetch host g (contexts s) c4)
                       (afterTransport host (fetchRaw host g fuel) (contexts s) timer c4))
                 s2 (fun _ s' => undecoded s s') (undecoded s)).
  { intros c4 timer s2 H2 H4. apply ends_bind.
    eapply ends_mono; [apply awaitFetch_response | |].
    - intros settled s3 [Hs3 Hfrom].
      eapply ends_mono;
        [apply undecoded_afterTransport; [exact H4 | | intros; now apply IH] | |].
      + intros r Hr. destruct (Hfrom r Hr) as (n & lat & E). eauto.
      + intros; cbn beta in *. eapply undecoded_trans; [|eassumption].
        eapply undecoded_trans; [exact H2 | apply silent_undecoded, Hs3].
      + intros; cbn beta in *. eapply undecoded_trans; [|eassumption].
        eapply undecoded_trans; [exact H2 | apply silent_undecoded, Hs3].
    - intros s3 Hs3. eapply undecoded_trans; [exact H2 | apply silent_undecoded, Hs3]. }
  apply ends_bind. unfold ends at 1, armTimeout.
  destruct (negb _ && _)%bool; cbn [fst snd ret].
  - apply Hgo; [destruct H1 as (l & Hl & Hd); exists l; split; assumption|].
    eapply neverDecoded_method; [|exact H3]. reflexivity.
  - apply Hgo; assumption.
Qed.

End NeverDecoded.

(** ** Enough fuel *)

Lemma bind_settles {A B} (m : M A) (k : A -> M B) s :
  completes (m s) ->
  (forall a s', m s = Returned a s' -> completes (k a s')) ->
  completes (bind m k s).
Proof.
  intros Hm Hk. unfold bind. destruct (m s) as [a s'|e s'|s'|s']; try exact I.
  - now apply Hk.
  - exact Hm.
Qed.

Lemma pure_settles {A} (m : M A) s : pure_run m -> completes (m s).
Proof. intros H. specialize (H s). destruct (m s); try exact I. exact H. Qed.

Lemma finally_settles {A} (m : M A) cleanup s :
  completes (m s) -> completes (finally m cleanup s).
Proof. unfold finally. destruct (m s); intros H; exact H. Qed.

Lemma ends_returned {A} (m : M A) s Q R a s' :
  ends m s Q R -> m s = Returned a s' -> Q a s'.
Proof. unfold ends. intros H E. now rewrite E in H. Qed.

Section Fuel.

Variable host : Host.
Variable g : CreateFetchOptions.
Hypothesis Hkeep : hooksKeepBudget host.

Lemma armTimeout_settles c s : completes (armTimeout c s).
Proof. unfold armTimeout. destruct (negb _ && _)%bool; exact I. Qed.

Lemma armTimeout_retries c s armed s' :
  armTimeout c s = Returned armed s' -> retries (fst armed) = retries c.
Proof.
  unfold armTimeout. destruct (negb _ && _)%bool; intros [= <- _]; reflexivity.
Qed.

Lemma awaitFetch_settles id c s : completes (awaitFetch host g id c s).
Proof.
  unfold awaitFetch. destruct (abortReason _ _); [exact I|].
  destruct (theFetch host g _ _ _) as [lat r|lat e|]; unfold settle, fireTimer;
    destruct (deadlineOf _ _); try (destruct (_ <? _)); exact I.
Qed.

Lemma decodeResponse_settles id c r s : completes (decodeResponse host id c r s).
Proof.
  unfold decodeResponse. destruct (hasBody c r); [|exact I].
  apply bind_settles; [|intros v s' _; exact I].
  destruct (responseTypeOf c r); try exact I.
  destruct (parseResponse (options c)) as [p|]; [|exact I].
  destruct (callParse host p (res_text r)); exact I.
Qed.

Lemma onError_settles self c s :
  (forall r o s',
      0 < retries c ->
      retries (upperCaseMethod (buildContext g r o)) = retries c - 1 ->
      completes (self r o s')) ->
  completes (onError host self c s).
Proof.
  intros Hself. unfold onError.
  destruct (onErrorAction host c) as [d r o|e] eqn:E; [|exact I].
  destruct (onErrorAction_retry host c d r o E) as (Hpos & -> & ->).
  apply bind_settles.
  - destruct (0 <? d); exact I.
  - intros u s' _. apply Hself; [exact Hpos|].
    apply retries_buildContext. reflexivity.
Qed.

Lemma afterTransport_settles self id timer c settled s :
  (forall r o s',
      0 < retries c ->
      retries (upperCaseMethod (buildContext g r o)) = retries c - 1 ->
      completes (self r o s')) ->
  completes (afterTransport host self id timer c settled s).
Proof.
  intros Hself.
  assert (Hon : forall c' s1, retries c' = retries c ->
            completes (onError host self c' s1)).
  { intros c' s1 Hr. apply onError_settles. rewrite Hr. exact Hself. }
  unfold afterTransport. destruct settled as [r|e].
  - apply bind_settles; [exact I|]. intros u s0 _.
    apply bind_settles; [apply decodeResponse_settles|]. intros c1 s1 Hc1.
    destruct (ends_returned _ _ _ _ _ _ (decodeResponse_noTransport host id _ r s0) Hc1)
      as [Ho _].
    cbn [options with_response] in Ho.
    apply bind_settles; [apply pure_settles, pure_callHooks|]. intros c2 s2 Hc2.
    assert (Hr2 : retries c2 = retries c).
    { rewrite (callHooks_retries host Hkeep _ _ _ _ _ Hc2). unfold retries. now rewrite Ho. }
    destruct (default false (ignoreResponseError (options c2))); [exact I|].
    apply bind_settles; [apply pure_settles, pure_theResponse|]. intros r' s3 _.
    destruct (isErrorStatus r'); [|exact I].
    apply bind_settles; [apply pure_settles, pure_callHooks|]. intros c3 s4 Hc3.
    apply Hon. now rewrite (callHooks_retries host Hkeep _ _ _ _ _ Hc3).
  - apply finally_settles.
    apply bind_settles; [apply pure_settles, pure_callHooks|]. intros c1 s1 Hc1.
    apply Hon. now rewrite (callHooks_retries host Hkeep _ _ _ _ _ Hc1).
Qed.

(** With more fuel than the budget of the call, the run of the pipeline
    is not cut short: the chain of attempts ends by itself. *)
Lemma fetchRaw_settles fuel req opts s :
  Z.max 0 (retries (upperCaseMethod (buildContext g req opts))) < Z.of_nat fuel ->
  completes (fetchRaw host g fuel req opts s).
Proof.
  revert req opts s. induction fuel as [|fuel IH]; intros req opts s Hfuel; [simpl in Hfuel; lia|].
  set (B := retries (upperCaseMethod (buildContext g req opts))) in *.
  unfold fetchRaw; fold (fetchRaw host g).
  apply bind_settles; [exact I|]. intros id s1 _.
  apply bind_settles; [apply pure_settles, pure_callHooks|]. intros c2 s2 Hc2.
  apply bind_settles; [apply pure_settles, pure_prepareBody|]. intros c3 s3 Hc3.
  assert (H3 : retries c3 = B).
  { destruct (prepareBody_keeps host _ _ _ _ Hc3) as (_ & _ & _ & _ & _ & Pr & Pm & _).
    destruct (assembleURL_keeps host c2) as (_ & _ & _ & _ & Er & Em & _).
    rewrite (retries_ext c3 c2) by congruence.
    exact (callHooks_retries host Hkeep _ _ _ _ _ Hc2). }
  apply bind_settles; [apply armTimeout_settles|]. intros armed s4 Harm.
  apply bind_settles; [apply awaitFetch_settles|]. intros settled s5 _.
  apply afterTransport_settles.
  rewrite (armTimeout_retries _ _ _ _ Harm), H3.
  intros r o s' Hpos Hr. apply IH. rewrite Hr. lia.
Qed.

End Fuel.

(** ** The retry budget along a call *)

(** C1. On a failed attempt with retry enabled that is not a
    non-retriable cancellation, the handler retries exactly when the
    budget is positive and the observed status (500 without a response)
    is in the configured retry-status set (the caller's list if given,
    else 408, 409, 425, 429, 500, 502, 503, 504); the retry re-invokes the
    pipeline on the same request with the budget decremented by exactly
    one. Along the attempts of one call -- the hooks leaving the retry
    count and the method alone -- the budget the transport sees therefore
    goes down by one from each attempt to the next and is never reset, and
    a run with more fuel than the budget is not cut short. *)
Theorem onError_retry_decision (host : Host) (g : CreateFetchOptions) :
  (forall context,
      failedAttempt context ->
      retry (options context) <> Some RetryFalse ->
      isAbort context = false ->
      ((exists d r o, onErrorAction host context = RetryWith d r o) <->
       (0 < retries context /\
        In (observedStatus context) (configuredRetryStatuses context)))
      /\ (forall d r o, onErrorAction host context = RetryWith d r o ->
            r = request context
            /\ o = with_retry (options context) (Some (RetryNum (retries context - 1)))
            /\ (forall self,
                  onError host self context =
                  bind (if 0 <? d then sleep d else ret tt) (fun _ => self r (Some o)))
            /\ retries (upperCaseMethod (buildContext g r (Some o))) = retries context - 1
            /\ retries (upperCaseMethod (buildContext g r (Some o))) < retries context))
  /\ (hooksKeepBudget host ->
      forall fuel req opts s,
        ends (fetchRaw host g fuel req opts) s
             (fun _ s' => chain (retries (upperCaseMethod (buildContext g req opts))) s s')
             (chain (retries (upperCaseMethod (buildContext g req opts))) s)
        /\ (Z.max 0 (retries (upperCaseMethod (buildContext g req opts))) < Z.of_nat fuel ->
            completes (fetchRaw host g fuel req opts s))).
Proof.
  split.
  - intros context. apply onError_decides.
  - intros Hkeep fuel req opts s. split.
    + now apply chain_fetchRaw.
    + now apply fetchRaw_settles.
Qed.

Lemma onError_retry_decision_witness :
  exists d r o,
    onErrorAction (sampleHost silentTransport) unavailableContext = RetryWith d r o.
Proof.
  destruct (proj1 (onError_retry_decision (sampleHost silentTransport) noGlobalOptions)
              unavailableContext) as [[_ H] _].
  - vm_compute. split; [discriminate | reflexivity].
  - discriminate.
  - reflexivity.
  - apply H. split; [reflexivity | simpl; tauto].
Defined.

(** ** The decoded-data slot along a call *)

(** C8. For a response whose status is 101, 204, 205 or 304, and for a
    call whose method is HEAD, the decoding step leaves the context, and so
    the decoded-data slot of its response, as they are, whatever the
    content type and the configured response type. Hence a run whose
    transport only answers with such statuses, and a run of a call issued
    with the method HEAD (in any letter case, the hooks leaving the method
    alone), never assigns a decoded-data slot, however many attempts it
    makes. And in every run the slot of each context is assigned at most
    once. *)
Theorem decoded_slot (host : Host) (g : CreateFetchOptions) :
  (forall ctxId c r s,
      In (status r) [101; 204; 205; 304] \/ method (options c) = Some "HEAD" ->
      decodeResponse host ctxId c r s = Returned c s)
  /\ (nullBodyTransport (theFetch host g) ->
      forall fuel req opts s,
        ends (fetchRaw host g fuel req opts) s (fun _ s' => undecoded s s') (undecoded s))
  /\ (hooksKeepBudget host ->
      forall req opts m,
        method (resolveFetchOptions req opts (defaults g)) = Some m ->
        Str.toUpperCase m = "HEAD" ->
        forall fuel s,
          ends (fetchRaw host g fuel req opts) s (fun _ s' => undecoded s s') (undecoded s))
  /\ (forall fuel req opts s,
        decodedOnce s ->
        ends (fetchRaw host g fuel req opts) s (fun _ s' => decodedOnce s') decodedOnce).
Proof.
  split; [|split; [|split]].
  - intros ctxId c r s. apply decodeResponse_skips.
  - intros Hnull fuel req opts s. apply undecoded_fetchRaw. now left.
  - intros Hkeep req opts m Hm Hu fuel s. apply undecoded_fetchRaw. right.
    split; [exact Hkeep|].
    unfold upperCaseMethod, buildContext. cbn [options].
    rewrite Hm. destruct m as [|a m]; [discriminate|]. cbn [truthyStr Str.is_empty negb].
    cbn [options with_options with_method method]. cbn [fmap option_fmap option_map].
    now rewrite Hu.
  - intros fuel req opts s Hinv.
    eapply ends_mono; [apply evolves_fetchRaw | |].
    + intros a s' H. exact (evolves_decodedOnce s s' H Hinv).
    + intros s' H. exact (evolves_decodedOnce s s' H Hinv).
Qed.

Lemma decoded_slot_witness :
  decodeResponse (sampleHost okTransport) 0
    (mkContext (ReqString "http://localhost/204") noOptions None None)
    (mkResponse 204 "No Content" {["content-type" := "application/json"]}
                (JObject (Some "ReadableStream") []) JUndefined "{}"
                JUndefined JUndefined None)
    initialStore
  = Returned (mkContext (ReqString "http://localhost/204") noOptions None None) initialStore.
Proof.
  apply (proj1 (decoded_slot (sampleHost okTransport) noGlobalOptions)).
  left. simpl. tauto.
Defined.

(** * Further properties of the code *)

(** ** Response type detection *)

Lemma before_app_sep ct p :
  noSemicolon ct = true -> Str.before ";" (ct ++ String ";" p)%string = ct.
Proof.
  induction ct as [|c ct IH]; intros H.
  - reflexivity.
  - unfold noSemicolon in H. simpl in H. apply andb_prop in H as [Hc Hs].
    rewrite str_app_cons. simpl. apply negb_true_iff in Hc. rewrite Hc.
    f_equal. apply IH. exact Hs.
Qed.

Lemma before_noSemicolon ct : noSemicolon ct = true -> Str.before ";" ct = ct.
Proof.
  induction ct as [|c ct IH]; intros H; [reflexivity|].
  unfold noSemicolon in H. simpl in H. apply andb_prop in H as [Hc Hs].
  simpl. apply negb_true_iff in Hc. rewrite Hc. f_equal. now apply IH.
Qed.

(** X1. The parameters of a content type do not matter: what follows the
    first semicolon is ignored. *)
Theorem detectResponseType_parameters ct p :
  ct <> "" -> noSemicolon ct = true ->
  detectResponseType (ct ++ String ";" p)%string = detectResponseType ct.
Proof.
  intros Hne Hns. unfold detectResponseType.
  rewrite (before_app_sep ct p Hns), (before_noSemicolon ct Hns).
  destruct ct as [|c ct]; [congruence|]. reflexivity.
Qed.

Lemma detectResponseType_parameters_witness :
  detectResponseType ("application/json" ++ String ";" " charset=utf-8")%string
  = detectResponseType "application/json".
Proof.
  apply detectResponseType_parameters; [discriminate | vm_compute; reflexivity].
Defined.

Lemma startsWith_cons a p s :
  Str.startsWith (String a p) s = true ->
  exists s', s = String a s' /\ Str.startsWith p s' = true.
Proof.
  destruct s as [|b s']; [discriminate|]. cbn [Str.startsWith].
  intros H. apply andb_prop in H as [Hab Hp]. apply Ascii.eqb_eq in Hab. subst.
  eauto.
Qed.

(** X2. Every content type that starts with [text/] is decoded as text,
    whatever follows. *)
Theorem detectResponseType_text s :
  Str.startsWith "text/" s = true -> detectResponseType s = RTtext.
Proof.
  intros H.
  apply startsWith_cons in H as (s1 & -> & H).
  apply startsWith_cons in H as (s2 & -> & H).
  apply startsWith_cons in H as (s3 & -> & H).
  apply startsWith_cons in H as (s4 & -> & H).
  apply startsWith_cons in H as (s5 & -> & _).
  unfold detectResponseType. cbn [Str.is_empty].
  change (Str.before ";" (String "t" (String "e" (String "x" (String "t" (String "/" s5))))))
    with (String "t" (String "e" (String "x" (String "t" (String "/" (Str.before ";" s5)))))).
  replace (JsonRe.test (String "t" (String "e" (String "x" (String "t"
                          (String "/" (Str.before ";" s5))))))) with false by reflexivity.
  replace (Str.startsWith "text/"
             (String "t" (String "e" (String "x" (String "t"
                (String "/" (Str.before ";" s5)))))))
    with true by reflexivity.
  now rewrite orb_true_r.
Qed.

Lemma detectResponseType_text_witness :
  detectResponseType "text/html; charset=utf-8" = RTtext.
Proof. apply detectResponseType_text. reflexivity. Defined.

Lemma upper_char_semicolon c :
  Ascii.eqb (Str.upper_char c) ";" = Ascii.eqb c ";".
Proof. destruct c as [[] [] [] [] [] [] [] []]; reflexivity. Qed.

Lemma before_toUpperCase s :
  Str.before ";" (Str.toUpperCase s) = Str.toUpperCase (Str.before ";" s).
Proof.
  induction s as [|c s IH]; [reflexivity|].
  unfold Str.toUpperCase in *. simpl. rewrite upper_char_semicolon.
  destruct (Ascii.eqb c ";"); [reflexivity|]. simpl. now rewrite IH.
Qed.

Lemma JsonRe_test_toUpperCase s : JsonRe.test (Str.toUpperCase s) = JsonRe.test s.
Proof. unfold JsonRe.test. now rewrite toLowerCase_toUpperCase. Qed.

(** X3. The JSON media types are recognised whatever the letter case: a
    content type detected as JSON is still detected as JSON when written in
    upper case. *)
Theorem detectResponseType_json_case s :
  detectResponseType s = RTjson ->
  detectResponseType (Str.toUpperCase s) = RTjson.
Proof.
  unfold detectResponseType. destruct s as [|c s]; [reflexivity|].
  cbn [Str.is_empty]. unfold Str.toUpperCase at 1. cbn [Str.map Str.is_empty].
  fold (Str.toUpperCase (String c s)).
  change (String (Str.upper_char c) (Str.map Str.upper_char s))
    with (Str.toUpperCase (String c s)).
  rewrite before_toUpperCase, JsonRe_test_toUpperCase.
  destruct (JsonRe.test (Str.before ";" (String c s))); [reflexivity|].
  destruct (set_has textTypes _ || _)%bool; discriminate.
Qed.

Lemma detectResponseType_json_case_witness :
  detectResponseType (Str.toUpperCase "application/vnd.api+json") = RTjson.
Proof. apply detectResponseType_json_case. vm_compute. reflexivity. Defined.

(** ** The hook runner *)

Lemma bind_assoc {A B C} (m : M A) (k1 : A -> M B) (k2 : B -> M C) s :
  bind (bind m k1) k2 s = bind m (fun a => bind (k1 a) k2) s.
Proof. unfold bind. destruct (m s); reflexivity. Qed.

Lemma bind_ext {A B} (m : M A) (k k' : A -> M B) s :
  (forall a s', k a s' = k' a s') -> bind m k s = bind m k' s.
Proof. intros H. unfold bind. destruct (m s); auto. Qed.

Section HookRunner.

Variable host : Host.

Lemma runHooks_app l1 l2 c s :
  runHooks host (l1 ++ l2) c s = bind (runHooks host l1 c) (runHooks host l2) s.
Proof.
  revert c s. induction l1 as [|h l1 IH]; intros c s; [reflexivity|].
  cbn [app runHooks]. rewrite bind_assoc. apply bind_ext. intros c1 s1. apply IH.
Qed.

(** X4. The hooks of a list run in order, each on the context the one
    before it left; a hook that throws ends the run with its error and the
    hooks after it are not called; a single callback and the list of that
    one callback behave alike. *)
Theorem callHooks_sequence c s :
  (forall l1 l2,
      callHooks host c (Some (HookList (l1 ++ l2))) s
      = bind (fun s0 => callHooks host c (Some (HookList l1)) s0)
             (fun c' s0 => callHooks host c' (Some (HookList l2)) s0) s)
  /\ (forall l1 h rest c' e,
        callHooks host c (Some (HookList l1)) s = Returned c' s ->
        callHook host h c' = Throws e ->
        callHooks host c (Some (HookList (l1 ++ h :: rest))) s = Rejected (ExnJs e) s)
  /\ (forall h,
        callHooks host c (Some (HookList [h])) s = callHooks host c (Some (HookOne h)) s).
Proof.
  split; [|split].
  - intros l1 l2. simpl. apply runHooks_app.
  - intros l1 h rest c' e H1 Hh. simpl in *. rewrite runHooks_app.
    unfold bind at 1. rewrite H1. simpl. unfold bind. now rewrite Hh.
  - intros h. simpl. unfold bind. destruct (callHook host h c); reflexivity.
Qed.

End HookRunner.

Lemma callHooks_sequence_witness :
  callHooks failingHookHost (mkContext (ReqString "/") noOptions None None)
            (Some (HookList ([0%nat] ++ 1%nat :: [0%nat]))) initialStore
  = Rejected (ExnJs hookError) initialStore.
Proof.
  apply (proj1 (proj2 (callHooks_sequence failingHookHost
                         (mkContext (ReqString "/") noOptions None None) initialStore))
           [0%nat] 1%nat [0%nat] (mkContext (ReqString "/") noOptions None None) hookError);
    reflexivity.
Defined.

(** ** Option resolution *)

Lemma orElse_absorb {A} (a b : Field A) : orElse (orElse a b) b = orElse a b.
Proof. destruct a, b; reflexivity. Qed.

(** The keys the resolution writes anew. *)
Lemma resolved_query_keys request input defaults :
  key_query (resolveFetchOptions request input defaults)
  = assigned (query (resolveFetchOptions request input defaults))
  /\ key_params (resolveFetchOptions request input defaults)
     = assigned (params (resolveFetchOptions request input defaults))
  /\ key_headers (resolveFetchOptions request input defaults)
     = given (headers (resolveFetchOptions request input defaults)).
Proof.
  unfold resolveFetchOptions. simpl. rewrite read_assigned. repeat split.
Qed.

Lemma resolved_query_eq request input defaults :
  query (resolveFetchOptions request input defaults)
  = if (bool_decide (is_Some (defaults ≫= query)) || bool_decide (is_Some (defaults ≫= params))
        || bool_decide (is_Some (input ≫= params)) || bool_decide (is_Some (input ≫= query)))%bool
    then
      Some (spreadRec
              (Some (spreadRec
                       (Some (spreadRec (defaults ≫= params) (defaults ≫= query)))
                       (input ≫= params)))
              (input ≫= query))
    else None.
Proof. unfold resolveFetchOptions. simpl. apply read_assigned. Qed.

(** X5. The query is the union of the four records given -- the per-call
    [query] winning over the per-call [params], over the default [query],
    over the default [params] --, it is exposed under both names, and it is
    left undefined exactly when none of the four is given. *)
Theorem resolveFetchOptions_query request input defaults :
  params (resolveFetchOptions request input defaults)
  = query (resolveFetchOptions request input defaults)
  /\ (query (resolveFetchOptions request input defaults) = None <->
      input ≫= query = None /\ input ≫= params = None
      /\ defaults ≫= query = None /\ defaults ≫= params = None)
  /\ (forall q k,
        query (resolveFetchOptions request input defaults) = Some q ->
        q !! k = firstOf k (input ≫= query) (input ≫= params)
                         (defaults ≫= query) (defaults ≫= params)).
Proof. apply resolved_query. Qed.

Lemma resolveFetchOptions_query_witness :
  spreadRec
    (Some (spreadRec
             (Some (spreadRec (Some {["b" := JNum 2]}) (Some {["a" := JNum 0]})))
             (Some {["c" := JNum 3]})))
    (Some {["a" := JNum 1]}) !! "a"
  = firstOf "a" (Some {["a" := JNum 1]}) (Some {["c" := JNum 3]})
            (Some {["a" := JNum 0]}) (Some {["b" := JNum 2]}).
Proof.
  refine (proj2 (proj2 (resolveFetchOptions_query (ReqString "/")
             (Some (with_query_params noOptions (Some {["a" := JNum 1]}) (Some {["c" := JNum 3]})))
             (Some (with_query_params noOptions (Some {["a" := JNum 0]}) (Some {["b" := JNum 2]})))))
            _ "a" _).
  vm_compute. reflexivity.
Defined.

Lemma options_ext (a b : FetchOptions) :
  key_baseURL a = key_baseURL b -> key_body a = key_body b ->
  key_ignoreResponseError a = key_ignoreResponseError b ->
  key_params a = key_params b -> key_query a = key_query b ->
  key_parseResponse a = key_parseResponse b -> key_responseType a = key_responseType b ->
  key_duplex a = key_duplex b -> key_timeout a = key_timeout b ->
  key_retry a = key_retry b ->
  key_retryDelay a = key_retryDelay b -> key_retryStatusCodes a = key_retryStatusCodes b ->
  key_method a = key_method b -> key_headers a = key_headers b ->
  key_signal a = key_signal b ->
  key_onRequest a = key_onRequest b -> key_onRequestError a = key_onRequestError b ->
  key_onResponse a = key_onResponse b -> key_onResponseError a = key_onResponseError b ->
  a = b.
Proof. destruct a, b; simpl; intros; subst; reflexivity. Qed.

Lemma lowerCased_union (L D : Headers.t) :
  lowerCased L -> lowerCased D -> lowerCased (L ∪ D).
Proof.
  intros HL HD k v H. apply lookup_union_Some_raw in H as [H|[_ H]]; eauto.
Qed.

Lemma union_absorb {V} (A B : gmap string V) : (A ∪ B) ∪ B = A ∪ B.
Proof.
  apply map_eq. intros k. rewrite !lookup_union.
  destruct (A !! k), (B !! k); reflexivity.
Qed.

(** Merging an already merged container over the same defaults changes
    nothing. *)
Lemma mergeHeaders_again (L : Headers.t) d :
  lowerCased L -> wellFormedInit d ->
  mergeHeaders (Some (HInstance (L ∪ new_Headers d))) d = L ∪ new_Headers d.
Proof.
  intros HL Hd. destruct d as [d|]; [|reflexivity].
  unfold mergeHeaders. cbn [isIterable iterate].
  rewrite setAll_entries.
  - apply union_absorb.
  - apply lowerCased_union; [exact HL | now apply lowerCased_new_Headers].
Qed.

(** X6. Option resolution is idempotent: resolving options that are
    already resolved, against the same defaults, gives them back
    unchanged (headers, query and params included). *)
Theorem resolveFetchOptions_idempotent request input defaults :
  wellFormedInit (callLayer request input) ->
  distinctNames (callLayer request input) ->
  wellFormedInit (defaults ≫= headers) ->
  resolveFetchOptions request (Some (resolveFetchOptions request input defaults)) defaults
  = resolveFetchOptions request input defaults.
Proof.
  intros Hwf Hnd Hd.
  assert (HH : headers (resolveFetchOptions request
                          (Some (resolveFetchOptions request input defaults)) defaults)
               = headers (resolveFetchOptions request input defaults)).
  { rewrite (resolveFetchOptions_headers request (Some _) defaults).
    unfold callLayer at 1. cbn [mbind option_bind].
    rewrite !resolveFetchOptions_headers, (mergeHeaders_union _ _ Hwf Hnd).
    rewrite mergeHeaders_again; [reflexivity | | exact Hd].
    now apply lowerCased_new_Headers. }
  assert (HQ : query (resolveFetchOptions request
                        (Some (resolveFetchOptions request input defaults)) defaults)
               = query (resolveFetchOptions request input defaults)).
  { destruct (resolved_query request input defaults) as (Hp & Hnone & _).
    rewrite (resolved_query_eq request (Some _) defaults).
    cbn [mbind option_bind]. rewrite Hp.
    destruct (query (resolveFetchOptions request input defaults)) as [q|] eqn:Eq.
    - rewrite (bool_decide_eq_true_2 (is_Some (Some q))) by eauto.
      rewrite !orb_true_r. f_equal.
      assert (Eq' : q = spreadRec
                      (Some (spreadRec
                               (Some (spreadRec (defaults ≫= params) (defaults ≫= query)))
                               (input ≫= params)))
                      (input ≫= query)).
      { rewrite resolved_query_eq in Eq.
        destruct (_ || _)%bool; [now injection Eq as <- | discriminate]. }
      rewrite Eq'. unfold spreadRec.
      set (A := default ∅ (input ≫= query)). set (B := default ∅ (input ≫= params)).
      set (C := default ∅ (defaults ≫= query)). set (D := default ∅ (defaults ≫= params)).
      cbn [from_option]. unfold id.
      apply map_eq. intros k. rewrite !lookup_union.
      destruct (A !! k), (B !! k), (C !! k), (D !! k); reflexivity.
    - destruct (proj1 Hnone eq_refl) as (_ & _ & -> & ->). reflexivity. }
  assert (HP : params (resolveFetchOptions request
                        (Some (resolveFetchOptions request input defaults)) defaults)
               = params (resolveFetchOptions request input defaults)).
  { rewrite (proj1 (resolved_query request (Some _) defaults)), HQ.
    symmetry. apply resolved_query. }
  destruct (resolved_query_keys request input defaults) as (Kq & Kp & Kh).
  destruct (resolved_query_keys request
              (Some (resolveFetchOptions request input defaults)) defaults)
    as (Kq' & Kp' & Kh').
  apply options_ext;
    try (rewrite Kq', Kq; now f_equal);
    try (rewrite Kp', Kp; now f_equal);
    try (rewrite Kh', Kh; now f_equal);
    unfold resolveFetchOptions; simpl; apply orElse_absorb.
Qed.

Lemma resolveFetchOptions_idempotent_witness :
  resolveFetchOptions (ReqString "/api")
    (Some (resolveFetchOptions (ReqString "/api") (Some barOptions) (defaults baseInstance)))
    (defaults baseInstance)
  = resolveFetchOptions (ReqString "/api") (Some barOptions) (defaults baseInstance).
Proof.
  refine (resolveFetchOptions_idempotent (ReqString "/api") (Some barOptions)
            (defaults baseInstance) _ _ _); exact I.
Defined.

(** ** Body preparation, further properties *)

Lemma defaultHeader_fixed (h : Headers.t) name value :
  Headers.has h name = true -> defaultHeader h name value = h.
Proof. unfold defaultHeader. now intros ->. Qed.

Lemma defaultHeader_has (h : Headers.t) name value :
  Headers.has (defaultHeader h name value) name = true.
Proof.
  unfold Headers.has. rewrite defaultHeader_same. apply bool_decide_eq_true_2. eauto.
Qed.

Lemma defaultHeader_keeps_has (h : Headers.t) name value other :
  Headers.has h other = true -> Headers.has (defaultHeader h name value) other = true.
Proof.
  unfold defaultHeader. destruct (Headers.has h name) eqn:E; [tauto|].
  unfold Headers.has, Headers.set. intros H. apply bool_decide_eq_true_1 in H.
  apply bool_decide_eq_true_2.
  destruct (decide (Str.toLowerCase name = Str.toLowerCase other)) as [->|Hne].
  - rewrite lookup_insert_eq. eauto.
  - now rewrite lookup_insert_ne.
Qed.

Lemma jsonDefaults_fixed (h : Headers.t) :
  let h2 := defaultHeader (defaultHeader h "content-type" "application/json")
                          "accept" "application/json" in
  defaultHeader (defaultHeader h2 "content-type" "application/json")
                "accept" "application/json" = h2.
Proof.
  intros h2.
  rewrite (defaultHeader_fixed h2 "content-type")
    by (apply defaultHeader_keeps_has, defaultHeader_has).
  apply defaultHeader_fixed, defaultHeader_has.
Qed.

(** X7. Body preparation is idempotent: preparing a context that is
    already prepared returns it as it is. The body is not encoded a
    second time, and the headers and the duplex mode stay as the first
    preparation left them. *)
Theorem prepareBody_idempotent (host : Host) c s c' s' :
  stringifiesToText host ->
  prepareBody host c s = Returned c' s' ->
  prepareBody host c' s' = Returned c' s'.
Proof.
  intros Hs. destruct c as [rq o rs er]. unfold prepareBody at 1. cbn [options].
  destruct (body o) as [b|] eqn:Eb.
  2:{ intros [= <- <-]. unfold prepareBody. cbn [options]. now rewrite Eb. }
  destruct (truthy b && isPayloadMethod (method o))%bool eqn:Et.
  2:{ intros [= <- <-]. unfold prepareBody. cbn [options]. now rewrite Eb, Et. }
  unfold bind at 1. destruct (isJSONSerializable b) as [[|]|e] eqn:Ej; simpl;
    [| |discriminate].
  - set (h2 := defaultHeader (defaultHeader (new_Headers (headers o)) _ _) _ _).
    assert (Htext : forall text,
              text = None \/ (exists t, text = Some (JStr t)) ->
              prepareBody host
                (mkContext rq (with_headers (with_body o text) (Some (HInstance h2))) rs er) s
              = Returned
                  (mkContext rq (with_headers (with_body o text) (Some (HInstance h2))) rs er) s).
    { intros text [->|[t ->]]; unfold prepareBody; destruct o; cbn.
      - reflexivity.
      - lazymatch goal with |- (if ?b then _ else _) _ = _ => destruct b end;
          [|reflexivity].
        unfold bind, ret. cbn. unfold with_options, with_headers, with_body. cbn.
        subst h2. cbn [headers]. rewrite jsonDefaults_fixed. reflexivity. }
    destruct b; unfold bind, ret; simpl;
      try (destruct (JSON_stringify host _) as [v|e] eqn:Ev; simpl; [|discriminate];
           destruct (Hs _ _ Ev) as [->|[t ->]]);
      intros [= <- <-]; apply Htext; eauto.
  - unfold bind at 1. destruct (isStreamBody b) as [[|]|e] eqn:Est; simpl; try discriminate.
    + destruct (present (key_duplex o)) eqn:Ed; intros [= <- <-].
      * unfold prepareBody. cbn [options]. rewrite Eb, Et. unfold bind at 1.
        rewrite Ej. simpl. unfold bind at 1. rewrite Est. simpl. now rewrite Ed.
      * unfold prepareBody. destruct o; cbn in *. rewrite Eb, Et. unfold bind at 1.
        rewrite Ej. simpl. unfold bind at 1. rewrite Est. reflexivity.
    + intros [= <- <-]. unfold prepareBody. cbn [options]. rewrite Eb, Et.
      unfold bind at 1. rewrite Ej. simpl. unfold bind at 1. now rewrite Est.
Qed.

Lemma prepareBody_idempotent_witness :
  prepareBody (sampleHost okTransport) preparedPostContext initialStore
  = Returned preparedPostContext initialStore.
Proof.
  refine (prepareBody_idempotent (sampleHost okTransport) postContext initialStore
            preparedPostContext initialStore _ _).
  - intros b v [= <-]. right. eexists. reflexivity.
  - vm_compute. reflexivity.
Defined.

(** ** Single attempts *)

Lemma abortReason_ext s s' sig :
  timerAborted s' = timerAborted s -> abortReason s' sig = abortReason s sig.
Proof. intros H. destruct sig as [[r|id]|]; simpl; [reflexivity | now rewrite H | reflexivity]. Qed.

Lemma deadlineOf_ext s s' sig :
  timers s' = timers s -> deadlineOf s' sig = deadlineOf s sig.
Proof. intros H. destruct sig as [[r|id]|]; simpl; [reflexivity | now rewrite H | reflexivity]. Qed.

Lemma armTimeout_store c s armed s' :
  armTimeout c s = Returned armed s' ->
  clock s' = clock s /\ timerAborted s' = timerAborted s /\ contexts s' = contexts s
  /\ calls s' = calls s /\ log s' = log s.
Proof.
  unfold armTimeout. destruct (negb _ && _)%bool; intros [= _ <-]; repeat split.
Qed.

(** The timer an attempt arms is due [timeout] milliseconds from then;
    an attempt that arms none leaves the context and the store alone. *)
Lemma armTimeout_timer c s c4 timer s' :
  armTimeout c s = Returned (c4, timer) s' ->
  match timer with
  | Some (id, ms) =>
      signal (options c4) = Some (TimerSignal id)
      /\ timers s' !! id = Some (clock s + Z.max 0 ms)
  | None => c4 = c /\ s' = s
  end.
Proof.
  unfold armTimeout. destruct (negb _ && _)%bool; intros [= <- <- <-].
  - split; [reflexivity|]. cbn [timers]. apply lookup_insert_eq.
  - split; reflexivity.
Qed.

(** ** Timers and the passing of time *)

Lemma tick_aborted ms s id e :
  timerAborted s !! id = Some e -> timerAborted (tick ms s) !! id = Some e.
Proof. intros H. unfold tick. cbn [timerAborted]. now apply lookup_union_Some_l. Qed.

Lemma abortReason_tick ms s sig e :
  abortReason s sig = Some e -> abortReason (tick ms s) sig = Some e.
Proof.
  destruct sig as [[r|id]|]; cbn [abortReason]; [tauto | apply tick_aborted | tauto].
Qed.

Lemma tick_clock ms s : clock (tick ms s) = clock s + Z.max 0 ms.
Proof. reflexivity. Qed.

(** As time passes, a timer that is due stays armed until it is due and
    then aborts its token with the timeout error. *)
Lemma timerDue_tick id due ms s : timerDue id due s -> timerDue id due (tick ms s).
Proof.
  intros [Hbefore Hafter].
  destruct (Z.lt_ge_cases (clock s) due) as [Hlt|Hge].
  - destruct (Hbefore Hlt) as [Ht Ha]. split; rewrite tick_clock; intros H.
    + unfold tick. cbn [timers timerAborted]. split.
      * apply map_lookup_filter_Some. split; [exact Ht | exact H].
      * apply lookup_union_None. split; [exact Ha|].
        rewrite lookup_fmap. apply fmap_None. apply map_lookup_filter_None. right.
        intros x Hx. rewrite Ht in Hx. injection Hx as <-. cbn. lia.
    + unfold tick. cbn [timerAborted]. rewrite lookup_union_r by exact Ha.
      rewrite lookup_fmap. apply fmap_Some. exists due. split; [|reflexivity].
      apply map_lookup_filter_Some. split; [exact Ht | exact H].
  - split; rewrite tick_clock; intros H; [lia|]. now apply tick_aborted, Hafter.
Qed.

Lemma timerDue_armed id due ms s :
  timers s !! id = Some due -> timerAborted s !! id = None -> clock s <= due ->
  timerDue id due (tick ms s).
Proof.
  intros Ht Ha Hle. split; rewrite tick_clock; intros H.
  - unfold tick. cbn [timers timerAborted]. split.
    + apply map_lookup_filter_Some. split; [exact Ht | exact H].
    + apply lookup_union_None. split; [exact Ha|].
      rewrite lookup_fmap. apply fmap_None. apply map_lookup_filter_None. right.
      intros x Hx. rewrite Ht in Hx. injection Hx as <-. cbn. lia.
  - unfold tick. cbn [timerAborted]. rewrite lookup_union_r by exact Ha.
    rewrite lookup_fmap. apply fmap_Some. exists due. split; [|reflexivity].
    apply map_lookup_filter_Some. split; [exact Ht | exact H].
Qed.

Lemma clearTimeout_store timer s :
  clock (clearTimeout timer s) = clock s /\ calls (clearTimeout timer s) = calls s
  /\ log (clearTimeout timer s) = log s /\ contexts (clearTimeout timer s) = contexts s
  /\ timerAborted (clearTimeout timer s) = timerAborted s.
Proof. destruct timer as [[id ms]|]; repeat split. Qed.

Lemma finally_none {A} (m : M A) s : finally m (clearTimeout None) s = m s.
Proof. unfold finally. now destruct (m s). Qed.

Section Attempt.

Variable host : Host.
Variable g : CreateFetchOptions.
Hypothesis Hhooks : hooksTransparent host.

Lemma runHooks_transparent hs c s : runHooks host hs c s = Returned c s.
Proof.
  revert c s. induction hs as [|h hs IH]; intros c s; [reflexivity|].
  cbn [runHooks]. unfold bind. rewrite Hhooks. cbn. apply IH.
Qed.

Lemma callHooks_transparent c hooks s : callHooks host c hooks s = Returned c s.
Proof.
  destruct hooks as [[h|hs]|]; cbn;
    [now rewrite Hhooks | apply runHooks_transparent | reflexivity].
Qed.

(** With the context prepared, what is left of the pipeline is the
    timer, the transport and the evaluation of what it settled with. *)
Lemma fetchRaw_prepared fuel req opts s c3 :
  prepareBody host (assembleURL host (upperCaseMethod (buildContext g req opts))) (started s)
    = Returned c3 (started s) ->
  fetchRaw host g (S fuel) req opts s
  = bind (armTimeout c3)
         (fun armed =>
            bind (awaitFetch host g (contexts s) (fst armed))
                 (afterTransport host (fetchRaw host g fuel) (contexts s) (snd armed)
                    (fst armed)))
         (started s).
Proof.
  intros H. unfold fetchRaw; fold (fetchRaw host g).
  unfold bind at 1, newContextId. fold (started s).
  rewrite (bind_returned _ _ _ _ _ (callHooks_transparent _ _ _)).
  now rewrite (bind_returned _ _ _ _ _ H).
Qed.

(** The transport settles in time: the pipeline goes on with what it
    settled with, one invocation and [lat] milliseconds later, the timer
    of the attempt still being due. *)
Lemma fetchRaw_settled fuel req opts s c4 timer lat out settled :
  reachesTransport host g req opts s c4 timer ->
  theFetch host g (calls s) (request c4) (options c4) = out ->
  (exists r, out = Responds lat r /\ settled = Normal r)
  \/ (exists e, out = Fails lat e /\ settled = Throws e) ->
  inTime timer lat ->
  exists s5,
    fetchRaw host g (S fuel) req opts s
    = afterTransport host (fetchRaw host g fuel) (contexts s) timer c4 settled s5
    /\ calls s5 = S (calls s)
    /\ clock s5 = clock s + Z.max 0 lat
    /\ (forall id ms, timer = Some (id, ms) ->
          signal (options c4) = Some (TimerSignal id)
          /\ timerDue id (clock s + Z.max 0 ms) s5).
Proof.
  intros (c3 & s4 & Hprep & Harm & Hsig & Hdl) Hout Hcase Htime.
  rewrite (fetchRaw_prepared fuel req opts s c3 Hprep).
  rewrite (bind_returned _ _ _ _ _ Harm). cbn [fst snd].
  destruct (armTimeout_store _ _ _ _ Harm) as (Hclock & Habort & _ & Hcalls & _).
  cbn [started clock timerAborted calls] in Hclock, Habort, Hcalls.
  pose proof (armTimeout_timer _ _ _ _ _ Harm) as Ht.
  assert (Hgo : exists s5,
             awaitFetch host g (contexts s) c4 s4 = Returned settled s5
             /\ calls s5 = S (calls s) /\ clock s5 = clock s + Z.max 0 lat
             /\ (forall id ms, timer = Some (id, ms) ->
                   signal (options c4) = Some (TimerSignal id)
                   /\ timerDue id (clock s + Z.max 0 ms) s5)).
  { unfold awaitFetch.
    rewrite (abortReason_ext s _ (signal (options c4))) by exact Habort.
    rewrite Hsig, Hcalls, Hout.
    set (s4' := record _ _).
    assert (Hset : settle (signal (options c4)) lat settled s4'
                   = Returned settled (tick lat s4')).
    { unfold settle. destruct timer as [[id ms]|].
      - destruct Ht as [-> Ht]. cbn [deadlineOf]. subst s4'. cbn [record timers clock].
        rewrite Ht, Hclock. cbn [started clock].
        specialize (Htime id ms eq_refl).
        now rewrite (proj2 (Z.ltb_lt _ _)) by lia.
      - destruct Ht as [-> ->].
        rewrite (deadlineOf_ext s) by reflexivity. now rewrite (Hdl eq_refl). }
    exists (tick lat s4').
    split; [destruct Hcase as [(r & -> & ->)|(e & -> & ->)]; exact Hset|].
    split; [reflexivity|]. split; [cbn; now rewrite Hclock|].
    intros id ms ->. destruct Ht as [Hs Ht]. split; [exact Hs|].
    apply timerDue_armed.
    - exact Ht.
    - rewrite Hs in Hsig. cbn in Hsig. subst s4'. cbn [record timerAborted].
      now rewrite Habort.
    - subst s4'. cbn [record clock]. rewrite Hclock. cbn [started clock]. lia. }
  destruct Hgo as (s5 & Hs5 & H1 & H2 & H3).
  exists s5. split; [|split; [|split]]; try assumption.
  now rewrite (bind_returned _ _ _ _ _ Hs5).
Qed.

(** The decoding step, for a response the configured parser accepts. *)
Lemma decodeResponse_result id c r s :
  parses host c r ->
  exists r' s',
    decodeResponse host id (with_response c (Some r)) r s
    = Returned (with_response c (Some r')) s'
    /\ calls s' = calls s /\ clock s' = clock s
    /\ decodedResponse host c r r'.
Proof.
  intros Hp. unfold decodeResponse.
  change (hasBody (with_response c (Some r)) r) with (hasBody c r).
  destruct (hasBody c r) eqn:Hb.
  2:{ exists r, s. split; [reflexivity|]. split; [reflexivity|]. split; [reflexivity|].
      split; [reflexivity | rewrite Hb; discriminate]. }
  assert (Hv : exists v,
            (match responseTypeOf (with_response c (Some r)) r with
             | RTjson =>
                 match parseResponse (options (with_response c (Some r))) with
                 | Some p => liftC (callParse host p (res_text r))
                 | None => ret (destr host (res_text r))
                 end
             | RTstream => ret (if truthy (res_body r) then res_body r else _bodyInit r)
             | RTtext => ret (JStr (res_text r))
             | RTblob => ret (res_blob r)
             | RTarrayBuffer => ret (res_arrayBuffer r)
             end) s = Returned v s /\ decodedAs host c r v).
  { unfold responseTypeOf, decodedAs. cbn [options with_response].
    destruct (parseResponse (options c)) as [p|] eqn:Ep.
    - destruct (Hp p Ep) as [v Hv]. exists v. rewrite Hv. split; reflexivity.
    - destruct (responseType (options c)) as [t|]; simpl;
        [destruct t | destruct (detectResponseType _)];
        eexists; split; reflexivity. }
  destruct Hv as (v & Hv & Hdec).
  exists (set_data r v), (record (EvDecoded id v) s).
  split; [rewrite (bind_returned _ _ _ _ _ Hv); reflexivity|].
  split; [reflexivity|]. split; [reflexivity|].
  split; [rewrite Hb; discriminate|].
  intros _. exists v. split; [reflexivity | exact Hdec].
Qed.

(** A response that is not an error for the caller is returned, with
    the retry handler left alone. *)
Lemma afterTransport_returns self id timer c r s :
  parses host c r ->
  ignoreResponseError (options c) = Some true \/ isErrorStatus r = false ->
  exists r' s',
    afterTransport host self id timer c (Normal r) s = Returned (Some r') s'
    /\ calls s' = calls s /\ clock s' = clock s
    /\ decodedResponse host c r r'.
Proof.
  intros Hp Hok.
  destruct (decodeResponse_result id c r (clearTimeout timer s) Hp)
    as (r' & s' & Hd & Hc & Hk & Hr).
  destruct (clearTimeout_store timer s) as (Kk & Kc & _).
  rewrite Kc in Hc. rewrite Kk in Hk.
  exists r', s'. split; [|split; [exact Hc|split; [exact Hk|exact Hr]]].
  unfold afterTransport. unfold bind at 1, modify. rewrite (bind_returned _ _ _ _ _ Hd).
  rewrite (bind_returned _ _ _ _ _ (callHooks_transparent _ _ _)).
  cbn [options with_response response].
  destruct Hok as [->|Hst]; [reflexivity|].
  destruct (default false (ignoreResponseError (options c))); [reflexivity|].
  unfold theResponse. cbn [response with_response]. unfold bind at 1, ret.
  assert (Hs : isErrorStatus r' = isErrorStatus r).
  { destruct Hr as [H0 H1]. destruct (hasBody c r).
    - destruct (H1 eq_refl) as (v & -> & _). reflexivity.
    - now rewrite (H0 eq_refl). }
  now rewrite Hs, Hst.
Qed.

End Attempt.

Lemma upperCaseMethod_fresh c :
  response (upperCaseMethod c) = response c /\ error (upperCaseMethod c) = error c.
Proof. unfold upperCaseMethod. destruct (truthyStr _); split; reflexivity. Qed.

(** The context the transport is invoked with carries neither a response
    nor an error yet. *)
Lemma reachesTransport_fresh host g req opts s c4 timer :
  reachesTransport host g req opts s c4 timer ->
  response c4 = None /\ error c4 = None.
Proof.
  intros (c3 & s4 & Hprep & Harm & _).
  destruct (prepareBody_keeps host _ _ _ _ Hprep) as (_ & Hr & He & _).
  destruct (assembleURL_keeps host (upperCaseMethod (buildContext g req opts)))
    as (Hr' & He' & _).
  destruct (upperCaseMethod_fresh (buildContext g req opts)) as [Hr'' He''].
  assert (H3 : response c3 = None /\ error c3 = None).
  { split; [rewrite Hr, Hr', Hr'' | rewrite He, He', He'']; reflexivity. }
  revert Harm. unfold armTimeout.
  destruct (negb _ && _)%bool; intros [= <- _ _]; exact H3.
Qed.

(** A handler that has a reason to give up raises the normalized
    error. *)
Lemma onErrorAction_givesUp host c :
  givesUp c (responseCode c) -> onErrorAction host c = Raise (createFetchError c).
Proof.
  intros [H|[H|H]]; unfold onErrorAction.
  - now rewrite H.
  - destruct (retryNotFalse _ && _)%bool; [|reflexivity].
    destruct (Z.ltb_spec 0 (retries c)); [lia | reflexivity].
  - destruct (retryNotFalse _ && _)%bool; [|reflexivity].
    assert (Hm : retryStatusMatches c = false).
    { unfold retryStatusMatches. unfold configuredRetryStatuses in H.
      destruct (retryStatusCodes (options c)) as [codes|];
        apply not_true_is_false; intros E; apply H; apply includes_In in E; exact E. }
    rewrite Hm. now rewrite andb_false_r.
Qed.

Lemma onErrorAction_abort host c :
  isAbort c = true -> onErrorAction host c = Raise (createFetchError c).
Proof. intros H. unfold onErrorAction. rewrite H. now rewrite andb_false_r. Qed.

(** A handler that retries re-enters the pipeline once the delay has
    passed. *)
Lemma onError_retries_at host self c s :
  retry (options c) <> Some RetryFalse ->
  isAbort c = false ->
  0 < retries c ->
  In (responseCode c) (configuredRetryStatuses c) ->
  onError host self c s
  = self (request c) (Some (with_retry (options c) (Some (RetryNum (retries c - 1)))))
      (if 0 <? retryDelayOf host c
       then record (EvDelay (retryDelayOf host c)) (tick (retryDelayOf host c) s)
       else s).
Proof.
  intros Hr Ha Hpos Hin.
  assert (E : onErrorAction host c
              = RetryWith (retryDelayOf host c) (request c)
                  (with_retry (options c) (Some (RetryNum (retries c - 1))))).
  { unfold onErrorAction. rewrite Ha.
    assert (Hn : retryNotFalse (retry (options c)) = true).
    { destruct (retry (options c)) as [[|n]|]; try reflexivity. now contradiction Hr. }
    rewrite Hn. cbn [andb negb].
    assert (Hm : retryStatusMatches c = true).
    { unfold retryStatusMatches. unfold configuredRetryStatuses in Hin.
      destruct (retryStatusCodes (options c)) as [codes|];
        apply includes_In; exact Hin. }
    rewrite Hm. now rewrite (proj2 (Z.ltb_lt 0 (retries c)) Hpos). }
  unfold onError. rewrite E. destruct (0 <? retryDelayOf host c); reflexivity.
Qed.

Lemma onError_retries host self c s :
  retry (options c) <> Some RetryFalse ->
  isAbort c = false ->
  0 < retries c ->
  In (responseCode c) (configuredRetryStatuses c) ->
  exists s',
    onError host self c s
    = self (request c) (Some (with_retry (options c) (Some (RetryNum (retries c - 1))))) s'
    /\ calls s' = calls s
    /\ clock s' = clock s + Z.max 0 (retryDelayOf host c).
Proof.
  intros Hr Ha Hpos Hin. eexists. split; [now apply onError_retries_at|].
  destruct (Z.ltb_spec 0 (retryDelayOf host c)); cbn; split; try reflexivity; lia.
Qed.

Section Outcomes.

Variable host : Host.
Variable g : CreateFetchOptions.
Hypothesis Hhooks : hooksTransparent host.

(** X8. With hooks that only observe, a call whose transport answers in
    time with a response that is not an error for the caller (its status
    is outside 400..599, or [ignoreResponseError] is set) returns that
    response after a single transport invocation and the transport's
    latency, with the decoded value in its data slot when it has a body;
    [$fetch] resolves to that value. Nothing is retried. *)
Theorem fetchRaw_first_response fuel req opts s c4 timer lat r :
  reachesTransport host g req opts s c4 timer ->
  theFetch host g (calls s) (request c4) (options c4) = Responds lat r ->
  inTime timer lat ->
  parses host c4 r ->
  ignoreResponseError (options c4) = Some true \/ isErrorStatus r = false ->
  exists r' s',
    fetchRaw host g (S fuel) req opts s = Returned (Some r') s'
    /\ ofetch host g (S fuel) req opts s = Returned (_data r') s'
    /\ calls s' = S (calls s)
    /\ clock s' = clock s + Z.max 0 lat
    /\ decodedResponse host c4 r r'.
Proof.
  intros Hreach Hout Htime Hp Hok.
  destruct (fetchRaw_settled host g Hhooks fuel req opts s c4 timer lat _ (Normal r)
              Hreach Hout (or_introl (ex_intro _ r (conj eq_refl eq_refl))) Htime)
    as (s5 & E & Hc & Hk & _).
  destruct (afterTransport_returns host Hhooks (fetchRaw host g fuel) (contexts s) timer
              c4 r s5 Hp Hok) as (r' & s' & E' & Hc' & Hk' & Hr).
  assert (Hraw : fetchRaw host g (S fuel) req opts s = Returned (Some r') s')
    by (rewrite E; exact E').
  exists r', s'. split; [exact Hraw|].
  split; [unfold ofetch; now rewrite (bind_returned _ _ _ _ _ Hraw)|].
  split; [congruence|]. split; [congruence | exact Hr].
Qed.

(** An error response the retry handler gives up on. *)
Lemma afterTransport_raises self id timer c r s :
  response c = None -> error c = None ->
  parses host c r ->
  ignoreResponseError (options c) <> Some true ->
  isErrorStatus r = true ->
  givesUp c (status r) ->
  exists e r' s',
    afterTransport host self id timer c (Normal r) s = Rejected (ExnFetch e) s'
    /\ e = createFetchError (with_response c (Some r'))
    /\ calls s' = calls s /\ clock s' = clock s
    /\ decodedResponse host c r r'.
Proof.
  intros Hnr Hne Hp Hign Herr Hgive.
  destruct (decodeResponse_result host id c r (clearTimeout timer s) Hp)
    as (r' & s' & Hd & Hc & Hk & Hr).
  destruct (clearTimeout_store timer s) as (Kk & Kc & _).
  rewrite Kc in Hc. rewrite Kk in Hk.
  assert (Hst : status r' = status r).
  { destruct Hr as [H0 H1]. destruct (hasBody c r).
    - destruct (H1 eq_refl) as (v & -> & _). reflexivity.
    - now rewrite (H0 eq_refl). }
  exists (createFetchError (with_response c (Some r'))), r', s'.
  split; [|split; [reflexivity|split; [exact Hc|split; [exact Hk|exact Hr]]]].
  unfold afterTransport. unfold bind at 1, modify. rewrite (bind_returned _ _ _ _ _ Hd).
  rewrite (bind_returned _ _ _ _ _ (callHooks_transparent host Hhooks _ _ _)).
  cbn [options with_response response].
  assert (Hi : default false (ignoreResponseError (options c)) = false).
  { destruct (ignoreResponseError (options c)) as [[|]|]; try reflexivity.
    now contradiction Hign. }
  rewrite Hi. unfold theResponse. cbn [response with_response]. unfold bind at 1, ret.
  assert (Hs : isErrorStatus r' = true) by (unfold isErrorStatus in *; now rewrite Hst).
  rewrite Hs. rewrite (bind_returned _ _ _ _ _ (callHooks_transparent host Hhooks _ _ _)).
  unfold onError. rewrite onErrorAction_givesUp; [reflexivity|].
  assert (Hcode : responseCode (with_response c (Some r')) = status r).
  { unfold responseCode. cbn [response with_response]. rewrite Hst.
    unfold isErrorStatus in Herr. apply andb_prop in Herr as [H4 _].
    apply Z.leb_le in H4. destruct (Z.eqb_spec (status r) 0); [lia | reflexivity]. }
  rewrite Hcode. exact Hgive.
Qed.

(** X9. With hooks that only observe, a call whose transport answers in
    time with an error status (400..599), and whose retry handler gives
    up (retry disabled, budget used up, or a status that is not a retry
    status, such as 404 under the defaults), rejects after that single
    transport invocation with a normalized error that has no cause and
    carries the response's status, status text and decoded data. *)
Theorem fetchRaw_error_response fuel req opts s c4 timer lat r :
  reachesTransport host g req opts s c4 timer ->
  theFetch host g (calls s) (request c4) (options c4) = Responds lat r ->
  inTime timer lat ->
  parses host c4 r ->
  ignoreResponseError (options c4) <> Some true ->
  isErrorStatus r = true ->
  givesUp c4 (status r) ->
  exists e r' s',
    fetchRaw host g (S fuel) req opts s = Rejected (ExnFetch e) s'
    /\ fe_cause e = None
    /\ fe_status e = Some (status r)
    /\ fe_statusText e = Some (statusText r)
    /\ fe_data e = _data r'
    /\ decodedResponse host c4 r r'
    /\ calls s' = S (calls s)
    /\ clock s' = clock s + Z.max 0 lat.
Proof.
  intros Hreach Hout Htime Hp Hign Herr Hgive.
  destruct (reachesTransport_fresh _ _ _ _ _ _ _ Hreach) as [Hnr Hne].
  destruct (fetchRaw_settled host g Hhooks fuel req opts s c4 timer lat _ (Normal r)
              Hreach Hout (or_introl (ex_intro _ r (conj eq_refl eq_refl))) Htime)
    as (s5 & E & Hc & Hk & _).
  destruct (afterTransport_raises (fetchRaw host g fuel) (contexts s) timer c4 r s5
              Hnr Hne Hp Hign Herr Hgive) as (e & r' & s' & E' & -> & Hc' & Hk' & Hr).
  assert (Hfields : status r' = status r /\ statusText r' = statusText r).
  { destruct Hr as [H0 H1]. destruct (hasBody c4 r).
    - destruct (H1 eq_refl) as (v & -> & _). split; reflexivity.
    - rewrite (H0 eq_refl). split; reflexivity. }
  destruct Hfields as [Hst Htx].
  eexists _, r', s'. split; [rewrite E; exact E'|].
  split; [exact Hne|].
  split; [cbn; now rewrite Hst|]. split; [cbn; now rewrite Htx|].
  split; [reflexivity|]. split; [exact Hr|]. split; congruence.
Qed.

(** X10. With hooks that only observe, a call whose transport fails in
    time, and whose retry handler gives up (retry disabled, budget used
    up, 500 not among the retry statuses, or a cancellation by the caller,
    that is an AbortError with no timeout configured), rejects after that
    single transport invocation with a normalized error whose cause is the
    transport's error and which carries no response. *)
Theorem fetchRaw_transport_failure fuel req opts s c4 timer lat e :
  reachesTransport host g req opts s c4 timer ->
  theFetch host g (calls s) (request c4) (options c4) = Fails lat e ->
  inTime timer lat ->
  givesUp c4 500
  \/ (err_name e = "AbortError" /\ truthyNum (timeout (options c4)) = false) ->
  exists fe s',
    fetchRaw host g (S fuel) req opts s = Rejected (ExnFetch fe) s'
    /\ fe_cause fe = Some e
    /\ fe_status fe = None
    /\ fe_data fe = None
    /\ calls s' = S (calls s)
    /\ clock s' = clock s + Z.max 0 lat.
Proof.
  intros Hreach Hout Htime Hgive.
  destruct (reachesTransport_fresh _ _ _ _ _ _ _ Hreach) as [Hnr Hne].
  destruct (fetchRaw_settled host g Hhooks fuel req opts s c4 timer lat _ (Throws e)
              Hreach Hout (or_intror (ex_intro _ e (conj eq_refl eq_refl))) Htime)
    as (s5 & E & Hc & Hk & _).
  destruct (clearTimeout_store timer s5) as (Kk & Kc & _).
  exists (createFetchError (with_error c4 (Some e))), (clearTimeout timer s5).
  split; [|split; [reflexivity|split; [cbn; now rewrite Hnr|split; [cbn; now rewrite Hnr|
           split; congruence]]]].
  rewrite E. unfold afterTransport, finally.
  rewrite (bind_returned _ _ _ _ _ (callHooks_transparent host Hhooks _ _ _)).
  unfold onError.
  assert (Hact : onErrorAction host (with_error c4 (Some e))
                 = Raise (createFetchError (with_error c4 (Some e)))).
  { destruct Hgive as [Hg|[Hn Ht]].
    - apply onErrorAction_givesUp.
      unfold responseCode. cbn [response with_error]. rewrite Hnr. exact Hg.
    - apply onErrorAction_abort. unfold isAbort. cbn [error with_error options].
      rewrite Hn, Ht. reflexivity. }
  now rewrite Hact.
Qed.

(** X11. With hooks that only observe, a call whose transport fails in
    time with anything but a cancellation by the caller, under a positive
    retry budget and with 500 among the retry statuses, goes on as a new
    call: on the request as the first attempt sent it (base URL and query
    applied), with the options as the first attempt sent them (prepared
    body, headers, and the cancellation token) and the budget one lower,
    once the retry delay has passed. The timer of the failed attempt, if
    it armed one, is cleared only when that new call has settled: the
    token the new call inherits is still due [timeout] milliseconds after
    the first attempt began, and is aborted with the timeout error from
    then on. Without a timer the call is that new call. *)
Theorem fetchRaw_retries_failure fuel req opts s c4 timer lat e :
  reachesTransport host g req opts s c4 timer ->
  theFetch host g (calls s) (request c4) (options c4) = Fails lat e ->
  inTime timer lat ->
  retry (options c4) <> Some RetryFalse ->
  0 < retries c4 ->
  In 500 (configuredRetryStatuses c4) ->
  err_name e <> "AbortError" \/ truthyNum (timeout (options c4)) = true ->
  exists s',
    fetchRaw host g (S fuel) req opts s
    = finally
        (fetchRaw host g fuel (request c4)
           (Some (with_retry (options c4) (Some (RetryNum (retries c4 - 1))))))
        (clearTimeout timer) s'
    /\ calls s' = S (calls s)
    /\ clock s' = clock s + Z.max 0 lat + Z.max 0 (retryDelayOf host (with_error c4 (Some e)))
    /\ (timer = None ->
        fetchRaw host g (S fuel) req opts s
        = fetchRaw host g fuel (request c4)
            (Some (with_retry (options c4) (Some (RetryNum (retries c4 - 1))))) s')
    /\ (forall id ms, timer = Some (id, ms) ->
          signal (options c4) = Some (TimerSignal id)
          /\ timerDue id (clock s + Z.max 0 ms) s').
Proof.
  intros Hreach Hout Htime Hr Hpos Hin Hna.
  destruct (reachesTransport_fresh _ _ _ _ _ _ _ Hreach) as [Hnr Hne].
  destruct (fetchRaw_settled host g Hhooks fuel req opts s c4 timer lat _ (Throws e)
              Hreach Hout (or_intror (ex_intro _ e (conj eq_refl eq_refl))) Htime)
    as (s5 & E & Hc & Hk & Hdue).
  assert (Ha : isAbort (with_error c4 (Some e)) = false).
  { unfold isAbort. cbn [error with_error options].
    destruct Hna as [Hn|Ht]; [|rewrite Ht; now rewrite andb_false_r].
    destruct (String.eqb_spec (err_name e) "AbortError"); [contradiction | reflexivity]. }
  set (d := retryDelayOf host (with_error c4 (Some e))).
  set (s' := if 0 <? d then record (EvDelay d) (tick d s5) else s5).
  assert (E' : fetchRaw host g (S fuel) req opts s
               = finally
                   (fetchRaw host g fuel (request c4)
                      (Some (with_retry (options c4) (Some (RetryNum (retries c4 - 1))))))
                   (clearTimeout timer) s').
  { rewrite E. unfold afterTransport, finally.
    rewrite (bind_returned _ _ _ _ _ (callHooks_transparent host Hhooks _ _ _)).
    rewrite onError_retries_at; try assumption; [reflexivity|].
    unfold responseCode. cbn [response with_error]. rewrite Hnr. exact Hin. }
  exists s'. split; [exact E'|]. split; [|split; [|split]].
  - subst s'. destruct (0 <? d); [cbn [record calls tick]|]; exact Hc.
  - subst s'. destruct (Z.ltb_spec 0 d); [cbn [record clock tick]|]; lia.
  - intros ->. rewrite E'. apply finally_none.
  - intros id ms Ht. destruct (Hdue id ms Ht) as [Hs Hd]. split; [exact Hs|].
    subst s'. destruct (0 <? d); [|exact Hd].
    exact (timerDue_tick id _ d s5 Hd).
Qed.

End Outcomes.

Lemma fetchRaw_first_response_witness :
  exists r' s',
    fetchRaw (sampleHost okTransport) noGlobalOptions 1
      (ReqString "http://localhost/ok") None initialStore = Returned (Some r') s'
    /\ ofetch (sampleHost okTransport) noGlobalOptions 1
         (ReqString "http://localhost/ok") None initialStore = Returned (_data r') s'
    /\ calls s' = S (calls initialStore)
    /\ clock s' = clock initialStore + Z.max 0 5
    /\ decodedResponse (sampleHost okTransport)
         (plainContext (sampleHost okTransport) None) okResponse r'.
Proof.
  refine (fetchRaw_first_response (sampleHost okTransport) noGlobalOptions _ 0
            (ReqString "http://localhost/ok") None initialStore
            (plainContext (sampleHost okTransport) None) None 5 okResponse _ _ _ _ _).
  - intros h c. reflexivity.
  - exists (plainContext (sampleHost okTransport) None), (started initialStore).
    split; [vm_compute; reflexivity|]. split; [vm_compute; reflexivity|].
    split; [vm_compute; reflexivity | intros _; vm_compute; reflexivity].
  - reflexivity.
  - intros id ms E. discriminate E.
  - intros p _. eexists. reflexivity.
  - right. vm_compute. reflexivity.
Defined.

Lemma fetchRaw_error_response_witness :
  exists e r' s',
    fetchRaw (sampleHost notFoundTransport) noGlobalOptions 1
      (ReqString "http://localhost/ok") None initialStore = Rejected (ExnFetch e) s'
    /\ fe_cause e = None
    /\ fe_status e = Some (status notFoundResponse)
    /\ fe_statusText e = Some (statusText notFoundResponse)
    /\ fe_data e = _data r'
    /\ decodedResponse (sampleHost notFoundTransport)
         (plainContext (sampleHost notFoundTransport) None) notFoundResponse r'
    /\ calls s' = S (calls initialStore)
    /\ clock s' = clock initialStore + Z.max 0 5.
Proof.
  refine (fetchRaw_error_response (sampleHost notFoundTransport) noGlobalOptions _ 0
            (ReqString "http://localhost/ok") None initialStore
            (plainContext (sampleHost notFoundTransport) None) None 5 notFoundResponse
            _ _ _ _ _ _ _).
  - intros h c. reflexivity.
  - exists (plainContext (sampleHost notFoundTransport) None), (started initialStore).
    split; [vm_compute; reflexivity|]. split; [vm_compute; reflexivity|].
    split; [vm_compute; reflexivity | intros _; vm_compute; reflexivity].
  - reflexivity.
  - intros id ms E. discriminate E.
  - intros p _. eexists. reflexivity.
  - vm_compute. discriminate.
  - vm_compute. reflexivity.
  - right. right. apply (proj1 (not_iff_compat (includes_In _ _))).
    vm_compute. discriminate.
Defined.

Lemma fetchRaw_transport_failure_witness :
  exists fe s',
    fetchRaw (sampleHost refusingTransport) noGlobalOptions 1
      (ReqString "http://localhost/ok") (Some (with_retry noOptions (Some (RetryNum 0))))
      initialStore = Rejected (ExnFetch fe) s'
    /\ fe_cause fe = Some refusedError
    /\ fe_status fe = None
    /\ fe_data fe = None
    /\ calls s' = S (calls initialStore)
    /\ clock s' = clock initialStore + Z.max 0 3.
Proof.
  refine (fetchRaw_transport_failure (sampleHost refusingTransport) noGlobalOptions _ 0
            (ReqString "http://localhost/ok") (Some (with_retry noOptions (Some (RetryNum 0))))
            initialStore
            (plainContext (sampleHost refusingTransport)
               (Some (with_retry noOptions (Some (RetryNum 0)))))
            None 3 refusedError _ _ _ _).
  - intros h c. reflexivity.
  - exists (plainContext (sampleHost refusingTransport)
              (Some (with_retry noOptions (Some (RetryNum 0))))), (started initialStore).
    split; [vm_compute; reflexivity|]. split; [vm_compute; reflexivity|].
    split; [vm_compute; reflexivity | intros _; vm_compute; reflexivity].
  - reflexivity.
  - intros id ms E. discriminate E.
  - left. right. left. vm_compute. discriminate.
Defined.

Lemma fetchRaw_retries_failure_witness :
  exists s',
    fetchRaw (sampleHost refusingThenSilent) noGlobalOptions 2
      (ReqString "http://localhost/ok") (Some timeoutOneRetryOptions) initialStore
    = finally
        (fetchRaw (sampleHost refusingThenSilent) noGlobalOptions 1
           (request (timedContext (sampleHost refusingThenSilent)))
           (Some (with_retry (options (timedContext (sampleHost refusingThenSilent)))
                    (Some (RetryNum (retries (timedContext (sampleHost refusingThenSilent))
                                     - 1))))))
        (clearTimeout (Some (0%nat, 100))) s'
    /\ calls s' = S (calls initialStore)
    /\ clock s' = clock initialStore + Z.max 0 3
                  + Z.max 0 (retryDelayOf (sampleHost refusingThenSilent)
                               (with_error (timedContext (sampleHost refusingThenSilent))
                                  (Some refusedError)))
    /\ (Some (0%nat, 100) = None ->
        fetchRaw (sampleHost refusingThenSilent) noGlobalOptions 2
          (ReqString "http://localhost/ok") (Some timeoutOneRetryOptions) initialStore
        = fetchRaw (sampleHost refusingThenSilent) noGlobalOptions 1
            (request (timedContext (sampleHost refusingThenSilent)))
            (Some (with_retry (options (timedContext (sampleHost refusingThenSilent)))
                     (Some (RetryNum (retries (timedContext (sampleHost refusingThenSilent))
                                      - 1))))) s')
    /\ (forall id ms, Some (0%nat, 100) = Some (id, ms) ->
          signal (options (timedContext (sampleHost refusingThenSilent)))
          = Some (TimerSignal id)
          /\ timerDue id (clock initialStore + Z.max 0 ms) s').
Proof.
  refine (fetchRaw_retries_failure (sampleHost refusingThenSilent) noGlobalOptions _ 1
            (ReqString "http://localhost/ok") (Some timeoutOneRetryOptions) initialStore
            (timedContext (sampleHost refusingThenSilent)) (Some (0%nat, 100)) 3 refusedError
            _ _ _ _ _ _ _).
  - intros h c. reflexivity.
  - exists (plainContext (sampleHost refusingThenSilent) (Some timeoutOneRetryOptions)),
      (mkStore 0 (<[0%nat := 100]> ∅) ∅ 1 1 0 []).
    split; [vm_compute; reflexivity|]. split; [vm_compute; reflexivity|].
    split; [vm_compute; reflexivity | intros E; discriminate E].
  - reflexivity.
  - intros id ms E. injection E as <- <-. lia.
  - vm_compute. discriminate.
  - vm_compute. reflexivity.
  - apply includes_In. vm_compute. reflexivity.
  - left. vm_compute. discriminate.
Defined.

(** The timer of the first attempt governs the retry: the call above is
    rejected with the timeout error at 100 milliseconds, after two
    transport invocations. *)
Lemma fetchRaw_retry_keeps_timer :
  exists fe s',
    fetchRaw (sampleHost refusingThenSilent) noGlobalOptions 2
      (ReqString "http://localhost/ok") (Some timeoutOneRetryOptions) initialStore
    = Rejected (ExnFetch fe) s'
    /\ fe_cause fe = Some TimeoutError
    /\ clock s' = 100
    /\ calls s' = 2%nat.
Proof. eexists _, _. split; [vm_compute; reflexivity|]. repeat split. Qed.

(** ** Hooks that throw *)

(** X12. When an [onRequest] hook throws, the call rejects with the
    hook's error at once: the transport is not invoked, nothing is added
    to the log and no time passes. *)
Theorem fetchRaw_onRequest_rejects host g fuel req opts s e s1 :
  callHooks host (upperCaseMethod (buildContext g req opts))
            (onRequest (options (upperCaseMethod (buildContext g req opts))))
            (started s)
    = Rejected e s1 ->
  exists s',
    fetchRaw host g (S fuel) req opts s = Rejected e s'
    /\ calls s' = calls s /\ log s' = log s /\ clock s' = clock s.
Proof.
  intros H.
  assert (H1 : s1 = started s).
  { pose proof (pure_callHooks host (upperCaseMethod (buildContext g req opts))
                  (onRequest (options (upperCaseMethod (buildContext g req opts))))
                  (started s)) as Hp.
    now rewrite H in Hp. }
  subst s1. exists (started s). split; [|repeat split].
  unfold fetchRaw; fold (fetchRaw host g).
  unfold bind at 1, newContextId. fold (started s).
  now rewrite (bind_rejected _ _ _ _ _ H).
Qed.

Lemma fetchRaw_onRequest_rejects_witness :
  exists s',
    fetchRaw failingHookHost noGlobalOptions 1 (ReqString "http://localhost/ok")
      (Some vetoOptions) initialStore = Rejected (ExnJs hookError) s'
    /\ calls s' = calls initialStore /\ log s' = log initialStore
    /\ clock s' = clock initialStore.
Proof.
  refine (fetchRaw_onRequest_rejects failingHookHost noGlobalOptions 0
            (ReqString "http://localhost/ok") (Some vetoOptions) initialStore
            (ExnJs hookError) (started initialStore) _).
  vm_compute. reflexivity.
Defined.

(** ** The number of attempts *)

Lemma countdown_length B bs :
  countdown B bs -> (length bs <= Z.to_nat (Z.max 0 B) + 1)%nat.
Proof.
  revert B. induction bs as [|b rest IH]; intros B H; [simpl; lia|].
  destruct H as [_ H]. destruct rest as [|b' rest']; [simpl; lia|].
  destruct H as [Hpos H]. specialize (IH (B - 1) H).
  change (length (b :: b' :: rest')) with (S (length (b' :: rest'))).
  lia.
Qed.

(** X13. Whatever the transport does, a run of the pipeline invokes it
    at most once more than the retry budget of the call (once when the
    budget is zero or negative), provided the hooks leave the retry count
    and the method alone. *)
Theorem fetchRaw_attempts_bound host g fuel req opts s :
  hooksKeepBudget host ->
  ends (fetchRaw host g fuel req opts) s
       (fun _ s' =>
          attemptsWithin
            (Z.to_nat (Z.max 0 (retries (upperCaseMethod (buildContext g req opts)))) + 1) s s')
       (attemptsWithin
          (Z.to_nat (Z.max 0 (retries (upperCaseMethod (buildContext g req opts)))) + 1) s).
Proof.
  intros Hkeep.
  assert (H : forall s', chain (retries (upperCaseMethod (buildContext g req opts))) s s' ->
                         attemptsWithin
                           (Z.to_nat (Z.max 0 (retries (upperCaseMethod
                                                          (buildContext g req opts)))) + 1)
                           s s').
  { intros s' (l & Hl & Hc). exists l. split; [exact Hl|].
    apply countdown_length in Hc. unfold budgets in Hc. now rewrite length_map in Hc. }
  eapply ends_mono; [apply (chain_fetchRaw host g Hkeep) | |]; intros; cbn beta in *; auto.
Qed.

Lemma fetchRaw_attempts_bound_witness :
  ends (fetchRaw (sampleHost refusingTransport) noGlobalOptions 5
          (ReqString "http://localhost/ok") None)
       initialStore
       (fun _ s' =>
          attemptsWithin
            (Z.to_nat (Z.max 0 (retries (upperCaseMethod
                                           (buildContext noGlobalOptions
                                              (ReqString "http://localhost/ok") None)))) + 1)
            initialStore s')
       (attemptsWithin
          (Z.to_nat (Z.max 0 (retries (upperCaseMethod
                                         (buildContext noGlobalOptions
                                            (ReqString "http://localhost/ok") None)))) + 1)
          initialStore).
Proof.
  refine (fetchRaw_attempts_bound (sampleHost refusingTransport) noGlobalOptions 5
            (ReqString "http://localhost/ok") None initialStore _).
  intros h c c' [= <-]. split; reflexivity.
Defined.

(** ** Derived instances *)

Lemma spread_assoc a b c : spread (spread a b) c = spread a (spread b c).
Proof.
  unfold spread. cbn.
  f_equal; match goal with |- orElse ?x _ = _ => destruct x; reflexivity end.
Qed.

Lemma spread_noOptions_r a : spread a noOptions = a.
Proof. destruct a; reflexivity. Qed.

(** X14. Deriving an instance from a derived instance is deriving once:
    the later default options override the earlier ones field by field,
    the later custom defaults come between them, and the later transport,
    if any, replaces the earlier. *)
Theorem create_composes g d1 c1 d2 c2 :
  create (create g d1 c1) d2 c2
  = create g (spread (spread d1 (spreadOpt (defaults c2))) d2)
      {| defaults := defaults c1; fetch := orElse (fetch c2) (fetch c1) |}.
Proof.
  unfold create. cbn [defaults fetch spreadOpt default from_option id]. f_equal.
  - f_equal. now rewrite !spread_assoc.
  - destruct (fetch c2), (fetch c1); reflexivity.
Qed.

Lemma onError_ext host self self' c s :
  (forall r o s', self r o s' = self' r o s') ->
  onError host self c s = onError host self' c s.
Proof.
  intros H. unfold onError. destruct (onErrorAction host c); [|reflexivity].
  apply bind_ext. intros _ s'. apply H.
Qed.

Lemma finally_ext {A} (m m' : M A) cleanup s :
  m s = m' s -> finally m cleanup s = finally m' cleanup s.
Proof. intros H. unfold finally. now rewrite H. Qed.

Lemma afterTransport_ext host self self' id timer c settled s :
  (forall r o s', self r o s' = self' r o s') ->
  afterTransport host self id timer c settled s
  = afterTransport host self' id timer c settled s.
Proof.
  intros H. unfold afterTransport. destruct settled as [r|e].
  - apply bind_ext. intros u s0.
    apply bind_ext. intros c1 s1. apply bind_ext. intros c2 s2.
    destruct (default false _); [reflexivity|].
    apply bind_ext. intros r' s3. destruct (isErrorStatus r'); [|reflexivity].
    apply bind_ext. intros c3 s4. now apply onError_ext.
  - apply finally_ext. apply bind_ext. intros c1 s1. now apply onError_ext.
Qed.

(** Two sets of global options that build the same contexts and use the
    same transport give the same pipeline. *)
Lemma fetchRaw_ext host g g' :
  (forall req opts, buildContext g' req opts = buildContext g req opts) ->
  (forall n r o, theFetch host g' n r o = theFetch host g n r o) ->
  forall fuel req opts s,
    fetchRaw host g' fuel req opts s = fetchRaw host g fuel req opts s.
Proof.
  intros Hb Hf. induction fuel as [|fuel IH]; intros req opts s; [reflexivity|].
  unfold fetchRaw; fold (fetchRaw host g); fold (fetchRaw host g'). rewrite Hb.
  apply bind_ext. intros id s1. apply bind_ext. intros c2 s2.
  apply bind_ext. intros c3 s3. apply bind_ext. intros armed s4.
  assert (Ha : awaitFetch host g' id (fst armed) s4
               = awaitFetch host g id (fst armed) s4).
  { unfold awaitFetch. now rewrite Hf. }
  unfold bind. rewrite Ha.
  destruct (awaitFetch host g id (fst armed) s4); try reflexivity.
  apply afterTransport_ext. exact IH.
Qed.

(** X15. An instance created without options behaves as the instance it
    was created from: for every call, [$fetchRaw] and [$fetch] of the two
    give the same result and leave the same store. *)
Theorem create_inherits host g fuel req opts s :
  fetchRaw host (create g noOptions noGlobalOptions) fuel req opts s
  = fetchRaw host g fuel req opts s
  /\ ofetch host (create g noOptions noGlobalOptions) fuel req opts s
     = ofetch host g fuel req opts s.
Proof.
  assert (H : forall fuel' req' opts' s',
            fetchRaw host (create g noOptions noGlobalOptions) fuel' req' opts' s'
            = fetchRaw host g fuel' req' opts' s').
  { apply fetchRaw_ext.
    - intros req' opts'. unfold buildContext, create. cbn [defaults].
      f_equal. destruct (defaults g) as [d|]; cbn [spreadOpt default from_option id].
      + now rewrite !spread_noOptions_r.
      + reflexivity.
    - intros n r o. unfold theFetch, create. cbn [fetch noGlobalOptions orElse].
      reflexivity. }
  split; [apply H|]. unfold ofetch, bind. now rewrite H.
Qed.

(** ** Repeated header names *)

Lemma setAll_snoc l k v h :
  Headers.setAll (l ++ [(k, v)]) h = Headers.set (Headers.setAll l h) k v.
Proof. unfold Headers.setAll. now rewrite fold_left_app. Qed.

Lemma appendAll_snoc l k v h :
  Headers.appendAll (l ++ [(k, v)]) h = Headers.append (Headers.appendAll l h) k v.
Proof. unfold Headers.appendAll. now rewrite fold_left_app. Qed.

(** X16. A field name that per-call pairs repeat is treated in two ways:
    over default headers the pair that comes last sets the field, whatever
    came before and whatever the default; without default headers the
    value of the last pair is joined by a comma to what the earlier pairs
    gave the field. Names are compared in lower case. *)
Theorem mergeHeaders_repeated_name l k v d :
  mergeHeaders (Some (HPairs (l ++ [(k, v)]))) (Some d) !! Str.toLowerCase k = Some v
  /\ mergeHeaders (Some (HPairs (l ++ [(k, v)]))) None !! Str.toLowerCase k
     = Some (match mergeHeaders (Some (HPairs l)) None !! Str.toLowerCase k with
             | Some old => (old ++ ", " ++ v)%string
             | None => v
             end).
Proof.
  split.
  - unfold mergeHeaders. cbn [isIterable iterate]. rewrite setAll_snoc.
    unfold Headers.set. apply lookup_insert_eq.
  - unfold mergeHeaders, new_Headers. rewrite appendAll_snoc.
    unfold Headers.append.
    destruct (Headers.appendAll l Headers.empty !! Str.toLowerCase k);
      apply lookup_insert_eq.
Qed.

(** ** Retried responses *)

Section Retried.

Variable host : Host.
Variable g : CreateFetchOptions.
Hypothesis Hhooks : hooksTransparent host.

(** X17. With hooks that only observe, a call whose transport answers
    in time with an error status that is one of the retry statuses, under
    a positive retry budget, decodes the response and then goes on as a
    new call: on the request and with the options as the first attempt
    sent them, the budget one lower, once the retry delay has passed. *)
Theorem fetchRaw_retries_response fuel req opts s c4 timer lat r :
  reachesTransport host g req opts s c4 timer ->
  theFetch host g (calls s) (request c4) (options c4) = Responds lat r ->
  inTime timer lat ->
  parses host c4 r ->
  ignoreResponseError (options c4) <> Some true ->
  isErrorStatus r = true ->
  retry (options c4) <> Some RetryFalse ->
  0 < retries c4 ->
  In (status r) (configuredRetryStatuses c4) ->
  exists r' s',
    fetchRaw host g (S fuel) req opts s
    = fetchRaw host g fuel (request c4)
        (Some (with_retry (options c4) (Some (RetryNum (retries c4 - 1))))) s'
    /\ decodedResponse host c4 r r'
    /\ calls s' = S (calls s)
    /\ clock s' = clock s + Z.max 0 lat
                  + Z.max 0 (retryDelayOf host (with_response c4 (Some r'))).
Proof.
  intros Hreach Hout Htime Hp Hign Herr Hr Hpos Hin.
  destruct (reachesTransport_fresh _ _ _ _ _ _ _ Hreach) as [Hnr Hne].
  destruct (fetchRaw_settled host g Hhooks fuel req opts s c4 timer lat _ (Normal r)
              Hreach Hout (or_introl (ex_intro _ r (conj eq_refl eq_refl))) Htime)
    as (s5 & E & Hc & Hk & _).
  destruct (decodeResponse_result host (contexts s) c4 r (clearTimeout timer s5) Hp)
    as (r' & s6 & Hd & Hc6 & Hk6 & Hdec).
  destruct (clearTimeout_store timer s5) as (Kk & Kc & _).
  rewrite Kc in Hc6. rewrite Kk in Hk6.
  assert (Hst : status r' = status r).
  { destruct Hdec as [H0 H1]. destruct (hasBody c4 r).
    - destruct (H1 eq_refl) as (v & -> & _). reflexivity.
    - now rewrite (H0 eq_refl). }
  assert (Hcode : responseCode (with_response c4 (Some r')) = status r).
  { unfold responseCode. cbn [response with_response]. rewrite Hst.
    unfold isErrorStatus in Herr. apply andb_prop in Herr as [H4 _].
    apply Z.leb_le in H4. destruct (Z.eqb_spec (status r) 0); [lia | reflexivity]. }
  destruct (onError_retries host (fetchRaw host g fuel) (with_response c4 (Some r')) s6)
    as (s' & E' & Hc' & Hk'); try assumption.
  { unfold isAbort. cbn [error with_response]. now rewrite Hne. }
  { rewrite Hcode. exact Hin. }
  exists r', s'. split; [|split; [exact Hdec|split; [congruence|]]].
  2:{ rewrite Hk', Hk6, Hk. reflexivity. }
  rewrite E. unfold afterTransport. unfold bind at 1, modify.
  rewrite (bind_returned _ _ _ _ _ Hd).
  rewrite (bind_returned _ _ _ _ _ (callHooks_transparent host Hhooks _ _ _)).
  cbn [options with_response response].
  assert (Hi : default false (ignoreResponseError (options c4)) = false).
  { destruct (ignoreResponseError (options c4)) as [[|]|]; try reflexivity.
    now contradiction Hign. }
  rewrite Hi. unfold theResponse. cbn [response with_response]. unfold bind at 1, ret.
  assert (Hs : isErrorStatus r' = true) by (unfold isErrorStatus in *; now rewrite Hst).
  rewrite Hs. rewrite (bind_returned _ _ _ _ _ (callHooks_transparent host Hhooks _ _ _)).
  exact E'.
Qed.

End Retried.

Lemma fetchRaw_retries_response_witness :
  exists r' s',
    fetchRaw (sampleHost unavailableTransport) noGlobalOptions 2
      (ReqString "http://localhost/ok") None initialStore
    = fetchRaw (sampleHost unavailableTransport) noGlobalOptions 1
        (request (plainContext (sampleHost unavailableTransport) None))
        (Some (with_retry (options (plainContext (sampleHost unavailableTransport) None))
                 (Some (RetryNum
                          (retries (plainContext (sampleHost unavailableTransport) None) - 1)))))
        s'
    /\ decodedResponse (sampleHost unavailableTransport)
         (plainContext (sampleHost unavailableTransport) None) unavailableResponse r'
    /\ calls s' = S (calls initialStore)
    /\ clock s' = clock initialStore + Z.max 0 5
                  + Z.max 0 (retryDelayOf (sampleHost unavailableTransport)
                               (with_response
                                  (plainContext (sampleHost unavailableTransport) None)
                                  (Some r'))).
Proof.
  refine (fetchRaw_retries_response (sampleHost unavailableTransport) noGlobalOptions _ 1
            (ReqString "http://localhost/ok") None initialStore
            (plainContext (sampleHost unavailableTransport) None) None 5 unavailableResponse
            _ _ _ _ _ _ _ _ _).
  - intros h c. reflexivity.
  - exists (plainContext (sampleHost unavailableTransport) None), (started initialStore).
    split; [vm_compute; reflexivity|]. split; [vm_compute; reflexivity|].
    split; [vm_compute; reflexivity | intros _; vm_compute; reflexivity].
  - reflexivity.
  - intros id ms E. discriminate E.
  - intros p _. eexists. reflexivity.
  - vm_compute. discriminate.
  - vm_compute. reflexivity.
  - vm_compute. discriminate.
  - vm_compute. reflexivity.
  - apply includes_In. vm_compute. reflexivity.
Defined.

(** ** What every attempt sends *)

Lemma allSent_refl P s : allSent P s s.
Proof. exists []. split; [now rewrite app_nil_r | constructor]. Qed.

Lemma allSent_trans P s1 s2 s3 : allSent P s1 s2 -> allSent P s2 s3 -> allSent P s1 s3.
Proof.
  intros (l1 & H1 & F1) (l2 & H2 & F2). exists (l1 ++ l2).
  split; [now rewrite H2, H1, app_assoc|].
  rewrite transportInputs_app. apply Forall_app. split; assumption.
Qed.

Lemma noTransport_allSent P s1 s2 : noTransport s1 s2 -> allSent P s1 s2.
Proof. intros (l & H & E). exists l. split; [exact H | rewrite E; constructor]. Qed.

Lemma decodeResponse_request host id c r s c' s' :
  decodeResponse host id c r s = Returned c' s' -> request c' = request c.
Proof.
  unfold decodeResponse. destruct (hasBody c r); [|now intros [= <- _]].
  unfold bind. destruct (_ s) as [v s1| | |]; try discriminate.
  cbn. now intros [= <- _].
Qed.

Section Invariant.

Variable host : Host.
Variable g : CreateFetchOptions.
Hypothesis Hhooks : hooksTransparent host.

(** [I] holds of the inputs of a call, [P] of what the transport is
    handed. *)
Variable I : FetchRequest -> option FetchOptions -> Prop.
Variable P : FetchRequest -> FetchOptions -> Prop.

Hypothesis P_signal : forall r o sig, P r o -> P r (with_signal o sig).
Hypothesis P_prepared :
  forall req opts c3 s s',
    I req opts ->
    prepareBody host (assembleURL host (upperCaseMethod (buildContext g req opts))) s
      = Returned c3 s' ->
    P (request c3) (options c3).
Hypothesis I_retry : forall r o n, P r o -> I r (Some (with_retry o n)).

Lemma allSent_onError self c s :
  P (request c) (options c) ->
  (forall r o s', I r o -> ends (self r o) s' (fun _ s'' => allSent P s' s'') (allSent P s')) ->
  ends (onError host self c) s (fun _ s' => allSent P s s') (allSent P s).
Proof.
  intros HP Hself. unfold onError.
  destruct (onErrorAction host c) as [d r o|e] eqn:E;
    [|apply ends_throw, allSent_refl].
  destruct (onErrorAction_retry host c d r o E) as (_ & -> & ->).
  assert (Hk : forall s1, noTransport s s1 ->
            ends (self (request c)
                    (Some (with_retry (options c) (Some (RetryNum (retries c - 1))))))
                 s1 (fun _ s' => allSent P s s') (allSent P s)).
  { intros s1 H1.
    eapply ends_mono; [apply Hself, I_retry, HP | |];
      intros; cbn beta in *;
      (eapply allSent_trans; [apply noTransport_allSent, H1 | eassumption]). }
  apply ends_bind. destruct (0 <? d).
  - unfold ends at 1, sleep, modify. apply Hk.
    exists [EvDelay d]. split; reflexivity.
  - apply ends_ret, Hk, noTransport_refl.
Qed.

Lemma allSent_afterTransport self id timer c settled s :
  P (request c) (options c) ->
  (forall r o s', I r o -> ends (self r o) s' (fun _ s'' => allSent P s' s'') (allSent P s')) ->
  ends (afterTransport host self id timer c settled) s
       (fun _ s' => allSent P s s') (allSent P s).
Proof.
  intros HP Hself.
  assert (Hon : forall c' s1, request c' = request c -> options c' = options c ->
            noTransport s s1 ->
            ends (onError host self c') s1 (fun _ s' => allSent P s s') (allSent P s)).
  { intros c' s1 Hr Ho H1.
    eapply ends_mono; [apply allSent_onError; [rewrite Hr, Ho; exact HP | exact Hself] | |];
      intros; cbn beta in *;
      (eapply allSent_trans; [apply noTransport_allSent, H1 | eassumption]). }
  assert (Hnone : forall s1, noTransport s s1 -> allSent P s s1)
    by (intros; now apply noTransport_allSent).
  unfold afterTransport. destruct settled as [r|e].
  - apply ends_bind. unfold ends at 1, modify.
    assert (H0 : noTransport s (clearTimeout timer s))
      by cleared timer (noTransport_refl s).
    apply ends_bind. unfold ends at 1.
    destruct (decodeResponse host id (with_response c (Some r)) r (clearTimeout timer s))
      as [c1 s1|x s1|s1|s1] eqn:Ed;
      pose proof (decodeResponse_noTransport host id (with_response c (Some r)) r
                    (clearTimeout timer s)) as Hd;
      unfold ends in Hd; rewrite Ed in Hd;
      try (subst s1; apply Hnone, H0).
    destruct Hd as [Ho H1]. cbn [options with_response] in Ho.
    apply (noTransport_trans _ _ _ H0) in H1.
    pose proof (decodeResponse_request _ _ _ _ _ _ _ Ed) as Hr. cbn [request with_response] in Hr.
    eapply ends_bind_returned; [apply (callHooks_transparent host Hhooks)|].
    destruct (default false (ignoreResponseError (options c1))); [now apply Hnone|].
    apply ends_bind, ends_pure; [apply pure_theResponse | intros r' _ | now apply Hnone].
    destruct (isErrorStatus r'); [|now apply Hnone].
    eapply ends_bind_returned; [apply (callHooks_transparent host Hhooks)|].
    now apply Hon.
  - apply ends_cleared; [intros a s' H; cleared timer H | intros s' H; cleared timer H|].
    eapply ends_bind_returned; [apply (callHooks_transparent host Hhooks)|].
    apply Hon; [reflexivity | reflexivity | apply noTransport_refl].
Qed.

(** If the inputs of a call satisfy [I], every transport invocation of
    its run, retries included, is handed a request and options that
    satisfy [P]. *)
Lemma allSent_fetchRaw fuel req opts s :
  I req opts ->
  ends (fetchRaw host g fuel req opts) s (fun _ s' => allSent P s s') (allSent P s).
Proof.
  revert req opts s. induction fuel as [|fuel IH]; intros req opts s HI;
    [apply allSent_refl|].
  assert (Hnil : forall s1, log s1 = log s -> allSent P s s1).
  { intros s1 H1. exists []. split; [now rewrite app_nil_r | constructor]. }
  unfold fetchRaw; fold (fetchRaw host g).
  apply ends_bind. unfold ends at 1, newContextId.
  eapply ends_bind_returned; [apply (callHooks_transparent host Hhooks)|].
  apply ends_bind, ends_pure; [apply pure_prepareBody | intros c3 Hc3 | now apply Hnil].
  pose proof (P_prepared _ _ _ _ _ HI Hc3) as H3.
  assert (Hgo : forall c4 timer s2, log s2 = log s -> P (request c4) (options c4) ->
            ends (bind (awaitFetch host g (contexts s) c4)
                       (afterTransport host (fetchRaw host g fuel) (contexts s) timer c4))
                 s2 (fun _ s' => allSent P s s') (allSent P s)).
  { intros c4 timer s2 Hl H4.
    assert (Hone : forall s3,
              log s3 = log s2 ++ [EvTransport (contexts s) (request c4) (options c4)] ->
              allSent P s s3).
    { intros s3 Hl3. exists [EvTransport (contexts s) (request c4) (options c4)].
      split; [now rewrite Hl3, Hl|]. constructor; [exact H4 | constructor]. }
    apply ends_bind.
    eapply ends_mono; [apply awaitFetch_logs | |]; [|intros s3 Hl3; now apply Hone].
    intros settled s3 Hl3.
    eapply ends_mono; [apply allSent_afterTransport; [exact H4 | intros; now apply IH] | |];
      intros; cbn beta in *;
      (eapply allSent_trans; [apply Hone, Hl3 | eassumption]). }
  apply ends_bind. unfold ends at 1, armTimeout.
  destruct (negb _ && _)%bool; cbn [fst snd ret]; apply Hgo; try reflexivity;
    [apply P_signal|]; exact H3.
Qed.

End Invariant.

Lemma upperCaseMethod_request c : request (upperCaseMethod c) = request c.
Proof. unfold upperCaseMethod. destruct (truthyStr _); reflexivity. Qed.

Lemma upperCaseMethod_method c :
  method (options (upperCaseMethod c))
  = Str.toUpperCase <$> method (options (upperCaseMethod c)).
Proof.
  unfold upperCaseMethod. destruct (method (options c)) as [m|] eqn:E; cbn.
  - destruct (Str.is_empty m) eqn:Em; cbn.
    + rewrite E. destruct m; [reflexivity | discriminate].
    + now rewrite toUpperCase_idem.
  - now rewrite E.
Qed.

Lemma prepareBody_keeps_query host c c' s s' :
  prepareBody host c s = Returned c' s' ->
  query (options c') = query (options c) /\ params (options c') = params (options c).
Proof.
  unfold prepareBody. destruct (body (options c)) as [b|];
    [|intros [= <- _]; split; reflexivity].
  destruct (truthy b && isPayloadMethod (method (options c)))%bool;
    [|intros [= <- _]; split; reflexivity].
  unfold bind at 1. destruct (isJSONSerializable b) as [[|]|e]; simpl; [| |discriminate].
  - destruct b; unfold bind, ret; simpl;
      try (destruct (JSON_stringify host _) as [v|e]; simpl; [|discriminate]);
      intros [= <- _]; split; reflexivity.
  - unfold bind at 1. destruct (isStreamBody b) as [[|]|e]; simpl; try discriminate.
    + destruct (present _); intros [= <- _]; split; reflexivity.
    + intros [= <- _]. split; reflexivity.
Qed.

(** X18. With hooks that only observe, a request given as a prebuilt
    request object is handed to the transport as it is at every attempt
    of the run, retries included: neither the base URL nor the query of
    the options is applied to it. *)
Theorem fetchRaw_request_object_untouched host g fuel ro opts s :
  hooksTransparent host ->
  ends (fetchRaw host g fuel (ReqObject ro) opts) s
       (fun _ s' => allSent (fun r _ => r = ReqObject ro) s s')
       (allSent (fun r _ => r = ReqObject ro) s).
Proof.
  intros Hhooks.
  apply (allSent_fetchRaw host g Hhooks
           (fun r _ => r = ReqObject ro) (fun r _ => r = ReqObject ro)).
  - intros r o sig H. exact H.
  - intros req opts' c3 s1 s2 -> Hc3.
    destruct (prepareBody_keeps host _ _ _ _ Hc3) as (Hr & _).
    assert (E : request (upperCaseMethod (buildContext g (ReqObject ro) opts')) = ReqObject ro)
      by (rewrite upperCaseMethod_request; reflexivity).
    rewrite Hr. unfold assembleURL. rewrite E. exact E.
  - intros r o n H. exact H.
  - reflexivity.
Qed.

Lemma fetchRaw_request_object_untouched_witness :
  ends (fetchRaw (sampleHost unavailableTransport) noGlobalOptions 3
          (ReqObject echoRequest) (Some baseQueryOptions))
       initialStore
       (fun _ s' => allSent (fun r _ => r = ReqObject echoRequest) initialStore s')
       (allSent (fun r _ => r = ReqObject echoRequest) initialStore).
Proof.
  refine (fetchRaw_request_object_untouched (sampleHost unavailableTransport)
            noGlobalOptions 3 echoRequest (Some baseQueryOptions) initialStore _).
  intros h c. reflexivity.
Defined.

(** X19. With hooks that only observe, at every attempt of a run,
    retries included, the transport is handed the method in upper case
    and, for a request given as a URL, options from which [query] and
    [params] have been removed. *)
Theorem fetchRaw_sends_normalised host g fuel req opts s :
  hooksTransparent host ->
  ends (fetchRaw host g fuel req opts) s
       (fun _ s' => allSent normalised s s') (allSent normalised s).
Proof.
  intros Hhooks.
  apply (allSent_fetchRaw host g Hhooks (fun _ _ => True) normalised).
  - intros r o sig H. exact H.
  - intros req' opts' c3 s1 s2 _ Hc3.
    destruct (prepareBody_keeps host _ _ _ _ Hc3) as (Hr & _ & _ & _ & _ & _ & Hm & _).
    destruct (prepareBody_keeps_query host _ _ _ _ Hc3) as [Hq Hp].
    destruct (assembleURL_keeps host (upperCaseMethod (buildContext g req' opts')))
      as (_ & _ & _ & _ & _ & Hm' & _).
    split.
    + rewrite Hm, Hm'. apply upperCaseMethod_method.
    + intros url E. rewrite Hr in E. rewrite Hq, Hp. revert E. unfold assembleURL.
      destruct (request (upperCaseMethod (buildContext g req' opts'))) eqn:Eq;
        [intros _; split; reflexivity | rewrite Eq; discriminate].
  - intros; exact I.
  - exact I.
Qed.

Lemma fetchRaw_sends_normalised_witness :
  ends (fetchRaw (sampleHost unavailableTransport) noGlobalOptions 3
          (ReqString "/items") (Some baseQueryOptions))
       initialStore
       (fun _ s' => allSent normalised initialStore s') (allSent normalised initialStore).
Proof.
  refine (fetchRaw_sends_normalised (sampleHost unavailableTransport) noGlobalOptions 3
            (ReqString "/items") (Some baseQueryOptions) initialStore _).
  intros h c. reflexivity.
Defined.

(** ** Tokens that are already aborted *)

(** The keys of the resolved options that are plain overrides of the
    defaults by the options of the call. *)
Lemma resolved_fields g req opts :
  let o := options (upperCaseMethod (buildContext g req opts)) in
  key_body o = orElse (key_body (spreadOpt opts)) (key_body (spreadOpt (defaults g)))
  /\ key_signal o = orElse (key_signal (spreadOpt opts)) (key_signal (spreadOpt (defaults g)))
  /\ key_retry o = orElse (key_retry (spreadOpt opts)) (key_retry (spreadOpt (defaults g)))
  /\ key_retryDelay o
     = orElse (key_retryDelay (spreadOpt opts)) (key_retryDelay (spreadOpt (defaults g)))
  /\ key_retryStatusCodes o
     = orElse (key_retryStatusCodes (spreadOpt opts))
              (key_retryStatusCodes (spreadOpt (defaults g)))
  /\ key_timeout o
     = orElse (key_timeout (spreadOpt opts)) (key_timeout (spreadOpt (defaults g))).
Proof.
  cbv zeta. unfold upperCaseMethod.
  destruct (truthyStr _); repeat split.
Qed.

(** The options a retry re-enters the pipeline with resolve to the same
    body, delay, retry statuses and timeout as the options of the attempt
    that failed, to the token that attempt was sent with, and to the
    budget the retry handler set. *)
Lemma retry_resolves g req opts r o3 x :
  let o := options (upperCaseMethod (buildContext g req opts)) in
  let o' := options (upperCaseMethod (buildContext g r (Some (with_retry o3 (Some x))))) in
  key_body o3 = key_body o -> key_retryDelay o3 = key_retryDelay o ->
  key_retryStatusCodes o3 = key_retryStatusCodes o -> key_timeout o3 = key_timeout o ->
  body o' = body o /\ retryDelay o' = retryDelay o
  /\ retryStatusCodes o' = retryStatusCodes o /\ timeout o' = timeout o
  /\ retry o' = Some x
  /\ (is_Some (signal o3) -> signal o' = signal o3).
Proof.
  cbv zeta. intros Hb Hd Hc Ht.
  destruct (resolved_fields g req opts) as (Eb & _ & _ & Ed & Ec & Et).
  destruct (resolved_fields g r (Some (with_retry o3 (Some x))))
    as (Eb' & Es' & Er' & Ed' & Ec' & Et').
  cbn [spreadOpt default from_option id with_retry key_body key_signal key_retry
       key_retryDelay key_retryStatusCodes key_timeout given] in Eb', Es', Er', Ed', Ec', Et'.
  unfold body, retryDelay, retryStatusCodes, timeout, retry, signal.
  rewrite Eb', Es', Er', Ed', Ec', Et', Hb, Hd, Hc, Ht.
  rewrite Eb, Ed, Ec, Et, !orElse_absorb.
  split; [reflexivity|]. split; [reflexivity|]. split; [reflexivity|].
  split; [reflexivity|]. split; [reflexivity|].
  intros [sig Hsig]. destruct (key_signal o3); try discriminate. reflexivity.
Qed.

(** The keys the URL assembly leaves alone. *)
Lemma assembleURL_keys host c :
  key_body (options (assembleURL host c)) = key_body (options c)
  /\ key_retryDelay (options (assembleURL host c)) = key_retryDelay (options c)
  /\ key_retryStatusCodes (options (assembleURL host c)) = key_retryStatusCodes (options c)
  /\ key_timeout (options (assembleURL host c)) = key_timeout (options c)
  /\ key_signal (options (assembleURL host c)) = key_signal (options c).
Proof. unfold assembleURL. destruct (request c); repeat split. Qed.

Lemma assembleURL_core host c :
  body (options (assembleURL host c)) = body (options c)
  /\ signal (options (assembleURL host c)) = signal (options c)
  /\ retryDelay (options (assembleURL host c)) = retryDelay (options c)
  /\ retryStatusCodes (options (assembleURL host c)) = retryStatusCodes (options c)
  /\ timeout (options (assembleURL host c)) = timeout (options c)
  /\ retry (options (assembleURL host c)) = retry (options c)
  /\ method (options (assembleURL host c)) = method (options c).
Proof. unfold assembleURL. destruct (request c); repeat split. Qed.

Lemma prepareBody_no_body host c s :
  body (options c) = None -> prepareBody host c s = Returned c s.
Proof. intros H. unfold prepareBody. now rewrite H. Qed.

Lemma abortReason_signal s sig e : abortReason s sig = Some e -> is_Some sig.
Proof. destruct sig; [eauto | discriminate]. Qed.

Lemma retryDelayOf_ext host c c' :
  retryDelay (options c') = retryDelay (options c) ->
  fixedDelay c -> retryDelayOf host c' = retryDelayOf host c.
Proof.
  intros E Hf. unfold retryDelayOf. rewrite E.
  destruct (retryDelay (options c)) as [[x|x]|] eqn:Ex; try reflexivity.
  exfalso. exact (Hf x Ex).
Qed.

(** An attempt that is handed a token which is already aborted: the
    transport call rejects with the token's reason at once, and the
    failure goes to the retry handler. *)
Lemma fetchRaw_aborted_token host g fuel req opts s e :
  hooksTransparent host ->
  abortReason s (signal (options (upperCaseMethod (buildContext g req opts)))) = Some e ->
  body (options (upperCaseMethod (buildContext g req opts))) = None ->
  exists s5,
    fetchRaw host g (S fuel) req opts s
    = onError host (fetchRaw host g fuel)
        (with_error (assembleURL host (upperCaseMethod (buildContext g req opts))) (Some e)) s5
    /\ calls s5 = S (calls s) /\ clock s5 = clock s
    /\ timerAborted s5 = timerAborted s.
Proof.
  intros Hhooks Ha Hb.
  set (c1 := upperCaseMethod (buildContext g req opts)) in *.
  destruct (assembleURL_core host c1) as (Eb & Es & _).
  rewrite (fetchRaw_prepared host g Hhooks fuel req opts s (assembleURL host c1))
    by (apply prepareBody_no_body; fold c1; now rewrite Eb).
  assert (Harm : armTimeout (assembleURL host c1) (started s)
                 = Returned (assembleURL host c1, None) (started s)).
  { unfold armTimeout. rewrite Es.
    rewrite (bool_decide_eq_true_2 _ (abortReason_signal _ _ _ Ha)). reflexivity. }
  rewrite (bind_returned _ _ _ _ _ Harm). cbn [fst snd].
  eexists. split.
  - unfold bind at 1, awaitFetch.
    rewrite (abortReason_ext s _ (signal (options (assembleURL host c1)))) by reflexivity.
    rewrite Es, Ha. unfold afterTransport. rewrite finally_none.
    rewrite (bind_returned _ _ _ _ _ (callHooks_transparent host Hhooks _ _ _)).
    reflexivity.
  - repeat split.
Qed.

(** The run of a call that is handed an aborted token, by induction on
    its retry budget. *)
Lemma aborted_token_run host g n :
  hooksTransparent host ->
  forall fuel req opts s e,
    abortReason s (signal (options (upperCaseMethod (buildContext g req opts)))) = Some e ->
    body (options (upperCaseMethod (buildContext g req opts))) = None ->
    retry (options (upperCaseMethod (buildContext g req opts))) = Some (RetryNum (Z.of_nat n)) ->
    fixedDelay (upperCaseMethod (buildContext g req opts)) ->
    In 500 (configuredRetryStatuses (upperCaseMethod (buildContext g req opts))) ->
    err_name e <> "AbortError"
    \/ truthyNum (timeout (options (upperCaseMethod (buildContext g req opts)))) = true ->
    (n < fuel)%nat ->
    exists fe s',
      fetchRaw host g fuel req opts s = Rejected (ExnFetch fe) s'
      /\ fe_cause fe = Some e
      /\ fe_status fe = None
      /\ calls s' = (calls s + n + 1)%nat
      /\ clock s' = clock s
                    + Z.of_nat n
                      * Z.max 0 (retryDelayOf host (upperCaseMethod (buildContext g req opts))).
Proof.
  intros Hhooks. induction n as [|m IH]; intros fuel req opts s e Ha Hb Hr Hfix Hin Hna Hfuel.
  all: destruct fuel as [|fuel]; [lia|].
  all: destruct (fetchRaw_aborted_token host g fuel req opts s e Hhooks Ha Hb)
         as (s5 & E & Hc5 & Hk5 & Ht5).
  all: set (c1 := upperCaseMethod (buildContext g req opts)) in *.
  all: destruct (assembleURL_core host c1) as (Eb & Es & Ed & Ec & Et & Er & Em).
  all: destruct (upperCaseMethod_fresh (buildContext g req opts)) as [Hnr Hne].
  all: destruct (assembleURL_keeps host c1) as (Hr3 & He3 & _).
  all: set (cE := with_error (assembleURL host c1) (Some e)) in *.
  all: assert (Hret : retries cE = retries c1)
         by (apply retries_ext; cbn [options with_error cE]; assumption).
  all: assert (Hresp : response cE = None)
         by (cbn [response with_error cE]; rewrite Hr3; exact Hnr).
  - exists (createFetchError cE), s5.
    split; [|split; [reflexivity|split; [|split; [lia|lia]]]].
    2:{ change (fe_status (createFetchError cE)) with (status <$> response cE).
        now rewrite Hresp. }
    rewrite E. unfold onError. rewrite onErrorAction_givesUp; [reflexivity|].
    right. left. rewrite Hret. unfold retries. rewrite Hr. cbn. lia.
  - assert (Hpos : retries c1 = Z.of_nat (S m)) by (unfold retries; now rewrite Hr).
    assert (Hcodes : configuredRetryStatuses cE = configuredRetryStatuses c1)
      by (unfold configuredRetryStatuses; cbn [options with_error cE]; now rewrite Ec).
    assert (HdE : retryDelayOf host cE = retryDelayOf host c1)
      by (apply retryDelayOf_ext; [cbn [options with_error cE]; exact Ed | exact Hfix]).
    rewrite E, onError_retries_at; cycle 1.
    { cbn [options with_error cE]. rewrite Er, Hr. discriminate. }
    { unfold isAbort. cbn [error with_error options cE]. rewrite Et.
      destruct Hna as [Hn|Ht]; [|rewrite Ht; now rewrite andb_false_r].
      destruct (String.eqb_spec (err_name e) "AbortError"); [contradiction | reflexivity]. }
    { rewrite Hret, Hpos. lia. }
    { unfold responseCode. rewrite Hresp, Hcodes. exact Hin. }
    set (s6 := if 0 <? retryDelayOf host cE
               then record (EvDelay (retryDelayOf host cE)) (tick (retryDelayOf host cE) s5)
               else s5).
    assert (Ha5 : abortReason s5 (signal (options c1)) = Some e)
      by (rewrite (abortReason_ext s s5) by exact Ht5; exact Ha).
    assert (Hs6 : abortReason s6 (signal (options c1)) = Some e /\ calls s6 = S (calls s)
                  /\ clock s6 = clock s + Z.max 0 (retryDelayOf host c1)).
    { subst s6. rewrite HdE.
      destruct (Z.ltb_spec 0 (retryDelayOf host c1));
        (split; [|cbn; split; [exact Hc5|lia]]); [|exact Ha5].
      exact (abortReason_tick _ s5 _ e Ha5). }
    destruct Hs6 as (Ht6 & Hc6 & Hk6).
    destruct (assembleURL_keys host c1) as (Kb & Kd & Kc & Kt & _).
    destruct (retry_resolves g req opts (request cE) (options cE)
                (RetryNum (retries cE - 1)))
      as (Fb & Fd & Fc & Ft & Fr & Fs); try assumption.
    fold c1 in Fb, Fd, Fc, Ft, Fr.
    assert (Hsome : is_Some (signal (options cE))).
    { cbn [options with_error cE]. rewrite Es. exact (abortReason_signal _ _ _ Ha). }
    specialize (Fs Hsome).
    assert (EsE : signal (options cE) = signal (options c1))
      by (cbn [options with_error cE]; exact Es).
    rewrite EsE in Fs.
    set (c1' := upperCaseMethod
                  (buildContext g (request cE)
                     (Some (with_retry (options cE) (Some (RetryNum (retries cE - 1)))))))
      in *.
    destruct (IH fuel (request cE)
                (Some (with_retry (options cE) (Some (RetryNum (retries cE - 1))))) s6 e)
      as (fe & s' & E' & Hcause & Hstat & Hc' & Hk').
    { fold c1'. rewrite Fs. exact Ht6. }
    { fold c1'. now rewrite Fb. }
    { fold c1'. rewrite Fr, Hret, Hpos. do 2 f_equal. lia. }
    { fold c1'. intros f. rewrite Fd. apply Hfix. }
    { fold c1'. unfold configuredRetryStatuses. rewrite Fc. exact Hin. }
    { fold c1'. rewrite Ft. exact Hna. }
    { lia. }
    fold c1' in Hk'.
    assert (Hd' : retryDelayOf host c1' = retryDelayOf host c1)
      by (apply retryDelayOf_ext; [exact Fd | exact Hfix]).
    exists fe, s'. split; [exact E'|]. split; [exact Hcause|]. split; [exact Hstat|].
    split; [lia|]. rewrite Hk', Hk6, Hd'. lia.
Qed.

(** X20. A call without a body that is handed a cancellation token
    which is already aborted (the token of a timer that has fired, which
    a retry inherits from the attempt that timed out, or a token the
    caller aborted) never waits for the transport: each attempt rejects
    with the token's reason at once, whatever the transport would answer.
    With hooks that only observe, a budget of [n] retries, a retry delay
    that is not a callback, 500 among the retry statuses and a reason that
    is not a cancellation by the caller, the call rejects after [n + 1]
    such attempts and [n] retry delays, with a normalized error whose
    cause is the token's reason. *)
Theorem aborted_token_fails_fast host g n fuel req opts s e :
  hooksTransparent host ->
  abortReason s (signal (options (upperCaseMethod (buildContext g req opts)))) = Some e ->
  body (options (upperCaseMethod (buildContext g req opts))) = None ->
  retry (options (upperCaseMethod (buildContext g req opts))) = Some (RetryNum (Z.of_nat n)) ->
  fixedDelay (upperCaseMethod (buildContext g req opts)) ->
  In 500 (configuredRetryStatuses (upperCaseMethod (buildContext g req opts))) ->
  err_name e <> "AbortError"
  \/ truthyNum (timeout (options (upperCaseMethod (buildContext g req opts)))) = true ->
  (n < fuel)%nat ->
  exists fe s',
    fetchRaw host g fuel req opts s = Rejected (ExnFetch fe) s'
    /\ fe_cause fe = Some e
    /\ fe_status fe = None
    /\ calls s' = (calls s + n + 1)%nat
    /\ clock s' = clock s
                  + Z.of_nat n
                    * Z.max 0 (retryDelayOf host (upperCaseMethod (buildContext g req opts))).
Proof. intros Hhooks. now apply aborted_token_run. Qed.

Lemma aborted_token_fails_fast_witness :
  exists fe s',
    fetchRaw (sampleHost okTransport) noGlobalOptions 3 (ReqString "http://localhost/ok")
      (Some abortedTokenOptions) initialStore = Rejected (ExnFetch fe) s'
    /\ fe_cause fe = Some TimeoutError
    /\ fe_status fe = None
    /\ calls s' = (calls initialStore + 2 + 1)%nat
    /\ clock s' = clock initialStore
                  + Z.of_nat 2
                    * Z.max 0 (retryDelayOf (sampleHost okTransport)
                                 (upperCaseMethod
                                    (buildContext noGlobalOptions
                                       (ReqString "http://localhost/ok")
                                       (Some abortedTokenOptions)))).
Proof.
  refine (aborted_token_fails_fast (sampleHost okTransport) noGlobalOptions 2 3
            (ReqString "http://localhost/ok") (Some abortedTokenOptions) initialStore
            TimeoutError _ _ _ _ _ _ _ _).
  - intros h c. reflexivity.
  - vm_compute. reflexivity.
  - vm_compute. reflexivity.
  - vm_compute. reflexivity.
  - intros f. vm_compute. discriminate.
  - apply includes_In. vm_compute. reflexivity.
  - left. vm_compute. discriminate.
  - lia.
Defined.

(** ** Timeouts and retries *)

Lemma finally_rejected {A} (m : M A) cleanup s e s' :
  m s = Rejected e s' -> finally m cleanup s = Rejected e (cleanup s').
Proof. intros H. unfold finally. now rewrite H. Qed.

(** A transport call whose token is the token of a running timer, and
    which has not settled when the timer is due, rejects with the timeout
    error at that time. *)
Lemma awaitFetch_times_out host g id c4 s4 tid due :
  signal (options c4) = Some (TimerSignal tid) ->
  timers s4 !! tid = Some due -> timerAborted s4 !! tid = None -> clock s4 <= due ->
  match theFetch host g (calls s4) (request c4) (options c4) with
  | NeverSettles => True
  | Responds lat _ | Fails lat _ => due <= clock s4 + lat
  end ->
  exists s5,
    awaitFetch host g id c4 s4 = Returned (Throws TimeoutError) s5
    /\ calls s5 = S (calls s4) /\ clock s5 = due
    /\ timerAborted s5 !! tid = Some TimeoutError.
Proof.
  intros Hs Ht Ha Hle Hlate. unfold awaitFetch. rewrite Hs.
  cbn [abortReason record timerAborted]. rewrite Ha.
  set (s4' := record _ _).
  assert (Hfire : exists s5,
            fireTimer due s4' = Returned (Throws TimeoutError) s5
            /\ calls s5 = S (calls s4) /\ clock s5 = due
            /\ timerAborted s5 !! tid = Some TimeoutError).
  { eexists. split; [reflexivity|]. split; [reflexivity|].
    split; [rewrite tick_clock; subst s4'; cbn [record clock]; lia|].
    apply (timerDue_armed tid due (due - clock s4') s4'); try assumption.
    rewrite tick_clock. subst s4'. cbn [record clock]. lia. }
  assert (Hd : deadlineOf s4' (Some (TimerSignal tid)) = Some due) by exact Ht.
  destruct (theFetch host g (calls s4) (request c4) (options c4)) as [lat r|lat e|];
    unfold settle; rewrite Hd; try exact Hfire;
    (replace (clock s4' + lat <? due) with false
       by (symmetry; apply Z.ltb_ge; exact Hlate); exact Hfire).
Qed.

(** The first attempt of a call with a timeout and no token of the
    caller's, against a transport that does not settle in time: the timer
    fires, the token is aborted and the failure goes to the retry handler;
    the timer is cleared when the handler is done. *)
Lemma fetchRaw_times_out host g fuel req opts s T c3 :
  hooksTransparent host ->
  (forall r o, late T (theFetch host g (calls s) r o)) ->
  freshTimer s ->
  signal (options (upperCaseMethod (buildContext g req opts))) = None ->
  timeout (options (upperCaseMethod (buildContext g req opts))) = Some T ->
  0 < T ->
  prepareBody host (assembleURL host (upperCaseMethod (buildContext g req opts))) (started s)
    = Returned c3 (started s) ->
  exists s5,
    fetchRaw host g (S fuel) req opts s
    = finally
        (onError host (fetchRaw host g fuel)
           (with_error
              (with_options c3
                 (with_signal (options c3) (Some (TimerSignal (nextTimer s)))))
              (Some TimeoutError)))
        (clearTimeout (Some (nextTimer s, T))) s5
    /\ calls s5 = S (calls s) /\ clock s5 = clock s + T
    /\ timerAborted s5 !! nextTimer s = Some TimeoutError.
Proof.
  intros Hhooks Hlate Hfresh Hsig Ht Hpos Hprep.
  set (c1 := upperCaseMethod (buildContext g req opts)) in *.
  destruct (assembleURL_core host c1) as (_ & Es & _ & _ & Et & _).
  destruct (prepareBody_keeps host _ _ _ _ Hprep) as (_ & _ & _ & Pt & Ps & _).
  rewrite Et, Ht in Pt. rewrite Es, Hsig in Ps.
  rewrite (fetchRaw_prepared host g Hhooks fuel req opts s c3 Hprep).
  set (c4 := with_options c3 (with_signal (options c3) (Some (TimerSignal (nextTimer s))))).
  assert (Harm : armTimeout c3 (started s)
                 = Returned (c4, Some (nextTimer s, T))
                     (mkStore (clock s)
                        (<[nextTimer s := clock s + Z.max 0 T]> (timers s))
                        (timerAborted s) (S (nextTimer s))
                        (S (contexts s)) (calls s) (log s))).
  { unfold armTimeout. rewrite Ps, Pt.
    assert (Hn : truthyNum (Some T) = true).
    { cbn. destruct (Z.eqb_spec T 0); [lia | reflexivity]. }
    rewrite Hn. reflexivity. }
  rewrite (bind_returned _ _ _ _ _ Harm). cbn [fst snd].
  set (s4 := mkStore _ _ _ _ _ _ _).
  destruct (awaitFetch_times_out host g (contexts s) c4 s4 (nextTimer s)
              (clock s + Z.max 0 T)) as (s5 & E & Hc & Hk & Ha).
  { reflexivity. }
  { subst s4. cbn [timers]. apply lookup_insert_eq. }
  { exact Hfresh. }
  { subst s4. cbn [clock]. lia. }
  { pose proof (Hlate (request c4) (options c4)) as Hl. subst s4. cbn [calls clock].
    destruct (theFetch host g (calls s) (request c4) (options c4)); cbn in Hl; [lia|lia|exact I]. }
  rewrite (bind_returned _ _ _ _ _ E).
  exists s5. split; [|split; [exact Hc|split; [rewrite Hk; lia|exact Ha]]].
  unfold afterTransport. apply finally_ext.
  now rewrite (bind_returned _ _ _ _ _ (callHooks_transparent host Hhooks _ _ _)).
Qed.

(** The run of a call whose first attempt times out, under a budget of
    [n] retries. *)
Lemma timed_out_run host g n fuel req opts s T :
  hooksTransparent host ->
  (forall r o, late T (theFetch host g (calls s) r o)) ->
  freshTimer s ->
  signal (options (upperCaseMethod (buildContext g req opts))) = None ->
  timeout (options (upperCaseMethod (buildContext g req opts))) = Some T ->
  0 < T ->
  body (options (upperCaseMethod (buildContext g req opts))) = None ->
  retry (options (upperCaseMethod (buildContext g req opts))) <> Some RetryFalse ->
  retries (upperCaseMethod (buildContext g req opts)) = Z.of_nat n ->
  fixedDelay (upperCaseMethod (buildContext g req opts)) ->
  In 500 (configuredRetryStatuses (upperCaseMethod (buildContext g req opts))) ->
  (n < fuel)%nat ->
  exists fe s',
    fetchRaw host g fuel req opts s = Rejected (ExnFetch fe) s'
    /\ fe_cause fe = Some TimeoutError
    /\ calls s' = (calls s + n + 1)%nat
    /\ clock s' = clock s + T
                  + Z.of_nat n
                    * Z.max 0 (retryDelayOf host (upperCaseMethod (buildContext g req opts))).
Proof.
  intros Hhooks Hlate Hfresh Hsig Ht HT Hb Hnf Hn Hfix Hin Hfuel.
  destruct fuel as [|fuel]; [lia|].
  set (c1 := upperCaseMethod (buildContext g req opts)) in *.
  destruct (assembleURL_core host c1) as (Eb & Es & Ed & Ec & Et & Er & Em).
  destruct (assembleURL_keys host c1) as (Kb & Kd & Kc & Kt & _).
  set (c3 := assembleURL host c1) in *.
  assert (Hprep : prepareBody host c3 (started s) = Returned c3 (started s))
    by (apply prepareBody_no_body; now rewrite Eb).
  destruct (fetchRaw_times_out host g fuel req opts s T c3 Hhooks Hlate Hfresh Hsig Ht HT Hprep)
    as (s5 & E & Hc5 & Hk5 & Ht5).
  fold c1 in E.
  destruct (upperCaseMethod_fresh (buildContext g req opts)) as [Hnr Hne].
  destruct (assembleURL_keeps host c1) as (Hr3 & He3 & _).
  fold c3 in Hr3, He3.
  set (cE := with_error
               (with_options c3 (with_signal (options c3) (Some (TimerSignal (nextTimer s)))))
               (Some TimeoutError)) in *.

  assert (Hret : retries cE = retries c1)
    by (apply retries_ext; cbn [options with_error with_options cE]; simpl; refold;
        assumption).
  assert (Hresp : response cE = None)
    by (cbn [response with_error with_options cE]; rewrite Hr3; exact Hnr).
  assert (Hcodes : configuredRetryStatuses cE = configuredRetryStatuses c1)
    by (unfold configuredRetryStatuses;
        cbn [options with_error with_options cE]; simpl; refold; now rewrite Ec).
  assert (HdE : retryDelayOf host cE = retryDelayOf host c1)
    by (apply retryDelayOf_ext;
        [cbn [options with_error with_options cE]; simpl; refold; exact Ed
        | exact Hfix]).
  destruct n as [|m].
  - exists (createFetchError cE), (clearTimeout (Some (nextTimer s, T)) s5).
    split; [|split; [reflexivity|split; [cbn; lia|cbn; lia]]].
    rewrite E. apply finally_rejected.
    unfold onError. rewrite onErrorAction_givesUp; [reflexivity|].
    right. left. rewrite Hret, Hn. cbn. lia.
  - assert (Hpos : retries c1 = Z.of_nat (S m)) by exact Hn.
    set (s6 := if 0 <? retryDelayOf host cE
               then record (EvDelay (retryDelayOf host cE)) (tick (retryDelayOf host cE) s5)
               else s5).
    assert (Eon : onError host (fetchRaw host g fuel) cE s5
                  = fetchRaw host g fuel (request cE)
                      (Some (with_retry (options cE) (Some (RetryNum (retries cE - 1))))) s6).
    { apply onError_retries_at.
      - cbn [options with_error with_options cE]. simpl. refold. rewrite Er. exact Hnf.
      - reflexivity.
      - rewrite Hret, Hpos. lia.
      - unfold responseCode. rewrite Hresp, Hcodes. exact Hin. }
    assert (Hs6 : timerAborted s6 !! nextTimer s = Some TimeoutError /\ calls s6 = S (calls s)
                  /\ clock s6 = clock s + T + Z.max 0 (retryDelayOf host c1)).
    { subst s6. rewrite HdE.
      destruct (Z.ltb_spec 0 (retryDelayOf host c1));
        (split; [|cbn; split; [exact Hc5|lia]]); [|exact Ht5].
      exact (tick_aborted _ s5 _ _ Ht5). }
    destruct Hs6 as (Ht6 & Hc6 & Hk6).
    destruct (retry_resolves g req opts (request cE) (options cE)
                (RetryNum (retries cE - 1)))
      as (Fb & Fd & Fc & Ft & Fr & Fs);
      try (cbn [options with_error with_options cE]; simpl; assumption).
    fold c1 in Fb, Fd, Fc, Ft, Fr.
    assert (Hsome : is_Some (signal (options cE))) by (eexists; reflexivity).
    specialize (Fs Hsome).
    change (signal (options cE)) with (Some (TimerSignal (nextTimer s))) in Fs.
    set (c1' := upperCaseMethod
                  (buildContext g (request cE)
                     (Some (with_retry (options cE) (Some (RetryNum (retries cE - 1)))))))
      in *.
    destruct (aborted_token_run host g m Hhooks fuel (request cE)
                (Some (with_retry (options cE) (Some (RetryNum (retries cE - 1))))) s6
                TimeoutError)
      as (fe & s' & E' & Hcause & _ & Hc' & Hk').
    { fold c1'. rewrite Fs. cbn [abortReason]. exact Ht6. }
    { fold c1'. now rewrite Fb. }
    { fold c1'. rewrite Fr, Hret, Hpos. do 2 f_equal. lia. }
    { fold c1'. intros f. rewrite Fd. apply Hfix. }
    { fold c1'. unfold configuredRetryStatuses. rewrite Fc. exact Hin. }
    { left. discriminate. }
    { lia. }
    fold c1' in Hk'.
    assert (Hd' : retryDelayOf host c1' = retryDelayOf host c1)
      by (apply retryDelayOf_ext; [exact Fd | exact Hfix]).
    exists fe, (clearTimeout (Some (nextTimer s, T)) s').
    split; [|split; [exact Hcause|split; [cbn; lia|cbn; rewrite Hk', Hk6, Hd'; lia]]].
    rewrite E. apply finally_rejected. rewrite Eon. exact E'.
Qed.

(** X21. A call without a body, with a timeout of [T] milliseconds, no
    token of the caller's and a budget of [n] retries, whose transport
    does not settle the first invocation within [T], does not get [n]
    further chances: the first attempt is aborted at [T], every retry
    inherits the aborted token and fails at once without a timer of its
    own, and the call rejects after [n + 1] transport invocations, at [T]
    plus [n] retry delays, with a normalized error whose cause is the
    timeout error. (Hooks that only observe, a retry delay that is not a
    callback, 500 among the retry statuses.) *)
Theorem timeout_then_retries host g n fuel req opts s T :
  hooksTransparent host ->
  (forall r o, late T (theFetch host g (calls s) r o)) ->
  freshTimer s ->
  signal (options (upperCaseMethod (buildContext g req opts))) = None ->
  timeout (options (upperCaseMethod (buildContext g req opts))) = Some T ->
  0 < T ->
  body (options (upperCaseMethod (buildContext g req opts))) = None ->
  retry (options (upperCaseMethod (buildContext g req opts))) = Some (RetryNum (Z.of_nat n)) ->
  fixedDelay (upperCaseMethod (buildContext g req opts)) ->
  In 500 (configuredRetryStatuses (upperCaseMethod (buildContext g req opts))) ->
  (n < fuel)%nat ->
  exists fe s',
    fetchRaw host g fuel req opts s = Rejected (ExnFetch fe) s'
    /\ fe_cause fe = Some TimeoutError
    /\ calls s' = (calls s + n + 1)%nat
    /\ clock s' = clock s + T
                  + Z.of_nat n
                    * Z.max 0 (retryDelayOf host (upperCaseMethod (buildContext g req opts))).
Proof.
  intros Hhooks Hlate Hfresh Hsig Ht HT Hb Hr Hfix Hin Hfuel.
  apply timed_out_run; try assumption.
  - rewrite Hr. discriminate.
  - unfold retries. now rewrite Hr.
Qed.

Lemma timeout_then_retries_witness :
  exists fe s',
    fetchRaw (sampleHost slowTransport) noGlobalOptions 2 (ReqString "http://localhost/ok")
      (Some timeoutRetryOptions) initialStore = Rejected (ExnFetch fe) s'
    /\ fe_cause fe = Some TimeoutError
    /\ calls s' = (calls initialStore + 1 + 1)%nat
    /\ clock s' = clock initialStore + 100
                  + Z.of_nat 1
                    * Z.max 0 (retryDelayOf (sampleHost slowTransport)
                                 (upperCaseMethod
                                    (buildContext noGlobalOptions
                                       (ReqString "http://localhost/ok")
                                       (Some timeoutRetryOptions)))).
Proof.
  refine (timeout_then_retries (sampleHost slowTransport) noGlobalOptions 1 2
            (ReqString "http://localhost/ok") (Some timeoutRetryOptions) initialStore 100
            _ _ _ _ _ _ _ _ _ _ _).
  - intros h c. reflexivity.
  - intros r o. vm_compute. discriminate.
  - vm_compute. reflexivity.
  - vm_compute. reflexivity.
  - vm_compute. reflexivity.
  - lia.
  - vm_compute. reflexivity.
  - vm_compute. reflexivity.
  - intros f. vm_compute. discriminate.
  - apply includes_In. vm_compute. reflexivity.
  - lia.
Defined.

(** ** Retrying until the transport answers *)

Lemma retry_resolves_signal g req opts r o3 x :
  key_signal o3 = key_signal (options (upperCaseMethod (buildContext g req opts))) ->
  signal (options (upperCaseMethod (buildContext g r (Some (with_retry o3 (Some x))))))
  = signal (options (upperCaseMethod (buildContext g req opts))).
Proof.
  intros Hs.
  destruct (resolved_fields g req opts) as (_ & Es & _).
  destruct (resolved_fields g r (Some (with_retry o3 (Some x)))) as (_ & Es' & _).
  cbn [spreadOpt default from_option id with_retry key_signal] in Es'.
  unfold signal. rewrite Es', Hs, Es. now rewrite orElse_absorb.
Qed.

(** A call without a body, a token or a timeout gets as far as the
    transport, which is handed the context as the URL assembly left
    it. *)
Lemma plain_reaches host g req opts s :
  body (options (upperCaseMethod (buildContext g req opts))) = None ->
  signal (options (upperCaseMethod (buildContext g req opts))) = None ->
  truthyNum (timeout (options (upperCaseMethod (buildContext g req opts)))) = false ->
  reachesTransport host g req opts s
    (assembleURL host (upperCaseMethod (buildContext g req opts))) None.
Proof.
  intros Hb Hs Ht.
  set (c1 := upperCaseMethod (buildContext g req opts)) in *.
  destruct (assembleURL_core host c1) as (Eb & Es & _ & _ & Et & _).
  exists (assembleURL host c1), (started s). split; [|split; [|split]].
  - apply prepareBody_no_body. now rewrite Eb.
  - unfold armTimeout. rewrite Et, Ht. now rewrite andb_false_r.
  - now rewrite Es, Hs.
  - intros _. now rewrite Es, Hs.
Qed.

(** The run of a call whose transport refuses [k] invocations and then
    answers, by induction on [k]. *)
Lemma retries_until_answer host g k :
  hooksTransparent host -> parsesAll host ->
  forall fuel req opts s B latF e lat r,
    body (options (upperCaseMethod (buildContext g req opts))) = None ->
    signal (options (upperCaseMethod (buildContext g req opts))) = None ->
    truthyNum (timeout (options (upperCaseMethod (buildContext g req opts)))) = false ->
    retry (options (upperCaseMethod (buildContext g req opts))) = Some (RetryNum B) ->
    Z.of_nat k <= B ->
    fixedDelay (upperCaseMethod (buildContext g req opts)) ->
    In 500 (configuredRetryStatuses (upperCaseMethod (buildContext g req opts))) ->
    err_name e <> "AbortError" ->
    (forall j rq o, (j < k)%nat -> theFetch host g (calls s + j)%nat rq o = Fails latF e) ->
    (forall rq o, theFetch host g (calls s + k)%nat rq o = Responds lat r) ->
    isErrorStatus r = false ->
    (k < fuel)%nat ->
    exists r' s',
      fetchRaw host g fuel req opts s = Returned (Some r') s'
      /\ status r' = status r
      /\ calls s' = (calls s + k + 1)%nat
      /\ clock s' = clock s
                    + Z.of_nat k
                      * (Z.max 0 latF
                         + Z.max 0 (retryDelayOf host
                                      (upperCaseMethod (buildContext g req opts))))
                    + Z.max 0 lat.
Proof.
  intros Hhooks Hparse.
  induction k as [|k IH];
    intros fuel req opts s B latF e lat r Hb Hs Ht Hr HB Hfix Hin Hne Hfail Hok Hst Hfuel.
  all: destruct fuel as [|fuel]; [lia|].
  all: pose proof (plain_reaches host g req opts s Hb Hs Ht) as Hreach.
  all: set (c1 := upperCaseMethod (buildContext g req opts)) in *.
  all: set (c3 := assembleURL host c1) in *.
  - assert (Hout : theFetch host g (calls s) (request c3) (options c3) = Responds lat r).
    { specialize (Hok (request c3) (options c3)). now rewrite Nat.add_0_r in Hok. }
    destruct (fetchRaw_settled host g Hhooks fuel req opts s c3 None lat _ (Normal r)
                Hreach Hout (or_introl (ex_intro _ r (conj eq_refl eq_refl))))
      as (s5 & E & Hc & Hk & _); [intros id ms [=]|].
    destruct (afterTransport_returns host Hhooks (fetchRaw host g fuel) (contexts s) None
                c3 r s5)
      as (r' & s' & E' & Hc' & Hk' & Hdec);
      [intros p _; apply Hparse | right; exact Hst |].
    exists r', s'. split; [rewrite E; exact E'|].
    split; [|split; lia].
    destruct Hdec as [H0 H1]. destruct (hasBody c3 r).
    + destruct (H1 eq_refl) as (v & -> & _). reflexivity.
    + now rewrite (H0 eq_refl).
  - assert (Hout : theFetch host g (calls s) (request c3) (options c3) = Fails latF e).
    { specialize (Hfail 0%nat (request c3) (options c3)). rewrite Nat.add_0_r in Hfail.
      apply Hfail. lia. }
    destruct (fetchRaw_settled host g Hhooks fuel req opts s c3 None latF _ (Throws e)
                Hreach Hout (or_intror (ex_intro _ e (conj eq_refl eq_refl))))
      as (s5 & E & Hc5 & Hk5 & _); [intros id ms [=]|].
    destruct (assembleURL_core host c1) as (Eb & Es & Ed & Ec & Et & Er & Em).
    destruct (assembleURL_keys host c1) as (Kb & Kd & Kc & Kt & Ks).
    destruct (upperCaseMethod_fresh (buildContext g req opts)) as [Hnr Hner].
    destruct (assembleURL_keeps host c1) as (Hr3 & He3 & _).
    fold c3 in Eb, Es, Ed, Ec, Et, Er, Em, Hr3, He3, Kb, Kd, Kc, Kt, Ks.
    set (cE := with_error c3 (Some e)) in *.
    assert (Hret : retries cE = B).
    { unfold retries. cbn [options with_error cE]. now rewrite Er, Hr. }
    assert (Hresp : response cE = None)
      by (cbn [response with_error cE]; rewrite Hr3; exact Hnr).
    assert (Hcodes : configuredRetryStatuses cE = configuredRetryStatuses c1)
      by (unfold configuredRetryStatuses; cbn [options with_error cE]; now rewrite Ec).
    assert (HdE : retryDelayOf host cE = retryDelayOf host c1)
      by (apply retryDelayOf_ext; [cbn [options with_error cE]; exact Ed | exact Hfix]).
    assert (Eraw : fetchRaw host g (S fuel) req opts s
                   = onError host (fetchRaw host g fuel) cE s5).
    { rewrite E. unfold afterTransport. rewrite finally_none.
      now rewrite (bind_returned _ _ _ _ _ (callHooks_transparent host Hhooks _ _ _)). }
    rewrite Eraw, onError_retries_at; cycle 1.
    { cbn [options with_error cE]. rewrite Er, Hr. discriminate. }
    { unfold isAbort. cbn [error with_error cE].
      destruct (String.eqb_spec (err_name e) "AbortError"); [contradiction | reflexivity]. }
    { rewrite Hret. lia. }
    { unfold responseCode. rewrite Hresp, Hcodes. exact Hin. }
    set (s6 := if 0 <? retryDelayOf host cE
               then record (EvDelay (retryDelayOf host cE)) (tick (retryDelayOf host cE) s5)
               else s5).
    assert (Hs6 : calls s6 = S (calls s)
                  /\ clock s6 = clock s + Z.max 0 latF + Z.max 0 (retryDelayOf host c1)).
    { subst s6. rewrite HdE.
      destruct (Z.ltb_spec 0 (retryDelayOf host c1)); cbn; (split; [exact Hc5|lia]). }
    destruct Hs6 as (Hc6 & Hk6).
    destruct (retry_resolves g req opts (request cE) (options cE) (RetryNum (retries cE - 1)))
      as (Fb & Fd & Fc & Ft & Fr & _);
      try (cbn [options with_error cE]; assumption).
    assert (EsE : key_signal (options cE) = key_signal (options c1))
      by (cbn [options with_error cE]; exact Ks).
    pose proof (retry_resolves_signal g req opts (request cE) (options cE)
                  (RetryNum (retries cE - 1)) EsE) as Fs.
    fold c1 in Fb, Fd, Fc, Ft, Fr, Fs.
    destruct (IH fuel (request cE)
                (Some (with_retry (options cE) (Some (RetryNum (retries cE - 1))))) s6
                (B - 1) latF e lat r)
      as (r' & s' & E' & Hst' & Hc' & Hk'); try assumption.
    { now rewrite Fb. }
    { now rewrite Fs. }
    { now rewrite Ft. }
    { rewrite Fr, Hret. reflexivity. }
    { lia. }
    { intros f. rewrite Fd. apply Hfix. }
    { unfold configuredRetryStatuses. rewrite Fc. exact Hin. }
    { intros j rq o Hj. rewrite Hc6.
      replace (S (calls s) + j)%nat with (calls s + S j)%nat by lia.
      apply Hfail. lia. }
    { intros rq o. rewrite Hc6.
      replace (S (calls s) + k)%nat with (calls s + S k)%nat by lia. apply Hok. }
    { lia. }
    assert (Hd' : retryDelayOf host
                    (upperCaseMethod
                       (buildContext g (request cE)
                          (Some (with_retry (options cE) (Some (RetryNum (retries cE - 1)))))))
                  = retryDelayOf host c1)
      by (apply retryDelayOf_ext; [exact Fd | exact Hfix]).
    exists r', s'. split; [exact E'|]. split; [exact Hst'|].
    split; [lia|]. rewrite Hk', Hk6, Hd'. lia.
Qed.

(** X22. Retrying works: with hooks that only observe, a call without a
    body, a token or a timeout, whose transport refuses the first [k]
    invocations (with an error that is not a cancellation) and answers
    the next with a status outside 400..599, returns that answer when its
    retry budget is at least [k] and 500 is among the retry statuses. It
    does so after exactly [k + 1] transport invocations, and after [k]
    times the failure latency plus the retry delay, plus the latency of
    the answer. *)
Theorem retries_until_success host g k fuel req opts s B latF e lat r :
  hooksTransparent host -> parsesAll host ->
  body (options (upperCaseMethod (buildContext g req opts))) = None ->
  signal (options (upperCaseMethod (buildContext g req opts))) = None ->
  truthyNum (timeout (options (upperCaseMethod (buildContext g req opts)))) = false ->
  retry (options (upperCaseMethod (buildContext g req opts))) = Some (RetryNum B) ->
  Z.of_nat k <= B ->
  fixedDelay (upperCaseMethod (buildContext g req opts)) ->
  In 500 (configuredRetryStatuses (upperCaseMethod (buildContext g req opts))) ->
  err_name e <> "AbortError" ->
  (forall j rq o, (j < k)%nat -> theFetch host g (calls s + j)%nat rq o = Fails latF e) ->
  (forall rq o, theFetch host g (calls s + k)%nat rq o = Responds lat r) ->
  isErrorStatus r = false ->
  (k < fuel)%nat ->
  exists r' s',
    fetchRaw host g fuel req opts s = Returned (Some r') s'
    /\ status r' = status r
    /\ calls s' = (calls s + k + 1)%nat
    /\ clock s' = clock s
                  + Z.of_nat k
                    * (Z.max 0 latF
                       + Z.max 0 (retryDelayOf host
                                    (upperCaseMethod (buildContext g req opts))))
                  + Z.max 0 lat.
Proof. intros Hhooks Hparse. now apply retries_until_answer. Qed.

Lemma retries_until_success_witness :
  exists r' s',
    fetchRaw (sampleHost recoveringTransport) noGlobalOptions 3
      (ReqString "http://localhost/ok") (Some threeRetriesOptions) initialStore
    = Returned (Some r') s'
    /\ status r' = status okResponse
    /\ calls s' = (calls initialStore + 2 + 1)%nat
    /\ clock s' = clock initialStore
                  + Z.of_nat 2
                    * (Z.max 0 3
                       + Z.max 0 (retryDelayOf (sampleHost recoveringTransport)
                                    (upperCaseMethod
                                       (buildContext noGlobalOptions
                                          (ReqString "http://localhost/ok")
                                          (Some threeRetriesOptions)))))
                  + Z.max 0 5.
Proof.
  refine (retries_until_success (sampleHost recoveringTransport) noGlobalOptions 2 3
            (ReqString "http://localhost/ok") (Some threeRetriesOptions) initialStore
            3 3 refusedError 5 okResponse _ _ _ _ _ _ _ _ _ _ _ _ _ _).
  - intros h c. reflexivity.
  - intros p text. eexists. reflexivity.
  - vm_compute. reflexivity.
  - vm_compute. reflexivity.
  - vm_compute. reflexivity.
  - vm_compute. reflexivity.
  - vm_compute. discriminate.
  - intros f. vm_compute. discriminate.
  - apply includes_In. vm_compute. reflexivity.
  - vm_compute. discriminate.
  - intros j rq o Hj. destruct j as [|[|j]]; [reflexivity | reflexivity | lia].
  - intros rq o. reflexivity.
  - vm_compute. reflexivity.
  - lia.
Defined.

(** ** Timeouts of calls whose transport never responds *)

Lemma prepareBody_keeps_codes host c c' s s' :
  prepareBody host c s = Returned c' s' ->
  retryStatusCodes (options c') = retryStatusCodes (options c).
Proof.
  unfold prepareBody. destruct (body (options c)) as [b|];
    [|intros [= <- _]; reflexivity].
  destruct (truthy b && isPayloadMethod (method (options c)))%bool;
    [|intros [= <- _]; reflexivity].
  unfold bind at 1. destruct (isJSONSerializable b) as [[|]|e]; simpl; [| |discriminate].
  - destruct b; unfold bind, ret; simpl;
      try (destruct (JSON_stringify host _) as [v|e]; simpl; [|discriminate]);
      intros [= <- _]; reflexivity.
  - unfold bind at 1. destruct (isStreamBody b) as [[|]|e]; simpl; try discriminate.
    + destruct (present _); intros [= <- _]; reflexivity.
    + intros [= <- _]. reflexivity.
Qed.

(** C4 (as amended). Take a call with a timeout of [T] milliseconds
    ([T > 0]) whose transport never responds, with hooks that only
    observe. Without a cancellation token of the caller's, the first
    attempt is aborted at [T] with the timeout error (name [TimeoutError],
    code 23), and that failure, which is not classified as a cancellation
    by the caller, is handed to the retry handler; the timer is cleared
    when the handler is done. When the handler gives up -- retry is
    disabled, the budget is not positive, or 500 is not among the retry
    statuses -- the call rejects right then, at [T] and after a single
    transport invocation, with a normalized error whose cause is that
    timeout error. Otherwise, for a call without a body and with a retry
    delay that is not a callback, the [n > 0] retries of the budget run:
    each inherits the aborted token and fails at once, and the call
    rejects, with the same cause, after [n + 1] transport invocations, at
    [T] plus [n] retry delays. With a token of the caller's that is not
    aborted, no timer is armed and the call stays pending. *)
Theorem timeout_rejects host g fuel req opts s T :
  hooksTransparent host ->
  (forall n r o, theFetch host g n r o = NeverSettles) ->
  timeout (options (upperCaseMethod (buildContext g req opts))) = Some T ->
  0 < T ->
  (signal (options (upperCaseMethod (buildContext g req opts))) = None ->
   freshTimer s ->
   forall c3,
     prepareBody host (assembleURL host (upperCaseMethod (buildContext g req opts)))
                 (started s)
     = Returned c3 (started s) ->
     (exists c4 e s5,
         fetchRaw host g (S fuel) req opts s
         = finally (onError host (fetchRaw host g fuel) (with_error c4 (Some e)))
                   (clearTimeout (Some (nextTimer s, T))) s5
         /\ timeoutReason e
         /\ abortReason s5 (signal (options c4)) = Some e
         /\ isAbort (with_error c4 (Some e)) = false
         /\ clock s5 = clock s + T
         /\ calls s5 = S (calls s))
     /\ (givesUp (upperCaseMethod (buildContext g req opts)) 500 ->
         rejectsOnTimeout s T (fetchRaw host g (S fuel) req opts s)))
  /\ (forall n,
        signal (options (upperCaseMethod (buildContext g req opts))) = None ->
        freshTimer s ->
        body (options (upperCaseMethod (buildContext g req opts))) = None ->
        retry (options (upperCaseMethod (buildContext g req opts))) <> Some RetryFalse ->
        retries (upperCaseMethod (buildContext g req opts)) = Z.of_nat n ->
        In 500 (configuredRetryStatuses (upperCaseMethod (buildContext g req opts))) ->
        fixedDelay (upperCaseMethod (buildContext g req opts)) ->
        (n < fuel)%nat ->
        exists fe cause s',
          fetchRaw host g fuel req opts s = Rejected (ExnFetch fe) s'
          /\ fe_cause fe = Some cause
          /\ timeoutReason cause
          /\ calls s' = (calls s + n + 1)%nat
          /\ clock s' = clock s + T
                        + Z.of_nat n
                          * Z.max 0 (retryDelayOf host
                                       (upperCaseMethod (buildContext g req opts))))
  /\ (signal (options (upperCaseMethod (buildContext g req opts))) = Some (CallerSignal None) ->
      forall c3,
        prepareBody host (assembleURL host (upperCaseMethod (buildContext g req opts)))
                    (started s)
        = Returned c3 (started s) ->
        armTimeout c3 (started s) = Returned (c3, None) (started s)
        /\ exists s',
             fetchRaw host g (S fuel) req opts s = Pending s'
             /\ clock s' = clock s
             /\ calls s' = S (calls s)).
Proof.
  intros Hhooks Hsilent Ht HT.
  set (c1 := upperCaseMethod (buildContext g req opts)) in *.
  assert (Hlate : forall r o, late T (theFetch host g (calls s) r o))
    by (intros r o; rewrite Hsilent; exact I).
  destruct (assembleURL_core host c1) as (_ & Es & _ & Ec & Et & Er & Em).
  destruct (assembleURL_keeps host c1) as (Hr3 & _).
  destruct (upperCaseMethod_fresh (buildContext g req opts)) as [Hnr _].
  split; [|split].
  - intros Hsig Hfresh c3 Hprep.
    destruct (fetchRaw_times_out host g fuel req opts s T c3 Hhooks Hlate Hfresh Hsig Ht HT
                Hprep) as (s5 & E & Hc5 & Hk5 & Ht5).
    fold c1 in E.
    set (c4 := with_options c3 (with_signal (options c3) (Some (TimerSignal (nextTimer s)))))
      in *.
    split.
    + exists c4, TimeoutError, s5. split; [exact E|]. split; [split; reflexivity|].
      split; [exact Ht5|]. split; [reflexivity|]. split; assumption.
    + intros Hgive.
      destruct (prepareBody_keeps host _ _ _ _ Hprep) as (_ & Pr & _ & _ & _ & Pry & Pm & _).
      pose proof (prepareBody_keeps_codes host _ _ _ _ Hprep) as Pc.
      set (cE := with_error c4 (Some TimeoutError)) in *.
      assert (Hresp : response cE = None).
      { cbn [response with_error with_options cE c4]. rewrite Pr, Hr3. exact Hnr. }
      assert (HgE : givesUp cE (responseCode cE)).
      { unfold responseCode. rewrite Hresp.
        assert (Hry : retry (options cE) = retry (options c1)).
        { cbn [options with_error with_options cE c4]. simpl. refold. now rewrite Pry, Er. }
        assert (Hrs : retries cE = retries c1).
        { apply retries_ext; [exact Hry|].
          cbn [options with_error with_options cE c4]. simpl. refold. now rewrite Pm, Em. }
        assert (Hcs : configuredRetryStatuses cE = configuredRetryStatuses c1).
        { unfold configuredRetryStatuses. cbn [options with_error with_options cE c4].
          simpl. refold. now rewrite Pc, Ec. }
        destruct Hgive as [H|[H|H]].
        - left. now rewrite Hry.
        - right. left. now rewrite Hrs.
        - right. right. now rewrite Hcs. }
      exists (createFetchError cE), TimeoutError, (clearTimeout (Some (nextTimer s, T)) s5).
      split; [|split; [reflexivity|split; [split; reflexivity|split; [exact Hk5|exact Hc5]]]].
      rewrite E. apply finally_rejected.
      unfold onError. now rewrite onErrorAction_givesUp.
  - intros n Hsig Hfresh Hb Hnf Hn Hin Hfix Hfuel.
    destruct (timed_out_run host g n fuel req opts s T Hhooks Hlate Hfresh Hsig Ht HT Hb
                Hnf Hn Hfix Hin Hfuel) as (fe & s' & E & Hcause & Hc & Hk).
    exists fe, TimeoutError, s'.
    split; [exact E|]. split; [exact Hcause|]. split; [split; reflexivity|].
    split; assumption.
  - intros Hsig c3 Hprep.
    destruct (prepareBody_keeps host _ _ _ _ Hprep) as (_ & _ & _ & _ & Ps & _).
    rewrite Es, Hsig in Ps.
    assert (Harm : armTimeout c3 (started s) = Returned (c3, None) (started s)).
    { unfold armTimeout. rewrite Ps.
      rewrite (bool_decide_eq_true_2 (is_Some (Some (CallerSignal None)))) by eauto.
      reflexivity. }
    split; [exact Harm|].
    rewrite (fetchRaw_prepared host g Hhooks fuel req opts s c3 Hprep).
    rewrite (bind_returned _ _ _ _ _ Harm). cbn [fst snd].
    unfold bind at 1, awaitFetch. rewrite Ps, Hsilent. cbn [abortReason deadlineOf].
    eexists. split; [reflexivity|]. split; reflexivity.
Qed.

Lemma timeout_rejects_witness :
  rejectsOnTimeout initialStore 100
    (fetchRaw (sampleHost silentTransport) noGlobalOptions 1
       (ReqString "http://localhost/timeout") (Some timeoutOnlyOptions) initialStore).
Proof.
  refine (proj2 (proj1 (timeout_rejects (sampleHost silentTransport) noGlobalOptions 0
                          (ReqString "http://localhost/timeout") (Some timeoutOnlyOptions)
                          initialStore 100 _ _ _ _)
                   _ _
                   (assembleURL (sampleHost silentTransport)
                      (upperCaseMethod
                         (buildContext noGlobalOptions
                            (ReqString "http://localhost/timeout")
                            (Some timeoutOnlyOptions))))
                   _) _).
  - intros h c. reflexivity.
  - intros n r o. reflexivity.
  - vm_compute. reflexivity.
  - lia.
  - vm_compute. reflexivity.
  - vm_compute. reflexivity.
  - vm_compute. reflexivity.
  - right. left. vm_compute. discriminate.
Defined.

(** C4 (as stated) fails. With one retry and a retry delay of five
    seconds the same timeout rejects only after 5100 ms and two transport
    invocations: the timeout is handed to the retry loop, and the loop
    extends the call. And with a cancellation token of the caller's, no
    timer is armed: the call stays pending. *)
Lemma timeout_rejects_counterexample :
  (exists e s',
      fetchRaw (sampleHost silentTransport) noGlobalOptions 3
        (ReqString "http://localhost/timeout") (Some timeoutRetryOptions) initialStore
      = Rejected (ExnFetch e) s'
      /\ fe_cause e = Some TimeoutError
      /\ clock s' = 5100
      /\ calls s' = 2%nat)
  /\ (exists s',
        fetchRaw (sampleHost silentTransport) noGlobalOptions 3
          (ReqString "http://localhost/timeout") (Some timeoutWithTokenOptions) initialStore
        = Pending s'
        /\ timerAborted s' = ∅)
  /\ ~ rejectsOnTimeout initialStore 100
         (fetchRaw (sampleHost silentTransport) noGlobalOptions 3
            (ReqString "http://localhost/timeout") (Some timeoutRetryOptions) initialStore).
Proof.
  assert (H : exists e s',
      fetchRaw (sampleHost silentTransport) noGlobalOptions 3
        (ReqString "http://localhost/timeout") (Some timeoutRetryOptions) initialStore
      = Rejected (ExnFetch e) s'
      /\ fe_cause e = Some TimeoutError
      /\ clock s' = 5100
      /\ calls s' = 2%nat).
  { eexists _, _. split; [vm_compute; reflexivity|]. repeat split. }
  split; [exact H|]. split.
  - eexists. split; [vm_compute; reflexivity | reflexivity].
  - destruct H as (e & s' & Hrun & _ & Hclock & _).
    intros (e2 & cause & s2 & Hrun2 & _ & _ & Hclock2 & _).
    rewrite Hrun in Hrun2. injection Hrun2 as _ <-.
    rewrite Hclock in Hclock2. simpl in Hclock2. discriminate.
Qed.
